(** * warp: coordinator/follower benchmark driver and analysis front-end

    A shallow embedding of the [cli] package of warp (benchserver.go,
    benchmark.go, analyze, cmp and merge commands) together with the
    properties its design document states about it.

    Conventions.
    - Go's [int], [int64] and [time.Duration] are [Z]; where the source
      relies on fixed-width arithmetic ([uint16], [uint32], negation of an
      [int64]) the wrap-around is written out.
    - A Go [error] result is an [option string]: [None] is [nil].
    - [fatalIf]/[console.Fatal] terminate the process; functions that may
      reach them return a [result] whose [Fatal] constructor carries the
      message.
    - [map[string]string] is stdpp's [gmap string string]. *)

From Stdlib Require Import ZArith List Lia Bool Ascii String DecimalString.
From Stdlib Require Import Permutation Sorted.
From stdpp Require Import base gmap strings list.
Import ListNotations.

Local Open Scope string_scope.
Local Open Scope list_scope.
Local Open Scope Z_scope.

(** ** Shared vocabulary *)

(** Outcome of code that may call [fatalIf] / [console.Fatal]. *)
Inductive result (A : Type) : Type :=
| Ok (a : A)
| Fatal (msg : string).
Arguments Ok {A} a.
Arguments Fatal {A} msg.

Definition bind_result {A B} (r : result A) (k : A -> result B) : result B :=
  match r with
  | Ok a => k a
  | Fatal m => Fatal m
  end.

(** [time.Duration] is an [int64] count of nanoseconds. *)
Definition Duration := Z.
Definition Nanosecond : Duration := 1.
Definition Millisecond : Duration := 1000000.
Definition Second : Duration := 1000000000.
Definition Minute : Duration := 60 * Second.
Definition Hour : Duration := 60 * Minute.

Definition minDuration : Duration := - 2 ^ 63.
Definition maxDuration : Duration := 2 ^ 63 - 1.

(** Two's-complement wrap of a mathematical integer into [int64]. *)
Definition wrap64 (x : Z) : Z := (x + 2 ^ 63) mod 2 ^ 64 - 2 ^ 63.

(** Go's [/] on signed integers truncates toward zero. *)
Definition go_div (a b : Z) : Z := Z.quot a b.

(** ** Handshake validation (benchserver.go) *)

Module Handshake.

Definition warpServerVersion : Z := 1.

Record serverInfo : Type := {
  ID : string;
  Secret : string;
  Version : Z;
  connected : bool
}.

Definition err_no_id : string := "no server id sent".
Definition err_version : string := "warp server and client version mismatch".

(** [func (s serverInfo) validate() error] *)
Definition validate (s : serverInfo) : option string :=
  if String.eqb (ID s) "" then Some err_no_id
  else if negb (Version s =? warpServerVersion) then Some err_version
  else None.

End Handshake.

(** ** Pseudo-random identifiers (benchmark.go) *)

Module RandASCII.

Definition asciiLetters : string :=
  "abcdefghijklmnopqrstuvwxyzABCDEFGHIJKLMNOPQRSTUVWXYZ1234567890".

Definition uint32 (x : Z) : Z := x mod 2 ^ 32.

(** [binary.LittleEndian.Uint32] on a four-byte slice. *)
Definition LittleEndian_Uint32 (b0 b1 b2 b3 : Byte.byte) : Z :=
  Z.lor (Z.of_N (Byte.to_N b0))
   (Z.lor (Z.shiftl (Z.of_N (Byte.to_N b1)) 8)
    (Z.lor (Z.shiftl (Z.of_N (Byte.to_N b2)) 16)
           (Z.shiftl (Z.of_N (Byte.to_N b3)) 24))).

(** The eight seed bytes filled by [rand.Read]. *)
Record seed8 : Type := {
  s0 : Byte.byte; s1 : Byte.byte; s2 : Byte.byte; s3 : Byte.byte;
  s4 : Byte.byte; s5 : Byte.byte; s6 : Byte.byte; s7 : Byte.byte
}.

(** [asciiLetters[i]]; indexing past the end panics in Go. *)
Definition letter_at (i : Z) : option ascii :=
  if (0 <=? i) && (i <? Z.of_nat (String.length asciiLetters))
  then String.get (Z.to_nat i) asciiLetters
  else None.

(** The body of [for i := range dst], run [n] times. *)
Fixpoint fill (n : nat) (rnd rnd2 : Z) : option (list ascii) :=
  match n with
  | O => Some []
  | S k =>
      match letter_at (Z.rem (Z.shiftr rnd 16) (Z.of_nat (String.length asciiLetters))) with
      | None => None
      | Some c =>
          let rnd := Z.lxor rnd rnd2 in
          let rnd := uint32 (rnd * 2654435761) in
          match fill k rnd rnd2 with
          | None => None
          | Some cs => Some (c :: cs)
          end
      end
  end.

(** [func pRandASCII(n int) string]; [None] is a run-time panic
    ([make] with a negative length, or an index out of range). *)
Definition pRandASCII (seed : seed8) (n : Z) : option string :=
  if n <? 0 then None
  else
    let rnd := LittleEndian_Uint32 (s0 seed) (s1 seed) (s2 seed) (s3 seed) in
    let rnd2 := LittleEndian_Uint32 (s4 seed) (s5 seed) (s6 seed) (s7 seed) in
    match fill (Z.to_nat n) rnd rnd2 with
    | None => None
    | Some cs => Some (string_of_list_ascii cs)
    end.

(** ASCII letters and digits. *)
Definition is_alnum (c : ascii) : bool :=
  let n := nat_of_ascii c in
  ((97 <=? n) && (n <=? 122) || (65 <=? n) && (n <=? 90) || (48 <=? n) && (n <=? 57))%nat.

Definition good_letter (c : ascii) : Prop :=
  In c (list_ascii_of_string asciiLetters) /\ is_alnum c = true.

(** A seed used to run the generator on a concrete input. *)
Definition seed_example : seed8 :=
  {| s0 := Byte.x2a; s1 := Byte.x07; s2 := Byte.xc3; s3 := Byte.x91;
     s4 := Byte.x55; s5 := Byte.xee; s6 := Byte.x10; s7 := Byte.x8b |}.

End RandASCII.

(** ** The command-line context ([*cli.Context]) as the code reads it *)

(** [float64] values are carried as their IEEE-754 bit pattern; the
    arithmetic on them is supplied by the caller where it is needed. *)
Definition float64 := Z.

Inductive FlagType : Type :=
| StringFlag | BoolFlag | Int64Flag | IntFlag | DurationFlag
| UintFlag | Uint64Flag | Float64Flag
| OtherFlag.

Record Flag : Type := {
  flag_Name : string;
  flag_Type : FlagType
}.

(** The parsed value of a flag (its default when it was not given). *)
Inductive FlagValue : Type :=
| VString (s : string)
| VBool (b : bool)
| VInt (z : Z)
| VDuration (d : Duration)
| VFloat64 (f : float64).

Record Context : Type := {
  ctx_Command_Name : string;
  ctx_Command_Flags : list Flag;
  ctx_Args : list string;
  ctx_IsSet : string -> bool;
  ctx_lookup : string -> option FlagValue
}.

(** The typed getters return the zero value for an unknown flag or a
    flag of another type. *)
Definition ctx_String (ctx : Context) (name : string) : string :=
  match ctx_lookup ctx name with Some (VString s) => s | _ => "" end.
Definition ctx_Bool (ctx : Context) (name : string) : bool :=
  match ctx_lookup ctx name with Some (VBool b) => b | _ => false end.
Definition ctx_Int (ctx : Context) (name : string) : Z :=
  match ctx_lookup ctx name with Some (VInt z) => z | _ => 0 end.
Definition ctx_Duration (ctx : Context) (name : string) : Duration :=
  match ctx_lookup ctx name with Some (VDuration d) => d | _ => 0 end.
Definition ctx_Float64 (ctx : Context) (name : string) : float64 :=
  match ctx_lookup ctx name with Some (VFloat64 f) => f | _ => 0 end.

(** A context built from the flags that were given on the command line
    (every other flag reads as its zero value). *)
Definition ctx_of (command : string) (flags : list Flag)
    (given : list (string * FlagValue)) : Context :=
  {| ctx_Command_Name := command;
     ctx_Command_Flags := flags;
     ctx_Args := [];
     ctx_IsSet := fun name => existsb (fun p => String.eqb (fst p) name) given;
     ctx_lookup := fun name =>
       match List.find (fun p => String.eqb (fst p) name) given with
       | Some p => Some (snd p)
       | None => None
       end |}.

(** ** Choice of the segment duration (analyze command) *)

Module Analyze.

Definition wantAtMost : Z := 400.

Definition stdDurations : list Duration :=
  [Second; 5 * Second; 15 * Second; Minute; 5 * Minute; 15 * Minute;
   Hour; 3 * Hour].

Definition msg_invalid_dur : string := "无效的 -analyze.dur 值".

Section AnalysisDur.
(** [time.Duration.String] and [time.ParseDuration] of Go's library. *)
Variable Duration_String : Duration -> string.
Variable ParseDuration : string -> option Duration.

(** [for _, d := range stdDurations { dur = d.String();
      if total/d <= wantAtMost { break } }] *)
Fixpoint pick_std (total : Duration) (ds : list Duration) (dur : string)
  : string :=
  match ds with
  | [] => dur
  | d :: rest =>
      let dur := Duration_String d in
      if go_div total d <=? wantAtMost then dur
      else pick_std total rest dur
  end.

(** [d, err := time.ParseDuration(dur); fatalIf(err, ...); return d] *)
Definition parse_or_fatal (dur : string) : result Duration :=
  match ParseDuration dur with
  | Some d => Ok d
  | None => Fatal msg_invalid_dur
  end.

(** [func analysisDur(ctx *cli.Context, total time.Duration) time.Duration] *)
Definition analysisDur (ctx : Context) (total : Duration) : result Duration :=
  let dur := ctx_String ctx "analyze.dur" in
  if String.eqb dur "" then
    if total =? 0 then Ok 0
    else parse_or_fatal (pick_std total stdDurations dur)
  else parse_or_fatal dur.


(** [func checkAnalyze(ctx *cli.Context)] *)
Definition checkAnalyze (ctx : Context) : result unit :=
  bind_result (analysisDur ctx Minute) (fun d =>
    if d =? 0 then Fatal msg_invalid_dur else Ok tt).
End AnalysisDur.

(** A reference pair for the two library functions, on the fragment the
    code exercises: whole, positive numbers of seconds are printed as Go
    prints them ([1m0s], [3h0m0s]), and unsigned sequences of
    [<digits><unit>] are read back. *)
Definition dec (n : Z) : string :=
  DecimalString.NilZero.string_of_uint (N.to_uint (Z.to_N n)).

Definition String_hms (d : Duration) : string :=
  let u := d / Second in
  let s := u mod 60 in
  let m := (u / 60) mod 60 in
  let h := u / 3600 in
  if 0 <? h then (dec h ++ "h" ++ dec m ++ "m" ++ dec s ++ "s")%string
  else if 0 <? m then (dec m ++ "m" ++ dec s ++ "s")%string
  else (dec s ++ "s")%string.

Definition digit_of (c : ascii) : option Z :=
  let n := Z.of_nat (nat_of_ascii c) in
  if (48 <=? n) && (n <=? 57) then Some (n - 48) else None.

Fixpoint parse_units (s : string) (acc : Z) (num : option Z) : option Z :=
  match s with
  | EmptyString => match num with None => Some acc | Some _ => None end
  | String c rest =>
      match digit_of c with
      | Some k => parse_units rest acc (Some (10 * default 0 num + k))
      | None =>
          match num with
          | None => None
          | Some n =>
              if Ascii.eqb c "h" then parse_units rest (acc + n * Hour) None
              else if Ascii.eqb c "s" then parse_units rest (acc + n * Second) None
              else if Ascii.eqb c "m" then
                match rest with
                | String "s" rest' => parse_units rest' (acc + n * Millisecond) None
                | _ => parse_units rest (acc + n * Minute) None
                end
              else None
          end
      end
  end.

Definition Parse_hms (s : string) : option Duration :=
  match s with
  | EmptyString => None
  | _ => parse_units s 0 None
  end.

End Analyze.

(** ** Connecting to a follower and the clock check (benchserver.go) *)

Module Connect.

(** A wall-clock instant, in nanoseconds since the epoch. *)
Definition Time := Z.

(** [t.Add(d)] *)
Definition Time_Add (t : Time) (d : Duration) : Time := t + d.

(** [t.Sub(u)]: the difference, clamped to the range of [Duration]. *)
Definition Time_Sub (t u : Time) : Duration :=
  if t - u <? minDuration then minDuration
  else if maxDuration <? t - u then maxDuration
  else t - u.

(** [time.Since(t)] when the clock reads [now]. *)
Definition Since (now t : Time) : Duration := Time_Sub now t.

(** Modelled from the spec: the [clientReply] frame, declared outside the
    sources ([ClientReply { err?, time, stage_info?, ops? }]); here the two
    fields [connect] reads. *)
Record handshakeReply : Type := {
  reply_Err : string;
  reply_Time : Time
}.

(** What one pass through the body of [connect]'s loop observes. *)
Record attempt : Type := {
  dial_err : option string;
  sent : Time;
  write_err : option string;
  read_err : option string;
  resp : handshakeReply;
  now_roundtrip : Time;
  now_delta : Time
}.

Inductive connError : Type :=
| ErrDial (e : string)
| ErrWrite (e : string)
| ErrRead (e : string)
| ErrClient (e : string)
(** "host %v time delta too big (%v). Roundtrip took %v.
    Synchronize clock on client and retry" *)
| ErrTimeDelta (host : string) (delta roundtrip : Duration).

Definition is_sync_error (e : option connError) : bool :=
  match e with Some (ErrTimeDelta _ _ _) => true | _ => false end.

(** [roundtrip := time.Since(sent)] *)
Definition roundtrip_of (a : attempt) : Duration :=
  Since (now_roundtrip a) (sent a).

(** [delta := time.Since(resp.Time.Add(roundtrip / 2))] *)
Definition skew_of (a : attempt) : Duration :=
  Since (now_delta a) (Time_Add (reply_Time (resp a)) (go_div (roundtrip_of a) 2)).

(** [if delta < 0 { delta = -delta }] on an [int64]. *)
Definition abs_delta (delta : Duration) : Duration :=
  if delta <? 0 then wrap64 (- delta) else delta.

(** [d.Round(m)]: to the nearest multiple of [m], halves away from zero,
    clamped on overflow. *)
Definition lessThanHalf (x y : Z) : bool := x + x <? y.

Definition Duration_Round (d m : Duration) : Duration :=
  if m <=? 0 then d
  else
    let r := Z.rem d m in
    if d <? 0 then
      let r := - r in
      if lessThanHalf r m then d + r
      else
        let d1 := wrap64 (d - m + r) in
        if d1 <? d then d1 else minDuration
    else if lessThanHalf r m then d - r
    else
      let d1 := wrap64 (d + m - r) in
      if d <? d1 then d1 else maxDuration.

Definition warpServerDefaultPort : string := "7761".

Fixpoint contains_colon (s : string) : bool :=
  match s with
  | EmptyString => false
  | String c rest => Ascii.eqb c ":" || contains_colon rest
  end.

(** [if !strings.Contains(host, ":") { host += ":" + port }] *)
Definition with_port (host : string) : string :=
  if contains_colon host then host
  else (host ++ ":" ++ warpServerDefaultPort)%string.

(** The closure run once per try inside [connect], for [c.hosts[i] = host]. *)
Definition connectOnce (host : string) (a : attempt) : option connError :=
  match dial_err a with
  | Some e => Some (ErrDial e)
  | None =>
    match write_err a with
    | Some e => Some (ErrWrite e)
    | None =>
      match read_err a with
      | Some e => Some (ErrRead e)
      | None =>
        if negb (String.eqb (reply_Err (resp a)) "") then
          Some (ErrClient (reply_Err (resp a)))
        else
          let roundtrip := roundtrip_of a in
          let delta := abs_delta (skew_of a) in
          if Second <? delta then
            Some (ErrTimeDelta (with_port host)
                    (Duration_Round delta Millisecond)
                    (Duration_Round roundtrip Millisecond))
          else None
      end
    end
  end.

(** [func (c *connections) connect(i int) error]: up to four tries;
    [atts k] is what try number [k] observes.  The result tells whether
    [c.ws[i]] is left connected and how many retries were logged. *)
Fixpoint connect_from (host : string) (atts : nat -> attempt)
    (tries : nat) (fuel : nat) : option (option connError * nat) :=
  match fuel with
  | O => None
  | S fuel' =>
      match connectOnce host (atts tries) with
      | None => Some (None, tries)
      | Some e =>
          if (tries =? 3)%nat then Some (Some e, tries)
          else connect_from host atts (S tries) fuel'
      end
  end.

Definition connect (host : string) (atts : nat -> attempt)
  : option (option connError * nat) :=
  connect_from host atts 0 4.

(** The handshake went through up to the clock check. *)
Definition handshake_ok (a : attempt) : bool :=
  match dial_err a, write_err a, read_err a with
  | None, None, None => String.eqb (reply_Err (resp a)) ""
  | _, _, _ => false
  end.

(** The skew as a mathematical integer, before [Duration] clamps it. *)
Definition exact_skew (a : attempt) : Z :=
  now_delta a - (reply_Time (resp a) + go_div (roundtrip_of a) 2).

(** A follower whose clock reads 2400-01-01T00:00:00Z (Unix second
    13569465600) answering a coordinator whose clock reads Unix second
    1793000000 (October 2026), over a 2 ms round trip. *)
Definition far_future : attempt :=
  {| dial_err := None;
     sent := 1793000000 * Second;
     write_err := None;
     read_err := None;
     resp := {| reply_Err := ""; reply_Time := 13569465600 * Second |};
     now_roundtrip := 1793000000 * Second + 2 * Millisecond;
     now_delta := 1793000000 * Second + 2 * Millisecond |}.

(** A follower three seconds ahead, and one in step. *)
Definition three_ahead : attempt :=
  {| dial_err := None;
     sent := 1793000000 * Second;
     write_err := None;
     read_err := None;
     resp := {| reply_Err := ""; reply_Time := 1793000003 * Second |};
     now_roundtrip := 1793000000 * Second + 2 * Millisecond;
     now_delta := 1793000000 * Second + 2 * Millisecond |}.

Definition in_step : attempt :=
  {| dial_err := None;
     sent := 1793000000 * Second;
     write_err := None;
     read_err := None;
     resp := {| reply_Err := "";
                reply_Time := 1793000000 * Second + Millisecond |};
     now_roundtrip := 1793000000 * Second + 2 * Millisecond;
     now_delta := 1793000000 * Second + 2 * Millisecond |}.

End Connect.

(** ** Serialising the invocation for the followers (benchserver.go) *)

Module Forward.

(** [excludeFlags := map[string]struct{}{...}] *)
Definition excludeFlags : gset string :=
  {[ "warp-client"; "warp-client-server"; "serverprof"; "autocompletion";
     "help"; "syncstart"; "analyze.out" ]}.

Definition Sprint_bool (b : bool) : string := if b then "true" else "false".

Definition Sprint_int (z : Z) : string :=
  if z <? 0 then ("-" ++ Analyze.dec (- z))%string else Analyze.dec z.

Definition err_unhandled : string := "unhandled flag type".

Section FlagToJSON.
Variable Duration_String : Duration -> string.
Variable Sprint_float64 : float64 -> string.

(** [func flagToJSON(ctx *cli.Context, flag cli.Flag) (string, error)] *)
Definition flagToJSON (ctx : Context) (flag : Flag) : string * option string :=
  let name := flag_Name flag in
  match flag_Type flag with
  | StringFlag =>
      if ctx_IsSet ctx name then (ctx_String ctx name, None) else ("", None)
  | BoolFlag =>
      if ctx_IsSet ctx name then (Sprint_bool (ctx_Bool ctx name), None) else ("", None)
  | Int64Flag | IntFlag | UintFlag | Uint64Flag =>
      if ctx_IsSet ctx name then (Sprint_int (ctx_Int ctx name), None) else ("", None)
  | DurationFlag =>
      if ctx_IsSet ctx name then (Duration_String (ctx_Duration ctx name), None)
      else ("", None)
  | Float64Flag =>
      if ctx_IsSet ctx name then (Sprint_float64 (ctx_Float64 ctx name), None)
      else ("", None)
  | OtherFlag =>
      if ctx_IsSet ctx name then ("", Some err_unhandled) else ("", None)
  end.

(** The loop [for _, flag := range ctx.Command.Flags] of
    [runServerBenchmark]; [inr err] is its [return true, err]. *)
Fixpoint serializeFlags (ctx : Context) (flags : list Flag)
    (m : gmap string string) : gmap string string + string :=
  match flags with
  | [] => inl m
  | flag :: rest =>
      let name := flag_Name flag in
      if decide (name ∈ excludeFlags) then serializeFlags ctx rest m
      else if ctx_IsSet ctx name then
        match flagToJSON ctx flag with
        | (v, None) => serializeFlags ctx rest (<[name := v]> m)
        | (_, Some e) => inr e
        end
      else serializeFlags ctx rest m
  end.

(** [req.Benchmark.Flags] as sent to every follower. *)
Definition forwardedFlags (ctx : Context) : gmap string string + string :=
  serializeFlags ctx (ctx_Command_Flags ctx) ∅.
End FlagToJSON.

(** Flag tables of the source (benchmark.go and the analyze command). *)
Definition benchFlags : list Flag :=
  [ {| flag_Name := "benchdata"; flag_Type := StringFlag |};
    {| flag_Name := "serverprof"; flag_Type := StringFlag |};
    {| flag_Name := "duration"; flag_Type := DurationFlag |};
    {| flag_Name := "autoterm"; flag_Type := BoolFlag |};
    {| flag_Name := "autoterm.dur"; flag_Type := DurationFlag |};
    {| flag_Name := "autoterm.pct"; flag_Type := Float64Flag |};
    {| flag_Name := "noclear"; flag_Type := BoolFlag |};
    {| flag_Name := "keep-data"; flag_Type := BoolFlag |};
    {| flag_Name := "syncstart"; flag_Type := StringFlag |};
    {| flag_Name := "warp-client"; flag_Type := StringFlag |} ].

Definition analyzeFlags : list Flag :=
  [ {| flag_Name := "analyze.dur"; flag_Type := StringFlag |};
    {| flag_Name := "analyze.out"; flag_Type := StringFlag |};
    {| flag_Name := "analyze.op"; flag_Type := StringFlag |};
    {| flag_Name := "analyze.host"; flag_Type := StringFlag |};
    {| flag_Name := "analyze.skip"; flag_Type := DurationFlag |};
    {| flag_Name := "analyze.limit"; flag_Type := IntFlag |};
    {| flag_Name := "analyze.offset"; flag_Type := IntFlag |};
    {| flag_Name := "analyze.v"; flag_Type := BoolFlag |};
    {| flag_Name := "serve"; flag_Type := StringFlag |} ].




End Forward.

(** ** Operation logs and their merging (benchserver.go, merge command) *)

Module Log.

(** Modelled from the spec: [bench.Operation], whose declaration
    (package [pkg/bench]) is not among the sources; the fields are those of
    the operation record of the data model, [thread_id] being a 16-bit
    integer. *)
Record Operation : Type := {
  OpType : string;
  ClientID : string;
  Thread : Z;
  Endpoint : string;
  ObjPerOp : Z;
  Size : Z;
  Start : Z;
  FirstByte : option Z;
  End_ : Z;
  Err : string;
  File : string
}.

Definition Operations := list Operation.

Definition uint16 (x : Z) : Z := x mod 2 ^ 16.

Definition with_Thread (op : Operation) (t : Z) : Operation :=
  {| OpType := OpType op; ClientID := ClientID op; Thread := t;
     Endpoint := Endpoint op; ObjPerOp := ObjPerOp op; Size := Size op;
     Start := Start op; FirstByte := FirstByte op; End_ := End_ op;
     Err := Err op; File := File op |}.

Definition max_thread (o : Operations) : Z :=
  fold_right Z.max 0 (map Thread o).

(** Modelled from the spec: [Operations.OffsetThreads(n uint16) uint16]
    of [pkg/bench], missing from the sources.  Every [thread_id] of the
    log is offset by [n] (in [uint16] arithmetic) and the next offset is
    returned: [offset_next = max(thread_id) + 1]; a log without records
    leaves the running offset where it was. *)
Definition OffsetThreads (o : Operations) (n : Z) : Operations * Z :=
  let o' := map (fun op => with_Thread op (uint16 (Thread op + n))) o in
  (o', match o' with
       | [] => n
       | _ :: _ => uint16 (max_thread o' + 1)
       end).

(** Modelled from the spec: [Operations.SortByStartTime] of [pkg/bench],
    missing from the sources: a stable sort on [start]. *)
Fixpoint insert_by_start (x : Operation) (l : Operations) : Operations :=
  match l with
  | [] => [x]
  | y :: l' =>
      if Start x <=? Start y then x :: y :: l'
      else y :: insert_by_start x l'
  end.

Definition SortByStartTime (o : Operations) : Operations :=
  fold_right insert_by_start [] o.

(** [for _, ops := range logs { threads = ops.OffsetThreads(threads);
      allOps = append(allOps, ops...) }] *)
Fixpoint merge_loop (logs : list Operations) (threads : Z)
    (allOps : Operations) : Operations :=
  match logs with
  | [] => allOps
  | ops :: rest =>
      let '(ops', threads') := OffsetThreads ops threads in
      merge_loop rest threads' (allOps ++ ops')
  end.

(** The [switch len(downloaded)] of [runServerBenchmark] followed by
    [allOps.SortByStartTime()]. *)
Definition mergeDownloaded (downloaded : list Operations) : Operations :=
  let allOps :=
    match downloaded with
    | [] => []
    | [ops] => ops
    | _ => merge_loop downloaded 0 []
    end in
  SortByStartTime allOps.

Definition err_no_data : string := "基准测试文件中没有任何数据".

Definition msg_two_files : string := "必须提供两个或多个基准测试的数据文件".

(** The merging part of [mainMerge], on the logs read from its argument
    files: fewer than two arguments end the process, and [inr] is the
    error it returns for an empty union. *)
Definition mainMerge_ops (files : list Operations)
  : result (Operations + string) :=
  if (length files <=? 1)%nat then Fatal msg_two_files
  else
    let allOps := merge_loop files 0 [] in
    if (length allOps =? 0)%nat then Ok (inr err_no_data)
    else Ok (inl (SortByStartTime allOps)).

(** The logs as they stand when they are appended: log [k] after its
    call to [OffsetThreads] with the running offset. *)
Fixpoint offset_logs (logs : list Operations) (threads : Z)
    : list Operations :=
  match logs with
  | [] => []
  | ops :: rest =>
      let '(ops', threads') := OffsetThreads ops threads in
      ops' :: offset_logs rest threads'
  end.

(** The running offset before each log, without wrap-around: the number
    of thread ids used so far. *)
Definition threads_of (o : Operations) : Z :=
  match o with
  | [] => 0
  | _ :: _ => max_thread o + 1
  end.

Fixpoint running_offsets (logs : list Operations) (n : Z) : list Z :=
  match logs with
  | [] => []
  | ops :: rest =>
      n :: running_offsets rest (match ops with [] => n | _ => n + threads_of ops end)
  end.

Definition total_threads (logs : list Operations) : Z :=
  fold_right (fun o acc => threads_of o + acc) 0 logs.

Definition wf_log (o : Operations) : Prop :=
  Forall (fun op => 0 <= Thread op < 2 ^ 16) o.

(** No thread id occurs in two different logs. *)
Definition distinct_across (logs : list Operations) : Prop :=
  forall i j a b (oi oj : Operations),
    i <> j ->
    nth_error logs i = Some oi -> nth_error logs j = Some oj ->
    In a oi -> In b oj -> Thread a <> Thread b.

Definition sorted_by_start (o : Operations) : Prop :=
  Sorted (fun a b => Start a <= Start b) o.

(** Log [o] with every [thread_id] raised by [n], without wrap-around. *)
Definition shift (o : Operations) (n : Z) : Operations :=
  map (fun op => with_Thread op (Thread op + n)) o.

Definition mk_op (typ : string) (thread start finish : Z) : Operation :=
  {| OpType := typ; ClientID := ""; Thread := thread; Endpoint := "";
     ObjPerOp := 1; Size := 0; Start := start; FirstByte := None;
     End_ := finish; Err := ""; File := "" |}.

(** Two logs that together use more thread ids than 16 bits hold. *)
Definition wrap_logs : list Operations :=
  [ [mk_op "GET" 0 10 20; mk_op "GET" 65535 11 21];
    [mk_op "GET" 0 12 22] ].

(** Three logs with thread ids [0..1], [0..0] and [0..2]. *)
Definition small_logs : list Operations :=
  [ [mk_op "GET" 0 10 20; mk_op "GET" 1 14 21];
    [mk_op "GET" 0 12 22];
    [mk_op "GET" 2 11 23; mk_op "GET" 0 13 24] ].

End Log.

(** ** Comparing two runs (cmp command) *)

Module Compare.
Import Log.

(** Modelled from the spec: [Operations.IsMixed] of [pkg/bench], missing
    from the sources: a log is mixed when [op_type] varies. *)
Definition IsMixed (o : Operations) : bool :=
  match o with
  | [] => false
  | op0 :: _ => existsb (fun op => negb (String.eqb (OpType op) (OpType op0))) o
  end.

(** Modelled from the spec: [Operations.FilterByOp] of [pkg/bench],
    missing from the sources: the records of one op-type. *)
Definition FilterByOp (o : Operations) (typ : string) : Operations :=
  List.filter (fun op => String.eqb (OpType op) typ) o.

(** Modelled from the spec: [Operations.OpTypes] of [pkg/bench], missing
    from the sources: the op-types present in the log, each once. *)
Fixpoint OpTypes_from (seen : list string) (o : Operations) : list string :=
  match o with
  | [] => []
  | op :: rest =>
      if existsb (String.eqb (OpType op)) seen then OpTypes_from seen rest
      else OpType op :: OpTypes_from (OpType op :: seen) rest
  end.

Definition OpTypes (o : Operations) : list string := OpTypes_from [] o.

Definition msg_incomparable : string :=
  "无法将多个请求操作与单个请求操作进行比较.".

(** One call [bench.Compare(before, after, dur, allThreads)]. *)
Record compareCall : Type := {
  cc_typ : string;
  cc_before : Operations;
  cc_after : Operations;
  cc_dur : Duration;
  cc_allThreads : bool
}.

Section PrintCompare.
Variable Duration_String : Duration -> string.
Variable ParseDuration : string -> option Duration.
(** [Operations.Duration] of [pkg/bench]: the total duration of a log. *)
Variable Ops_Duration : Operations -> Duration.

(** The body of [for _, typ := range before.OpTypes()]. *)
Fixpoint compare_types (ctx : Context) (before after : Operations)
    (isMultiOp : bool) (types : list string) : result (list compareCall) :=
  match types with
  | [] => Ok []
  | typ :: rest =>
      let wantOp := ctx_String ctx "analyze.op" in
      if negb (String.eqb wantOp "") && negb (String.eqb wantOp typ) then
        compare_types ctx before after isMultiOp rest
      else
        let before' := FilterByOp before typ in
        let after' := FilterByOp after typ in
        bind_result
          (Analyze.analysisDur Duration_String ParseDuration ctx
             (Ops_Duration before'))
          (fun d =>
             bind_result (compare_types ctx before after isMultiOp rest)
               (fun calls =>
                  Ok ({| cc_typ := typ; cc_before := before';
                         cc_after := after'; cc_dur := d;
                         cc_allThreads := negb isMultiOp |} :: calls)))
  end.

(** [func printCompare(ctx *cli.Context, before, after bench.Operations)],
    as the list of comparisons it requests. *)
Definition printCompare (ctx : Context) (before after : Operations)
  : result (list compareCall) :=
  let isMultiOp := IsMixed before in
  if negb (Bool.eqb isMultiOp (IsMixed after)) then Fatal msg_incomparable
  else compare_types ctx before after isMultiOp (OpTypes before).
End PrintCompare.

(** The op-types the loop does not skip: all of them, or the one named
    by [analyze.op]. *)
Definition selected (ctx : Context) (typ : string) : bool :=
  let wantOp := ctx_String ctx "analyze.op" in
  String.eqb wantOp "" || String.eqb wantOp typ.

(** What each requested comparison is made of. *)
Definition call_ok (Duration_String : Duration -> string)
    (ParseDuration : string -> option Duration)
    (Ops_Duration : Operations -> Duration)
    (ctx : Context) (before after : Operations) (c : compareCall) : Prop :=
  cc_before c = FilterByOp before (cc_typ c) /\
  cc_after c = FilterByOp after (cc_typ c) /\
  Analyze.analysisDur Duration_String ParseDuration ctx
    (Ops_Duration (cc_before c)) = Ok (cc_dur c) /\
  cc_allThreads c = negb (IsMixed before).

(** A total duration for concrete logs: from the earliest start to the
    latest end. *)
Definition span (o : Operations) : Duration :=
  match o with
  | [] => 0
  | op :: rest =>
      fold_right Z.max (End_ op) (map End_ rest)
      - fold_right Z.min (Start op) (map Start rest)
  end.

(** A mixed run: GETs over 100 s, PUTs over an hour. *)
Definition mixed_before : Operations :=
  [ mk_op "GET" 0 0 (50 * Second);
    mk_op "PUT" 1 0 (1800 * Second);
    mk_op "GET" 0 (50 * Second) (100 * Second);
    mk_op "PUT" 1 (1800 * Second) (3600 * Second) ].

Definition mixed_after : Operations :=
  [ mk_op "GET" 0 0 (40 * Second);
    mk_op "PUT" 1 0 (1700 * Second);
    mk_op "GET" 0 (40 * Second) (90 * Second);
    mk_op "PUT" 1 (1700 * Second) (3500 * Second) ].

Definition ctx_cmp_all : Context := ctx_of "cmp" Forward.analyzeFlags [].

Definition ctx_cmp_get : Context :=
  ctx_of "cmp" Forward.analyzeFlags [("analyze.op", VString "GET")].

End Compare.

(** ** Running a benchmark: stand-alone, follower, coordinator (benchmark.go) *)

Module Bench.

Inductive benchmarkStage : Type :=
| stagePrepare | stageBenchmark | stageCleanup | stageDone | stageNotStarted.

Definition benchmarkStages : list benchmarkStage :=
  [stagePrepare; stageBenchmark; stageCleanup].

(** The fields of [bench.Common] (declared in [pkg/bench]) that
    [runBench] writes. *)
Record Common : Type := {
  Clear : bool;
  AutoTermDur : Duration;
  AutoTermScale : float64
}.

(** What the process does with the benchmark [b], in order. *)
Inductive action : Type :=
| AWaitStage (s : benchmarkStage)
| APrepare (c : Common)
| AStart (c : Common)
| AStageDone (s : benchmarkStage) (err : option string)
| AWriteFile
| ACleanup.

(** Errors met by a follower while it runs: a cancelled wait, a failed
    [Prepare] or [Start]. *)
Record clientWorld : Type := {
  wait_prepare_err : option string;
  prepare_err : option string;
  start_err : option string;
  wait_cleanup_err : option string
}.

Definition cleanup_wanted (ctx : Context) : bool :=
  negb (ctx_Bool ctx "keep-data") && negb (ctx_Bool ctx "noclear").

(** [func runClientBenchmark(ctx, b, cb) error] *)
Definition runClientBenchmark (ctx : Context) (c : Common) (w : clientWorld)
  : list action * option string :=
  match wait_prepare_err w with
  | Some e => ([AWaitStage stagePrepare], Some e)
  | None =>
    let t1 := [AWaitStage stagePrepare; APrepare c;
               AStageDone stagePrepare (prepare_err w)] in
    match prepare_err w with
    | Some e => (t1, Some e)
    | None =>
      let t2 := t1 ++ [AStart c; AStageDone stageBenchmark (start_err w)] in
      match start_err w with
      | Some e => (t2, Some e)
      | None =>
        let t3 := t2 ++ [AWriteFile; AWaitStage stageCleanup] in
        match wait_cleanup_err w with
        | Some e => (t3, Some e)
        | None =>
          (t3 ++ (if cleanup_wanted ctx then [ACleanup] else [])
              ++ [AStageDone stageCleanup None], None)
        end
      end
    end
  end.

(** The stages a follower reports done, in order. *)
Fixpoint stages_done (trace : list action) : list benchmarkStage :=
  match trace with
  | [] => []
  | AStageDone s _ :: rest => s :: stages_done rest
  | _ :: rest => stages_done rest
  end.

Inductive mode : Type := Follower | Coordinator | Standalone.

Definition msg_prepare : string := "准备服务端时出错".
Definition msg_remote : string := "运行远程基准测试时出错".

Section RunBench.
(** [x / 100] on [float64]. *)
Variable float64_div100 : float64 -> float64.

(** The configuration after
    [c.Clear = !ctx.Bool("noclear"); if ctx.Bool("autoterm") {...}]. *)
Definition standaloneCommon (ctx : Context) (c : Common) : Common :=
  let c := {| Clear := negb (ctx_Bool ctx "noclear");
              AutoTermDur := AutoTermDur c;
              AutoTermScale := AutoTermScale c |} in
  if ctx_Bool ctx "autoterm" then
    {| Clear := Clear c;
       AutoTermDur := ctx_Duration ctx "autoterm.dur";
       AutoTermScale := float64_div100 (ctx_Float64 ctx "autoterm.pct") |}
  else c.

(** The branch [runBench] takes: [ab] tells whether [activeBenchmark]
    is set; [runServerBenchmark] reports [done] exactly when the
    [warp-client] flag is not empty. *)
Definition runBench_mode (ctx : Context) (ab : bool) : mode :=
  if ab then Follower
  else if negb (String.eqb (ctx_String ctx "warp-client") "") then Coordinator
  else Standalone.

(** [func runBench(ctx *cli.Context, b bench.Benchmark) error], as the
    calls made on [b].  [server_err] is the error of
    [runServerBenchmark] in coordinator mode, [local_prepare_err] that
    of [b.Prepare] in stand-alone mode. *)
Definition runBench (ctx : Context) (ab : bool) (c : Common)
    (w : clientWorld) (server_err local_prepare_err : option string)
  : result (list action * option string) :=
  match runBench_mode ctx ab with
  | Follower => Ok (runClientBenchmark ctx c w)
  | Coordinator =>
      match server_err with
      | Some _ => Fatal msg_remote
      | None => Ok ([], None)
      end
  | Standalone =>
      let c := standaloneCommon ctx c in
      match local_prepare_err with
      | Some _ => Fatal msg_prepare
      | None =>
          Ok ([APrepare c; AStart c; AWriteFile]
                ++ (if cleanup_wanted ctx then [ACleanup] else []), None)
      end
  end.
End RunBench.

(** The configuration handed to [b.Prepare] and [b.Start]. *)
Definition action_common (a : action) : option Common :=
  match a with
  | APrepare c | AStart c => Some c
  | _ => None
  end.

(** The configuration the commands build ([bench.Common{Client: ...,
    Concurrency: ..., ...}] in [mainGet], [mainList], ...): the
    auto-termination fields are left at their zero values. *)
Definition commandCommon : Common :=
  {| Clear := false; AutoTermDur := 0; AutoTermScale := 0 |}.

(** Every configuration handed to [b.Prepare] or [b.Start] in a trace
    has the auto-termination settings of [c]. *)
Definition autoterm_as (c : Common) (trace : list action) : Prop :=
  forall a c', In a trace -> action_common a = Some c' ->
    AutoTermDur c' = AutoTermDur c /\ AutoTermScale c' = AutoTermScale c.

(** [--autoterm --autoterm.dur=15s --autoterm.pct=5], alone and with
    [--warp-client]; 4617315517961601024 is the bit pattern of 5.0. *)
Definition ctx_autoterm : Context :=
  ctx_of "get" Forward.benchFlags
    [ ("autoterm", VBool true);
      ("autoterm.dur", VDuration (15 * Second));
      ("autoterm.pct", VFloat64 4617315517961601024) ].

Definition ctx_autoterm_remote : Context :=
  ctx_of "get" Forward.benchFlags
    [ ("autoterm", VBool true);
      ("autoterm.dur", VDuration (15 * Second));
      ("autoterm.pct", VFloat64 4617315517961601024);
      ("warp-client", VString "h1,h2") ].

Definition quiet_world : clientWorld :=
  {| wait_prepare_err := None; prepare_err := None;
     start_err := None; wait_cleanup_err := None |}.

End Bench.

(** ** The coordinator's run over its followers (benchserver.go) *)

Module Coordinator.
Import Bench Log.

Inductive serverRequestOp : Type :=
| serverReqDisconnect | serverReqBenchmark | serverReqStartStage
| serverReqStageStatus | serverReqSendOps.

Record benchmarkPayload : Type := {
  Command : string;
  Args : list string;
  Flags : gmap string string
}.

Definition noPayload : benchmarkPayload :=
  {| Command := ""; Args := []; Flags := ∅ |}.

(** The zero [time.Time] (January 1, year 1, UTC) in nanoseconds since
    the Unix epoch. *)
Definition zeroTime : Connect.Time := -62135596800 * Second.

Record serverRequest : Type := {
  Operation : serverRequestOp;
  Benchmark : benchmarkPayload;
  Stage : benchmarkStage;
  StartTime : Connect.Time
}.

(** Modelled from the spec: the [clientReply] frame, declared outside the
    sources ([ClientReply { err?, time, stage_info?: {finished, err?},
    ops? }]); here the fields the coordinator reads after the handshake. *)
Record clientReply : Type := {
  reply_Err : string;
  reply_Finished : bool;
  reply_Ops : Operations
}.

(** What [roundTrip] hands back.  [RtErr] is its error return: writing or
    reading failed and so did reconnecting, after which [connect] has set
    [c.ws[i] = nil]. *)
Inductive rtOutcome : Type :=
| RtErr (e : string)
| RtReply (r : clientReply).

(** A follower, as the coordinator experiences it: its answer to each
    kind of request, and to the successive status polls of a stage. *)
Record follower : Type := {
  on_benchmark : rtOutcome;
  on_start : benchmarkStage -> rtOutcome;
  on_status : benchmarkStage -> list rtOutcome;
  on_sendops : rtOutcome
}.

Inductive info : Type :=
| InfoConnected
| InfoStageRequested (s : benchmarkStage)
| InfoStageFinished (s : benchmarkStage)
| InfoOpsDownloaded
| InfoDisconnecting.

(** What happens on one connection. *)
Inductive event : Type :=
| EvRoundTrip (req : serverRequest) (out : rtOutcome)
| EvInfo (i : info)
| EvErrLn (msg : string)
| EvDisconnect.

(** Computations that may not return ([None]) or end the process
    ([Some (Fatal _)]). *)
Definition M (A : Type) : Type := option (result A).
Definition ret {A} (a : A) : M A := Some (Ok a).
Definition fatal {A} (msg : string) : M A := Some (Fatal msg).
Definition bindM {A B} (m : M A) (k : A -> M B) : M B :=
  match m with
  | None => None
  | Some (Fatal msg) => Some (Fatal msg)
  | Some (Ok a) => k a
  end.
Notation "x <- m ;; k" := (bindM m (fun x => k))
  (at level 100, m at next level, right associativity).

(** One goroutine's work on its own slot [c.ws[i]]: the new value of the
    slot ([true] when a connection is held) and the events, in order. *)
Definition hstep : Type := follower -> bool -> M (bool * list event).

Definition msg_send : string := "不能发送基准测试数据给 warp 客户端".
Definition msg_client : string := "从 warp 客户端接收到了错误信息".
Definition msg_stage_start : string := "阶段启动失败.".
Definition msg_stage : string := "阶段失败.".
Definition msg_prepare_failed : string := "准备失败".

Definition reply_ok (r : clientReply) : bool := String.eqb (reply_Err r) "".

(** The body of [for i := range conns.hosts] that sends the benchmark
    request. *)
Definition sendBenchmark (req : serverRequest) : hstep := fun f _ =>
  match on_benchmark f with
  | RtErr _ => fatal msg_send
  | RtReply r =>
      if reply_ok r then
        ret (true, [EvRoundTrip req (RtReply r); EvInfo InfoConnected])
      else fatal msg_client
  end.

Definition startReq (stage : benchmarkStage) (t : Connect.Time) : serverRequest :=
  {| Operation := serverReqStartStage; Benchmark := noPayload;
     Stage := stage; StartTime := t |}.

(** The goroutine of [startStageAll], with [startStage] inlined. *)
Definition startStage (stage : benchmarkStage) (t : Connect.Time)
    (failOnErr : bool) : hstep := fun f conn =>
  if negb conn then ret (false, [])
  else
    let req := startReq stage t in
    match on_start f stage with
    | RtErr e =>
        if failOnErr then fatal msg_stage_start
        else ret (false, [EvRoundTrip req (RtErr e); EvErrLn e])
    | RtReply r =>
        if reply_ok r then
          ret (true, [EvRoundTrip req (RtReply r);
                      EvInfo (InfoStageRequested stage)])
        else if failOnErr then fatal msg_stage_start
        else ret (false, [EvRoundTrip req (RtReply r);
                          EvErrLn (reply_Err r); EvErrLn (reply_Err r)])
    end.

Definition statusReq (stage : benchmarkStage) : serverRequest :=
  {| Operation := serverReqStageStatus; Benchmark := noPayload;
     Stage := stage; StartTime := zeroTime |}.

(** The polling loop of [waitForStage]'s goroutine over the follower's
    successive answers; it does not return while the follower keeps
    answering "not finished". *)
Fixpoint poll (stage : benchmarkStage) (failOnErr : bool)
    (answers : list rtOutcome) (evs : list event) : M (bool * list event) :=
  let req := statusReq stage in
  match answers with
  | [] => None
  | RtErr e :: _ =>
      (* [disconnect(i)] finds [c.ws[i] == nil] *)
      if failOnErr then fatal msg_stage
      else ret (false, evs ++ [EvRoundTrip req (RtErr e); EvErrLn e])
  | RtReply r :: rest =>
      if negb (reply_ok r) then
        if failOnErr then fatal msg_stage
        else ret (false, evs ++ [EvRoundTrip req (RtReply r);
                                 EvInfo InfoDisconnecting; EvDisconnect;
                                 EvErrLn (reply_Err r)])
      else if reply_Finished r then
        ret (true, evs ++ [EvRoundTrip req (RtReply r);
                           EvInfo (InfoStageFinished stage)])
      else poll stage failOnErr rest (evs ++ [EvRoundTrip req (RtReply r)])
  end.

Definition waitForStage (stage : benchmarkStage) (failOnErr : bool) : hstep :=
  fun f conn =>
    if negb conn then ret (false, [])
    else poll stage failOnErr (on_status f stage) [].

Definition sendOpsReq : serverRequest :=
  {| Operation := serverReqSendOps; Benchmark := noPayload;
     Stage := stageNotStarted; StartTime := zeroTime |}.

(** The goroutine of [downloadOps]: slot, events, and the log appended
    to [res], if any. *)
Definition downloadOne (f : follower) (conn : bool)
  : bool * list event * option Operations :=
  if negb conn then (false, [], None)
  else
    match on_sendops f with
    | RtErr e => (false, [EvRoundTrip sendOpsReq (RtErr e)], None)
    | RtReply r =>
        if reply_ok r then
          (true, [EvRoundTrip sendOpsReq (RtReply r); EvInfo InfoOpsDownloaded],
           Some (reply_Ops r))
        else
          (true, [EvRoundTrip sendOpsReq (RtReply r); EvErrLn (reply_Err r)],
           None)
    end.

Definition downloadStep : hstep := fun f conn => ret (fst (downloadOne f conn)).

(** [closeAll], run when [runServerBenchmark] returns. *)
Definition closeStep : hstep := fun _ conn =>
  if conn then ret (false, [EvDisconnect]) else ret (false, []).

(** The coordinator's connections: the slots [c.ws] and, per phase, the
    events of each connection. *)
Record conns : Type := {
  ws : list bool;
  phases : list (list (list event))
}.

Definition is_fatal {A} (m : M A) : option string :=
  match m with Some (Fatal msg) => Some msg | _ => None end.

Fixpoint first_fatal {A} (ms : list (M A)) : option string :=
  match ms with
  | [] => None
  | m :: rest =>
      match is_fatal m with
      | Some msg => Some msg
      | None => first_fatal rest
      end
  end.

Fixpoint all_done {A} (ms : list (M A)) : option (list A) :=
  match ms with
  | [] => Some []
  | Some (Ok a) :: rest =>
      match all_done rest with
      | Some l => Some (a :: l)
      | None => None
      end
  | _ :: _ => None
  end.

(** One goroutine per follower, then [wg.Wait()].  A [fatalIf] in any
    goroutine ends the process whatever the others do; otherwise the
    phase returns once every goroutine has. *)
Definition par_phase (step : hstep) (fs : list follower) (c : conns) : M conns :=
  let rs := zip_with step fs (ws c) in
  match first_fatal rs with
  | Some msg => fatal msg
  | None =>
      match all_done rs with
      | None => None
      | Some outs =>
          ret {| ws := map fst outs; phases := phases c ++ [map snd outs] |}
      end
  end.

(** [downloadOps]: the logs received, in the order of the followers (the
    goroutines append under a mutex, in the order they finish). *)
Definition downloadOps (fs : list follower) (c : conns) : list Operations :=
  omap (fun x => x) (zip_with (fun f conn => snd (downloadOne f conn)) fs (ws c)).

(** [newConnections]: one empty slot per host. *)
Definition init_conns (fs : list follower) : conns :=
  {| ws := map (fun _ => false) fs; phases := [] |}.

Record world : Type := {
  followers : list follower;
  prof_err : option string;
  now_prepare : Connect.Time;
  now_benchmark : Connect.Time;
  now_cleanup : Connect.Time
}.

Definition benchmarkWait : Duration := 3 * Second.

Record summary : Type := {
  final : conns;
  downloaded : list Operations;
  allOps : Operations
}.

Inductive serverResult : Type :=
| NoClients
| ServerErr (e : string)
| ServerDone (s : summary).

Definition err_no_hosts : string := "no hosts".

Section RunServer.
Variable Duration_String : Duration -> string.
Variable Sprint_float64 : float64 -> string.

Definition benchmarkReq (ctx : Context) (flags : gmap string string)
  : serverRequest :=
  {| Operation := serverReqBenchmark;
     Benchmark := {| Command := ctx_Command_Name ctx; Args := ctx_Args ctx;
                     Flags := flags |};
     Stage := stageNotStarted; StartTime := zeroTime |}.

(** [func runServerBenchmark(ctx *cli.Context) (bool, error)] *)
Definition runServerBenchmark (ctx : Context) (w : world) : M serverResult :=
  if String.eqb (ctx_String ctx "warp-client") "" then ret NoClients
  else
    let fs := followers w in
    if (length fs =? 0)%nat then ret (ServerErr err_no_hosts)
    else
      match Forward.forwardedFlags Duration_String Sprint_float64 ctx with
      | inr e => ret (ServerErr e)
      | inl flags =>
          c <- par_phase (sendBenchmark (benchmarkReq ctx flags)) fs
                 (init_conns fs) ;;
          c <- par_phase (startStage stagePrepare
                            (Connect.Time_Add (now_prepare w) Second) true) fs c ;;
          c <- par_phase (waitForStage stagePrepare true) fs c ;;
          match prof_err w with
          | Some e => ret (ServerErr e)
          | None =>
              c <- par_phase (startStage stageBenchmark
                                (Connect.Time_Add (now_benchmark w) benchmarkWait)
                                false) fs c ;;
              c <- par_phase (waitForStage stageBenchmark false) fs c ;;
              let got := downloadOps fs c in
              c <- par_phase downloadStep fs c ;;
              let all := mergeDownloaded got in
              c <- par_phase (startStage stageCleanup (now_cleanup w) false) fs c ;;
              c <- par_phase (waitForStage stageCleanup false) fs c ;;
              c <- par_phase closeStep fs c ;;
              ret (ServerDone {| final := c; downloaded := got; allOps := all |})
          end
      end.
End RunServer.

(** The steps of a complete run, in program order: up to the end of the
    Benchmark stage, and from the download on. *)
Definition steps_run (req : serverRequest) (w : world) : list hstep :=
  [ sendBenchmark req;
    startStage stagePrepare (Connect.Time_Add (now_prepare w) Second) true;
    waitForStage stagePrepare true;
    startStage stageBenchmark (Connect.Time_Add (now_benchmark w) benchmarkWait) false;
    waitForStage stageBenchmark false ].

Definition steps_collect (w : world) : list hstep :=
  [ downloadStep;
    startStage stageCleanup (now_cleanup w) false;
    waitForStage stageCleanup false;
    closeStep ].

Definition steps (req : serverRequest) (w : world) : list hstep :=
  steps_run req w ++ steps_collect w.

(** What one follower's connection goes through when the steps are run
    on it alone. *)
Fixpoint host_run (ss : list hstep) (f : follower) (conn : bool)
    (evs : list event) : M (bool * list event) :=
  match ss with
  | [] => ret (conn, evs)
  | s :: rest =>
      r <- s f conn ;;
      host_run rest f (fst r) (evs ++ snd r)
  end.

(** The events of connection [i], over all phases. *)
Definition host_trace (i : nat) (c : conns) : list event :=
  concat (map (fun blk => nth i blk []) (phases c)).

(** All events, phase after phase. *)
Definition global_trace (c : conns) : list event :=
  concat (map (@concat event) (phases c)).

(** *** The stage protocol, as an automaton over one connection's events *)

Inductive pstate : Type :=
| PNew
| PConnected
| PRunning (s : benchmarkStage)
| PFinished (s : benchmarkStage)
| PCollected
| PDropped
| PClosed.

Definition stage_eqb (a b : benchmarkStage) : bool :=
  match a, b with
  | stagePrepare, stagePrepare | stageBenchmark, stageBenchmark
  | stageCleanup, stageCleanup | stageDone, stageDone
  | stageNotStarted, stageNotStarted => true
  | _, _ => false
  end.

(** The stage that may be requested next. *)
Definition next_stage (st : pstate) : option benchmarkStage :=
  match st with
  | PConnected => Some stagePrepare
  | PFinished stagePrepare => Some stageBenchmark
  | PCollected => Some stageCleanup
  | _ => None
  end.

Definition rt_ok (out : rtOutcome) : bool :=
  match out with RtReply r => reply_ok r | RtErr _ => false end.

Definition rt_finished (out : rtOutcome) : bool :=
  match out with RtReply r => reply_Finished r | RtErr _ => false end.

Definition pstep (st : pstate) (ev : event) : option pstate :=
  match ev with
  | EvInfo _ | EvErrLn _ => Some st
  | EvDisconnect =>
      match st with
      | PDropped => Some PDropped
      | PClosed => None
      | _ => Some PClosed
      end
  | EvRoundTrip req out =>
      match Operation req, st with
      | serverReqBenchmark, PNew =>
          Some (if rt_ok out then PConnected else PDropped)
      | serverReqStartStage, _ =>
          match next_stage st with
          | Some s =>
              if stage_eqb s (Stage req) then
                Some (if rt_ok out then PRunning s else PDropped)
              else None
          | None => None
          end
      | serverReqStageStatus, PRunning s =>
          if stage_eqb s (Stage req) then
            Some (if rt_ok out then
                    if rt_finished out then PFinished s else PRunning s
                  else PDropped)
          else None
      | serverReqSendOps, PFinished stageBenchmark =>
          Some (match out with RtErr _ => PDropped | RtReply _ => PCollected end)
      | _, _ => None
      end
  end.

Fixpoint prun (st : pstate) (evs : list event) : option pstate :=
  match evs with
  | [] => Some st
  | ev :: rest =>
      match pstep st ev with
      | Some st' => prun st' rest
      | None => None
      end
  end.

(** The stages requested on a connection, in order. *)
Fixpoint stages_requested (evs : list event) : list benchmarkStage :=
  match evs with
  | [] => []
  | EvRoundTrip req _ :: rest =>
      match Operation req with
      | serverReqStartStage => Stage req :: stages_requested rest
      | _ => stages_requested rest
      end
  | _ :: rest => stages_requested rest
  end.

(** The place of a request in the run: connect, then start and wait of
    each stage, the download coming between Benchmark and Cleanup. *)
Definition rank (req : serverRequest) : nat :=
  match Operation req, Stage req with
  | serverReqBenchmark, _ => 0
  | serverReqStartStage, stagePrepare => 1
  | serverReqStageStatus, stagePrepare => 2
  | serverReqStartStage, stageBenchmark => 3
  | serverReqStageStatus, stageBenchmark => 4
  | serverReqSendOps, _ => 5
  | serverReqStartStage, stageCleanup => 6
  | serverReqStageStatus, stageCleanup => 7
  | _, _ => 8
  end%nat.

Fixpoint ranks (evs : list event) : list nat :=
  match evs with
  | [] => []
  | EvRoundTrip req _ :: rest => rank req :: ranks rest
  | _ :: rest => ranks rest
  end.

(** The outcome of a stage on one follower, read off its script. *)
Inductive verdict : Type := VFinished | VFailed | VStuck.

Fixpoint poll_verdict (answers : list rtOutcome) : verdict :=
  match answers with
  | [] => VStuck
  | RtErr _ :: _ => VFailed
  | RtReply r :: rest =>
      if negb (reply_ok r) then VFailed
      else if reply_Finished r then VFinished
      else poll_verdict rest
  end.

Definition stage_verdict (f : follower) (s : benchmarkStage) : verdict :=
  if rt_ok (on_start f s) then poll_verdict (on_status f s) else VFailed.

Definition is_failed (v : verdict) : bool :=
  match v with VFailed => true | _ => false end.
Definition is_finished (v : verdict) : bool :=
  match v with VFinished => true | _ => false end.
Definition is_stuck (v : verdict) : bool :=
  match v with VStuck => true | _ => false end.

Definition is_errln (ev : event) : bool :=
  match ev with EvErrLn _ => true | _ => false end.

Definition is_sendops (ev : event) : bool :=
  match ev with
  | EvRoundTrip req _ =>
      match Operation req with serverReqSendOps => true | _ => false end
  | _ => false
  end.

Definition is_cleanup_finished (ev : event) : bool :=
  match ev with
  | EvInfo (InfoStageFinished stageCleanup) => true
  | _ => false
  end.

(** The phases of a run, one after the other. *)
Fixpoint run_steps (ss : list hstep) (fs : list follower) (c : conns) : M conns :=
  match ss with
  | [] => ret c
  | s :: rest => c' <- par_phase s fs c ;; run_steps rest fs c'
  end.

(** The log [downloadOps] receives from a follower: none unless the
    follower finished the Benchmark stage and answered [send_ops] without
    an error. *)
Definition collected (f : follower) : option Operations :=
  if is_finished (stage_verdict f stageBenchmark) then
    match on_sendops f with
    | RtReply r => if reply_ok r then Some (reply_Ops r) else None
    | RtErr _ => None
    end
  else None.

Definition answers_sendops (f : follower) : bool :=
  match on_sendops f with RtReply _ => true | RtErr _ => false end.

(** A follower that completes every stage after [polls] unfinished
    answers, and one whose benchmark stage reports an error. *)
Definition okReply (finished : bool) (ops : Operations) : rtOutcome :=
  RtReply {| reply_Err := ""; reply_Finished := finished; reply_Ops := ops |}.

Definition healthy (polls : nat) (ops : Operations) : follower :=
  {| on_benchmark := okReply false [];
     on_start := fun _ => okReply false [];
     on_status := fun _ => repeat (okReply false []) polls ++ [okReply true []];
     on_sendops := okReply false ops |}.

Definition failing_benchmark (ops : Operations) : follower :=
  {| on_benchmark := okReply false [];
     on_start := fun _ => okReply false [];
     on_status := fun s =>
       match s with
       | stageBenchmark =>
           [okReply false [];
            RtReply {| reply_Err := "bucket gone"; reply_Finished := false;
                       reply_Ops := [] |}]
       | _ => [okReply true []]
       end;
     on_sendops := okReply false ops |}.

Definition lost_in_benchmark (ops : Operations) : follower :=
  {| on_benchmark := okReply false [];
     on_start := fun _ => okReply false [];
     on_status := fun s =>
       match s with
       | stageBenchmark => [okReply false []; RtErr "connection reset"]
       | _ => [okReply true []]
       end;
     on_sendops := okReply false ops |}.

Definition failing_prepare : follower :=
  {| on_benchmark := okReply false [];
     on_start := fun _ => okReply false [];
     on_status := fun _ => [RtErr "connection reset"];
     on_sendops := okReply false [] |}.

Definition world_of (fs : list follower) : world :=
  {| followers := fs; prof_err := None;
     now_prepare := 1793000000 * Second;
     now_benchmark := 1793000060 * Second;
     now_cleanup := 1793000400 * Second |}.

Definition ctx_remote : Context :=
  ctx_of "get" (Forward.benchFlags ++ Forward.analyzeFlags)
    [ ("duration", VDuration Minute);
      ("warp-client", VString "h1,h2,h3") ].

(** The events of the polling loop of a stage, read off the follower's
    answers (up to and including the answer that ends the loop). *)
Fixpoint poll_events (stage : benchmarkStage) (answers : list rtOutcome)
    : list event :=
  match answers with
  | [] => []
  | RtErr e :: _ => [EvRoundTrip (statusReq stage) (RtErr e); EvErrLn e]
  | RtReply r :: rest =>
      if negb (reply_ok r) then
        [EvRoundTrip (statusReq stage) (RtReply r);
         EvInfo InfoDisconnecting; EvDisconnect; EvErrLn (reply_Err r)]
      else if reply_Finished r then
        [EvRoundTrip (statusReq stage) (RtReply r);
         EvInfo (InfoStageFinished stage)]
      else EvRoundTrip (statusReq stage) (RtReply r) :: poll_events stage rest
  end.








(** A connection lost or failed during the Benchmark stage: the failure
    is logged, the connection dropped, Cleanup never requested and
    [send_ops] never sent, so that no log is collected from it. *)
Definition dropped_in_benchmark (f : follower) (evs : list event) : Prop :=
  existsb is_errln evs = true /\
  existsb is_sendops evs = false /\
  stages_requested evs = [stagePrepare; stageBenchmark] /\
  prun PNew evs = Some PDropped /\
  collected f = None.

(** A connection taken through the three stages to the end. *)
Definition completed (evs : list event) : Prop :=
  stages_requested evs = benchmarkStages /\
  existsb is_sendops evs = true /\
  existsb is_cleanup_finished evs = true /\
  prun PNew evs = Some PClosed.

(** The follower answers the benchmark request, completes Prepare, and
    never leaves a poll unanswered for ever. *)
Definition responsive (f : follower) : Prop :=
  rt_ok (on_benchmark f) = true /\
  stage_verdict f stagePrepare = VFinished /\
  forall s, stage_verdict f s <> VStuck.

(** Three followers, the second of which reports an error during the
    Benchmark stage. *)
Definition example_world : world :=
  world_of
    [ healthy 2 [mk_op "GET" 0 10 20; mk_op "GET" 1 11 21];
      failing_benchmark [mk_op "GET" 0 12 22];
      healthy 0 [mk_op "GET" 0 13 23] ].

Definition example_flags : gmap string string := <["duration" := "1m0s"]> ∅.

Definition example_summary : summary :=
  match runServerBenchmark Analyze.String_hms (fun _ => "") ctx_remote
          example_world with
  | Some (Ok (ServerDone s)) => s
  | _ => {| final := init_conns []; downloaded := []; allOps := [] |}
  end.

End Coordinator.


(** ** The coordinator's connection table (benchserver.go) *)

Module Connections.
Import Handshake Connect.

(** [type connections struct]: the hosts, one slot per host ([true] when
    [c.ws[i]] holds a connection) and the server info sent on connecting. *)
Record connections : Type := {
  hosts : list string;
  ws : list bool;
  si : serverInfo
}.

Definition set_ws (c : connections) (l : list bool) : connections :=
  {| hosts := hosts c; ws := l; si := si c |}.

(** A call that returns, panics (an index out of range), or is still in
    its loop when the script of observations ends. *)
Inductive run (A : Type) : Type :=
| Returns (a : A)
| Panics
| Pending.
Arguments Returns {A} a.
Arguments Panics {A}.
Arguments Pending {A}.

(** [func newConnections(hosts []string) *connections]; [None] where
    [pRandASCII] panics. *)
Definition newConnections (seed : RandASCII.seed8) (hs : list string)
  : option connections :=
  match RandASCII.pRandASCII seed 20 with
  | None => None
  | Some id =>
      Some {| hosts := hs;
              ws := replicate (length hs) false;
              si := {| ID := id; Secret := "";
                       Version := warpServerVersion; connected := false |} |}
  end.

(** [serverRequest{Operation: serverReqDisconnect}] *)
Definition disconnectReq : Coordinator.serverRequest :=
  {| Coordinator.Operation := Coordinator.serverReqDisconnect;
     Coordinator.Benchmark := Coordinator.noPayload;
     Coordinator.Stage := Bench.stageNotStarted;
     Coordinator.StartTime := Coordinator.zeroTime |}.

(** What the table's methods do besides updating the slots. *)
Inductive wire : Type :=
| WriteJSON (i : nat) (req : Coordinator.serverRequest)
| Close (i : nat)
| InfoDisconnect (i : nat)
| ErrLn (e : string).

(** [func (c *connections) closeAll()]: the loop at index [i], with [n]
    slots still to visit. *)
Fixpoint closeAll_from (n i : nat) (c : connections)
  : connections * list wire :=
  match n with
  | O => (c, [])
  | S n' =>
      match ws c !! i with
      | Some true =>
          let r := closeAll_from n' (S i) (set_ws c (<[i := false]> (ws c))) in
          (fst r, WriteJSON i disconnectReq :: Close i :: snd r)
      | _ => closeAll_from n' (S i) c
      end
  end.

Definition closeAll (c : connections) : connections * list wire :=
  closeAll_from (length (ws c)) 0 c.

(** [func (c *connections) disconnect(i int)] *)
Definition disconnect (i : nat) (c : connections)
  : run (connections * list wire) :=
  match ws c !! i with
  | None => Panics
  | Some false => Returns (c, [])
  | Some true =>
      Returns (set_ws c (<[i := false]> (ws c)),
               [InfoDisconnect i; WriteJSON i disconnectReq; Close i])
  end.

(** What [connect(i)] leaves in the table: the new connection when a try
    succeeds, [nil] after the fourth failed try. *)
Definition connect_at (i : nat) (atts : nat -> attempt) (c : connections)
  : run (connections * option connError) :=
  match hosts c !! i, ws c !! i with
  | Some host, Some _ =>
      match Connect.connect host atts with
      | Some (None, _) => Returns (set_ws c (<[i := true]> (ws c)), None)
      | Some (Some e, _) => Returns (set_ws c (<[i := false]> (ws c)), Some e)
      | None => Pending
      end
  | _, _ => Panics
  end.

(** The error [roundTrip] returns: that of the first [connect], or that
    of [WriteJSON]/[ReadJSON] when reconnecting failed as well. *)
Inductive rtError : Type :=
| ErrConnect (e : connError)
| ErrIO (e : string).

(** One pass through the loop of [roundTrip]: what writing and reading
    give and, when one fails, what the reconnection observes. *)
Inductive pass : Type :=
| WriteFails (e : string) (reconnect : nat -> attempt)
| ReadFails (e : string) (reconnect : nat -> attempt)
| Replies (r : Coordinator.clientReply).

Fixpoint roundTrip_loop (i : nat) (req : Coordinator.serverRequest)
    (script : list pass) (c : connections) (log : list wire)
  : run (connections * (rtError + Coordinator.clientReply) * list wire) :=
  match script with
  | [] => Pending
  | WriteFails e atts :: rest =>
      let log := log ++ [WriteJSON i req; ErrLn e] in
      match connect_at i atts c with
      | Returns (c', None) => roundTrip_loop i req rest c' log
      | Returns (c', Some _) => Returns (c', inl (ErrIO e), log)
      | Panics => Panics
      | Pending => Pending
      end
  | ReadFails e atts :: rest =>
      let log := log ++ [WriteJSON i req; ErrLn e] in
      match connect_at i atts c with
      | Returns (c', None) => roundTrip_loop i req rest c' log
      | Returns (c', Some _) => Returns (c', inl (ErrIO e), log)
      | Panics => Panics
      | Pending => Pending
      end
  | Replies r :: _ => Returns (c, inr r, log ++ [WriteJSON i req])
  end.

(** [func (c *connections) roundTrip(i int, req serverRequest)], which
    returns a reply or an error; [first] is what the initial [connect]
    observes when the slot is empty.  The log holds the requests written
    and the errors printed by [roundTrip] itself. *)
Definition roundTrip (i : nat) (req : Coordinator.serverRequest)
    (first : nat -> attempt) (script : list pass) (c : connections)
  : run (connections * (rtError + Coordinator.clientReply) * list wire) :=
  match ws c !! i with
  | None => Panics
  | Some true => roundTrip_loop i req script c []
  | Some false =>
      match connect_at i first c with
      | Returns (c', None) => roundTrip_loop i req script c' []
      | Returns (c', Some e) => Returns (c', inl (ErrConnect e), [])
      | Panics => Panics
      | Pending => Pending
      end
  end.

(** What closing slot [i] puts on the wire when the slot holds a
    connection ([b]). *)
Definition close_frames (i : nat) (b : bool) : list wire :=
  if b then [WriteJSON i disconnectReq; Close i] else [].

(** Whether [roundTrip] handed back a reply. *)
Definition is_reply (out : rtError + Coordinator.clientReply) : bool :=
  match out with inr _ => true | inl _ => false end.



(** An attempt that fails at dialling, and a table of three hosts the
    second of which is connected. *)
Definition refused : attempt :=
  {| dial_err := Some "connection refused";
     sent := 0; write_err := None; read_err := None;
     resp := {| reply_Err := ""; reply_Time := 0 |};
     now_roundtrip := 0; now_delta := 0 |}.

Definition table_example : connections :=
  {| hosts := ["h1"; "h2:7000"; "h3"];
     ws := [false; true; false];
     si := {| ID := "coordinator"; Secret := "";
              Version := warpServerVersion; connected := false |} |}.

End Connections.

(** ** Generator options (pkg/generator/options.go) *)

Module Generator.

(** [type Options struct]: the fields the option functions of this file
    read or write ([src], [csv] and [random] are set by other files). *)
Record Options : Type := {
  totalSize : Z;
  randSize : bool;
  randomPrefix : Z
}.

(** [type Option func(o *Options) error]: the error and the options as
    the call leaves them. *)
Definition Option_ : Type := Options -> option string * Options.

Definition err_size : string := "WithSize: 大小必须 > 0".
Definition err_size_random : string :=
  "WithSize: 随机对象的大小至少需要 256 个字节".
Definition err_random : string :=
  "WithRandomSize: 随机对象的大小至少需要 256 个字节".
Definition err_prefix : string := "WithPrefixSize: 大小必须 >= 0 和 <= 16".

(** [func defaultOptions() Options] *)
Definition defaultOptions : Options :=
  {| totalSize := Z.shiftl 1 20; randSize := false; randomPrefix := 0 |}.

(** [func WithSize(n int64) Option] *)
Definition WithSize (n : Z) : Option_ := fun o =>
  if n <=? 0 then (Some err_size, o)
  else if randSize o && (totalSize o <? 256) then (Some err_size_random, o)
  else (None, {| totalSize := n; randSize := randSize o;
                 randomPrefix := randomPrefix o |}).

(** [func WithRandomSize(b bool) Option] *)
Definition WithRandomSize (b : bool) : Option_ := fun o =>
  if (0 <? totalSize o) && (totalSize o <? 256) then (Some err_random, o)
  else (None, {| totalSize := totalSize o; randSize := b;
                 randomPrefix := randomPrefix o |}).

(** [func WithPrefixSize(n int) Option] *)
Definition WithPrefixSize (n : Z) : Option_ := fun o =>
  if n <? 0 then (Some err_prefix, o)
  else if 16 <? n then (Some err_prefix, o)
  else (None, {| totalSize := totalSize o; randSize := randSize o;
                 randomPrefix := n |}).

Section GetSize.
(** [GetExpRandSize(rng, max)], declared in another file of the package;
    [R] is the state of [*rand.Rand]. *)
Variable R : Type.
Variable GetExpRandSize : R -> Z -> Z.

(** [func (o Options) getSize(rng *rand.Rand) int64] *)
Definition getSize (o : Options) (rng : R) : Z :=
  if negb (randSize o) then totalSize o
  else GetExpRandSize rng (totalSize o).
End GetSize.

(** The option functions of this file. *)
Inductive setting : Type :=
| SetSize (n : Z)
| SetRandomSize (b : bool)
| SetPrefixSize (n : Z).

Definition option_of (s : setting) : Option_ :=
  match s with
  | SetSize n => WithSize n
  | SetRandomSize b => WithRandomSize b
  | SetPrefixSize n => WithPrefixSize n
  end.

(** The options after a sequence of calls, each made on the options the
    call before it left, whatever is done with the errors. *)
Fixpoint apply_all (ss : list setting) (o : Options) : Options :=
  match ss with
  | [] => o
  | s :: rest => apply_all rest (snd (option_of s o))
  end.

End Generator.

(** ** Reconstructing the command line (flags) *)

Module CommandLine.
Import Forward.

Definition redacted : string := "*REDACTED*".

(** [case "access-key", "secret-key":] *)
Definition is_secret (name : string) : bool :=
  String.eqb name "access-key" || String.eqb name "secret-key".

Section CommandLine.
Variable Duration_String : Duration -> string.
Variable Sprint_float64 : float64 -> string.

(** The loop [for _, flag := range ctx.Command.Flags] of [commandLine]. *)
Fixpoint commandLine_flags (ctx : Context) (flags : list Flag) (s : string)
  : string :=
  match flags with
  | [] => s
  | flag :: rest =>
      let '(val, err) := flagToJSON Duration_String Sprint_float64 ctx flag in
      if (match err with Some _ => true | None => false end)
         || String.eqb val "" then commandLine_flags ctx rest s
      else
        let name := flag_Name flag in
        let val := if is_secret name then redacted else val in
        commandLine_flags ctx rest (s ++ " --" ++ name ++ "=" ++ val)%string
  end.

(** [func commandLine(ctx *cli.Context) string]; [arg0] is [os.Args[0]]. *)
Definition commandLine (arg0 : string) (ctx : Context) : string :=
  commandLine_flags ctx (ctx_Command_Flags ctx)
    (arg0 ++ " " ++ ctx_Command_Name ctx)%string.
End CommandLine.

(** [var ioFlags] *)
Definition ioFlags : list Flag :=
  [ {| flag_Name := "host"; flag_Type := StringFlag |};
    {| flag_Name := "access-key"; flag_Type := StringFlag |};
    {| flag_Name := "secret-key"; flag_Type := StringFlag |};
    {| flag_Name := "tls"; flag_Type := BoolFlag |};
    {| flag_Name := "region"; flag_Type := StringFlag |};
    {| flag_Name := "signature"; flag_Type := StringFlag |};
    {| flag_Name := "encrypt"; flag_Type := BoolFlag |};
    {| flag_Name := "bucket"; flag_Type := StringFlag |};
    {| flag_Name := "host-select"; flag_Type := StringFlag |};
    {| flag_Name := "concurrent"; flag_Type := IntFlag |};
    {| flag_Name := "noprefix"; flag_Type := BoolFlag |};
    {| flag_Name := "disable-multipart"; flag_Type := BoolFlag |};
    {| flag_Name := "md5"; flag_Type := BoolFlag |};
    {| flag_Name := "storage-class"; flag_Type := StringFlag |} ].

(** Two command lines alike but for their credentials. *)
Definition ctx_keys (access secret : string) : Context :=
  ctx_of "put" (ioFlags ++ benchFlags)
    [ ("host", VString "s3.example.org:9000");
      ("access-key", VString access);
      ("secret-key", VString secret);
      ("tls", VBool true);
      ("concurrent", VInt 8);
      ("duration", VDuration Minute) ].


End CommandLine.

(** ** Further command lines used to run the definitions *)

(** [warp analyze --analyze.dur=30s]. *)
Definition ctx_dur_30s : Context :=
  ctx_of "analyze" Forward.analyzeFlags [("analyze.dur", VString "30s")].

(** ** The follower's stage bookkeeping (benchmark.go) *)

Module ClientStage.
Import Bench.

(** A [chan struct{}] that is only ever closed: [None] is the nil
    channel, [Some closed] a channel made by [make]. *)
Definition chan : Type := option bool.

Record stageInfo : Type := {
  startRequested : bool;
  start : chan;
  done : chan
}.

(** The zero [stageInfo], which indexing the map gives for a stage that
    is not in it. *)
Definition zeroInfo : stageInfo :=
  {| startRequested := false; start := None; done := None |}.

(** [type clientBenchmark struct]: the fields the stage functions read
    or write ([results], [ctx] and [cancel] are left out). *)
Record clientBenchmark : Type := {
  err : option string;
  stage : benchmarkStage;
  info : benchmarkStage -> option stageInfo
}.

Definition info_set (m : benchmarkStage -> option stageInfo)
    (s : benchmarkStage) (v : stageInfo) : benchmarkStage -> option stageInfo :=
  fun s' => if Coordinator.stage_eqb s s' then Some v else m s'.

(** [func (c *clientBenchmark) init(ctx context.Context)] *)
Definition init : clientBenchmark :=
  {| err := None;
     stage := stageNotStarted;
     info :=
       fold_left
         (fun m s =>
            info_set m s
              {| startRequested := false; start := Some false;
                 done := Some false |})
         benchmarkStages (fun _ => None) |}.

(** [func (c *clientBenchmark) setStage(s benchmarkStage)] *)
Definition setStage (s : benchmarkStage) (c : clientBenchmark)
  : clientBenchmark :=
  {| err := err c; stage := s; info := info c |}.

Definition err_unknown_stage : string := "waitForStage: unknown stage".

(** [func (c *clientBenchmark) waitForStage(s benchmarkStage) error];
    [cancelled] is [ctx.Err()] when the [select] takes [<-ctx.Done()],
    and [None] when it takes [<-info.start]. *)
Definition waitForStage (s : benchmarkStage) (cancelled : option string)
    (c : clientBenchmark) : option string * clientBenchmark :=
  match info c s with
  | None => (Some err_unknown_stage, c)
  | Some _ =>
      match cancelled with
      | None => (None, setStage s c)
      | Some e => (Some e, c)
      end
  end.

(** [func (c *clientBenchmark) stageDone(s benchmarkStage, err error)];
    [None] is the panic of closing a channel that is closed already. *)
Definition stageDone (s : benchmarkStage) (e : option string)
    (c : clientBenchmark) : option clientBenchmark :=
  let i := default zeroInfo (info c s) in
  let err' :=
    match e, err c with
    | Some e, None => Some e
    | _, _ => err c
    end in
  match done i with
  | None => Some {| err := err'; stage := stage c; info := info c |}
  | Some false =>
      Some {| err := err'; stage := stage c;
              info := info_set (info c) s
                        {| startRequested := startRequested i;
                           start := start i; done := Some true |} |}
  | Some true => None
  end.

(** What [runClientBenchmark] does to its [cb] (the writing of the data
    file, which does not touch [cb], set aside). *)
Definition runClientBenchmark_cb (w : clientWorld) (c : clientBenchmark)
  : option (clientBenchmark * option string) :=
  match waitForStage stagePrepare (wait_prepare_err w) c with
  | (Some e, c) => Some (c, Some e)
  | (None, c) =>
    match stageDone stagePrepare (prepare_err w) c with
    | None => None
    | Some c =>
      match prepare_err w with
      | Some e => Some (c, Some e)
      | None =>
        match stageDone stageBenchmark (start_err w) c with
        | None => None
        | Some c =>
          match start_err w with
          | Some e => Some (c, Some e)
          | None =>
            match waitForStage stageCleanup (wait_cleanup_err w) c with
            | (Some e, c) => Some (c, Some e)
            | (None, c) =>
              match stageDone stageCleanup None c with
              | None => None
              | Some c => Some (c, None)
              end
            end
          end
        end
      end
    end
  end.

(** Whether the [done] channel of a stage has been closed. *)
Definition done_closed (c : clientBenchmark) (s : benchmarkStage) : bool :=
  match info c s with
  | Some i => match done i with Some true => true | _ => false end
  | None => false
  end.

(** The first error reported with a stage. *)
Fixpoint first_reported (trace : list action) : option string :=
  match trace with
  | [] => None
  | AStageDone _ (Some e) :: _ => Some e
  | _ :: rest => first_reported rest
  end.

End ClientStage.

(** ** The requests of a coordinator's run (benchserver.go) *)

Module Dispatch.
Import Bench Log Coordinator.

(** The requests sent on a connection, in order. *)
Fixpoint requests (evs : list event) : list serverRequest :=
  match evs with
  | [] => []
  | EvRoundTrip req _ :: rest => req :: requests rest
  | _ :: rest => requests rest
  end.


(** The instant handed to [startStageAll] for each stage. *)
Definition start_time (w : world) (s : benchmarkStage) : Connect.Time :=
  match s with
  | stagePrepare => Connect.Time_Add (now_prepare w) Second
  | stageBenchmark => Connect.Time_Add (now_benchmark w) benchmarkWait
  | _ => now_cleanup w
  end.

(** The requests of a run: the benchmark request [req0], and for each
    stage the start request with the instant of the stage and the status
    request, and the download request. *)
Definition scheduled (req0 : serverRequest) (w : world) (req : serverRequest)
  : Prop :=
  match Operation req with
  | serverReqBenchmark => req = req0
  | serverReqStartStage =>
      In (Stage req) benchmarkStages /\
      req = startReq (Stage req) (start_time w (Stage req))
  | serverReqStageStatus =>
      In (Stage req) benchmarkStages /\ req = statusReq (Stage req)
  | serverReqSendOps => req = sendOpsReq
  | serverReqDisconnect => False
  end.

(** A step all of whose requests satisfy [P]. *)
Definition sends (P : serverRequest -> Prop) (s : hstep) : Prop :=
  forall f conn out, s f conn = ret out -> Forall P (requests (snd out)).


(** A follower that never finishes Prepare. *)
Definition hanging : follower :=
  {| on_benchmark := okReply false [];
     on_start := fun _ => okReply false [];
     on_status := fun _ => [okReply false []; okReply false []];
     on_sendops := okReply false [] |}.

End Dispatch.

(** ** Records of a log, thread ids apart *)

Module Merged.
Import Log.

(** The records of a log with their thread ids set aside. *)
Definition forget_thread (o : Operations) : Operations :=
  map (fun op => with_Thread op 0) o.

End Merged.

(** ** Validation of the benchmark flags (benchmark.go) *)

Module CheckBenchmark.
Import Bench.

(** [strings.Split(s, ",")]: the pieces between the commas, one more
    than there are commas. *)
Fixpoint split_comma (s : string) : list string :=
  match s with
  | EmptyString => [""]
  | String c rest =>
      if Ascii.eqb c "," then "" :: split_comma rest
      else
        match split_comma rest with
        | [] => [String c ""]
        | p :: ps => String c p :: ps
        end
  end.

(** [profilerTypes]: the values of [madmin.ProfilerCPU] ... as the usage
    text of the [serverprof] flag lists them. *)
Definition profilerTypes : list string :=
  ["cpu"; "mem"; "block"; "mutex"; "trace"].

Definition msg_profiler : string :=
  "无法识别 Profiler 类型: %s . 可能的值是: %v.".
Definition msg_parse_time : string := "不能解析时间: %s".
Definition msg_syncstart : string := "syncstart 已通过: %v".
Definition msg_autoterm_dur : string := "autoterm.dur 的值不能是 0 或者负数".
Definition msg_autoterm_pct : string := "autoterm.pct 的值不能是 0 或者负数".

(** The loop [for _, profilerType := range profs]. *)
Fixpoint check_profs (profs : list string) : result unit :=
  match profs with
  | [] => Ok tt
  | p :: rest =>
      if (String.length p =? 0)%nat then check_profs rest
      else if existsb (String.eqb p) profilerTypes then check_profs rest
      else Fatal msg_profiler
  end.

Section CheckBenchmark.
(** [time.ParseInLocation(timeLayout, s, time.Local)], and
    [t.AddDate(y, int(m)-1, d-1)] for [y, m, d := now.Date()]. *)
Variable ParseInLocation : string -> option Connect.Time.
Variable AddDate_of : Connect.Time -> Connect.Time -> Connect.Time.
(** [x <= 0] on [float64]. *)
Variable float64_le0 : float64 -> bool.

(** [func parseLocalTime(s string) time.Time], the clock reading [now]. *)
Definition parseLocalTime (now : Connect.Time) (s : string)
  : result Connect.Time :=
  match ParseInLocation s with
  | None => Fatal msg_parse_time
  | Some t => Ok (AddDate_of now t)
  end.

(** [func checkBenchmark(ctx *cli.Context)]; [now1] and [now2] are the
    clock readings in [parseLocalTime] and in [t.Before(time.Now())]. *)
Definition checkBenchmark (ctx : Context) (now1 now2 : Connect.Time)
  : result unit :=
  bind_result (check_profs (split_comma (ctx_String ctx "serverprof")))
    (fun _ =>
  bind_result
    (let st := ctx_String ctx "syncstart" in
     if negb (String.eqb st "") then
       bind_result (parseLocalTime now1 st) (fun t =>
         if t <? now2 then Fatal msg_syncstart else Ok tt)
     else Ok tt)
    (fun _ =>
  if ctx_Bool ctx "autoterm" then
    if ctx_Duration ctx "autoterm.dur" <=? 0 then Fatal msg_autoterm_dur
    else if float64_le0 (ctx_Float64 ctx "autoterm.pct")
         then Fatal msg_autoterm_pct
         else Ok tt
  else Ok tt)).
End CheckBenchmark.

(** [--serverprof=cpu,,trace --autoterm --autoterm.dur=15s
    --autoterm.pct=5]. *)
Definition ctx_prof : Context :=
  ctx_of "get" Forward.benchFlags
    [ ("serverprof", VString "cpu,,trace");
      ("autoterm", VBool true);
      ("autoterm.dur", VDuration (15 * Second));
      ("autoterm.pct", VFloat64 4617315517961601024) ].

End CheckBenchmark.
(** * Properties *)

(** ** Handshake validation *)

Section HandshakeFacts.
Import Handshake.

(** C9: validation of a received server info succeeds exactly when the id
    is not empty and the version is the supported one (1); an empty id
    and a version mismatch each yield their own error. *)
Theorem validate_accepts_iff (s : serverInfo) :
  (validate s = None <-> ID s <> "" /\ Version s = 1) /\
  ((validate s = None /\ ID s <> "" /\ Version s = warpServerVersion) \/
   (validate s = Some err_no_id /\ ID s = "") \/
   (validate s = Some err_version /\ ID s <> "" /\ Version s <> warpServerVersion)).
Proof.
  unfold validate, warpServerVersion.
  destruct (String.eqb_spec (ID s) "") as [E | E];
    destruct (Z.eqb_spec (Version s) 1) as [V | V]; cbn.
  - split; [split; [discriminate | tauto] | right; left; auto].
  - split; [split; [discriminate | tauto] | right; left; auto].
  - split; [split; auto | left; auto].
  - split; [split; [discriminate | tauto] | right; right; auto].
Qed.

End HandshakeFacts.

(** ** Pseudo-random identifiers *)

Section RandASCIIFacts.
Import RandASCII.

Lemma asciiLetters_length : String.length asciiLetters = 62%nat.
Proof. reflexivity. Qed.

Lemma letter_at_table :
  forallb (fun k =>
    match letter_at (Z.of_nat k) with
    | Some c =>
        is_alnum c && existsb (Ascii.eqb c) (list_ascii_of_string asciiLetters)
    | None => false
    end) (seq 0 62) = true.
Proof. vm_compute. reflexivity. Qed.

Lemma letter_at_good (i : Z) :
  0 <= i < 62 -> exists c, letter_at i = Some c /\ good_letter c.
Proof.
  intros Hi.
  pose proof letter_at_table as T.
  rewrite forallb_forall in T.
  specialize (T (Z.to_nat i)).
  rewrite Z2Nat.id in T by lia.
  assert (Hin : In (Z.to_nat i) (seq 0 62)) by (apply in_seq; lia).
  specialize (T Hin).
  destruct (letter_at i) as [c |]; [| discriminate].
  apply andb_prop in T as [Ha He].
  exists c. split; [reflexivity |]. split; [| exact Ha].
  apply existsb_exists in He as (c' & Hc' & Heq).
  apply Ascii.eqb_eq in Heq. subst c'. exact Hc'.
Qed.

Lemma uint32_nonneg (x : Z) : 0 <= uint32 x.
Proof. unfold uint32. apply Z.mod_pos_bound. lia. Qed.

Lemma LittleEndian_Uint32_nonneg b0 b1 b2 b3 :
  0 <= LittleEndian_Uint32 b0 b1 b2 b3.
Proof.
  unfold LittleEndian_Uint32.
  repeat (apply Z.lor_nonneg; split);
    try apply Z.shiftl_nonneg; apply N2Z.is_nonneg.
Qed.

Lemma fill_good (n : nat) : forall rnd rnd2,
  0 <= rnd ->
  exists cs, fill n rnd rnd2 = Some cs /\ length cs = n /\ Forall good_letter cs.
Proof.
  induction n as [| n IH]; intros rnd rnd2 Hrnd.
  - exists []. cbn. auto.
  - cbn [fill]. rewrite asciiLetters_length.
    assert (Hs : 0 <= Z.shiftr rnd 16) by (apply Z.shiftr_nonneg; exact Hrnd).
    assert (Hr : 0 <= Z.rem (Z.shiftr rnd 16) (Z.of_nat 62) < 62).
    { apply Z.rem_bound_pos; lia. }
    destruct (letter_at_good _ Hr) as (c & Hc & Hg).
    rewrite Hc.
    destruct (IH (uint32 (Z.lxor rnd rnd2 * 2654435761)) rnd2
                 (uint32_nonneg _)) as (cs & Hcs & Hlen & Hall).
    rewrite Hcs. exists (c :: cs). cbn. auto.
Qed.

Lemma length_string_of_list_ascii (cs : list ascii) :
  String.length (string_of_list_ascii cs) = length cs.
Proof. induction cs as [| c cs IH]; cbn; congruence. Qed.

(** C10: for every [n >= 0], [pRandASCII n] returns a string of exactly
    [n] characters, each from the 62-character alphabet of ASCII letters
    and digits. *)
Theorem pRandASCII_length_alphabet (seed : seed8) (n : Z) :
  0 <= n ->
  exists s,
    pRandASCII seed n = Some s /\
    Z.of_nat (String.length s) = n /\
    Forall good_letter (list_ascii_of_string s) /\
    String.length asciiLetters = 62%nat.
Proof.
  intros Hn. unfold pRandASCII.
  destruct (Z.ltb_spec n 0) as [Hneg | _]; [lia |].
  destruct (fill_good (Z.to_nat n)
              (LittleEndian_Uint32 (s0 seed) (s1 seed) (s2 seed) (s3 seed))
              (LittleEndian_Uint32 (s4 seed) (s5 seed) (s6 seed) (s7 seed))
              (LittleEndian_Uint32_nonneg _ _ _ _)) as (cs & Hcs & Hlen & Hall).
  rewrite Hcs. exists (string_of_list_ascii cs).
  split; [reflexivity |].
  split; [rewrite length_string_of_list_ascii, Hlen; lia |].
  split; [rewrite list_ascii_of_string_of_list_ascii; exact Hall | reflexivity].
Qed.

Lemma pRandASCII_length_alphabet_witness :
  exists s,
    pRandASCII seed_example 4 = Some s /\
    Z.of_nat (String.length s) = 4 /\
    Forall good_letter (list_ascii_of_string s) /\
    String.length asciiLetters = 62%nat.
Proof. apply (pRandASCII_length_alphabet seed_example 4). lia. Defined.

End RandASCIIFacts.

(** ** Choice of the segment duration *)

Section AnalysisDurFacts.
Import Analyze.

Variable Duration_String : Duration -> string.
Variable ParseDuration : string -> option Duration.

(** The standard durations are read back as they were printed. *)
Hypothesis parse_print :
  forall d, In d stdDurations -> ParseDuration (Duration_String d) = Some d.

Lemma parse_printed (d : Duration) :
  In d stdDurations ->
  parse_or_fatal ParseDuration (Duration_String d) = Ok d.
Proof using parse_print.
  intros Hd. unfold parse_or_fatal. rewrite (parse_print d Hd). reflexivity.
Qed.

(** The loop stops at the first entry that qualifies, and ends on the
    last entry when none does. *)
Lemma pick_std_spec (total : Duration) (ds : list Duration) :
  forall dur0, ds <> [] ->
  exists pre d post,
    ds = pre ++ d :: post /\
    pick_std Duration_String total ds dur0 = Duration_String d /\
    Forall (fun d' => wantAtMost < go_div total d') pre /\
    (go_div total d <= wantAtMost \/
     (post = [] /\ wantAtMost < go_div total d)).
Proof.
  induction ds as [| d ds IH]; intros dur0 Hne; [congruence |].
  cbn [pick_std].
  destruct (Z.leb_spec (go_div total d) wantAtMost) as [Hle | Hgt].
  - exists [], d, ds. cbn. auto.
  - destruct ds as [| d2 ds2].
    + exists [], d, []. cbn.
      split; [reflexivity |]. split; [reflexivity |].
      split; [constructor | right; split; [reflexivity | exact Hgt]].
    + destruct (IH (Duration_String d) ltac:(discriminate))
        as (pre & d' & post & Heq & Hpick & Hpre & Hlast).
      exists (d :: pre), d', post.
      split; [cbn; congruence |].
      split; [exact Hpick |].
      split; [constructor; assumption | exact Hlast].
Qed.

Lemma stdDurations_sorted :
  StronglySorted Z.lt stdDurations.
Proof.
  unfold stdDurations, Hour, Minute, Second.
  repeat (constructor; [| repeat constructor; lia]). constructor.
Qed.

Lemma sorted_split_lt (pre post : list Z) (d : Z) :
  StronglySorted Z.lt (pre ++ d :: post) ->
  forall d', In d' (pre ++ d :: post) -> d' < d -> In d' pre.
Proof.
  induction pre as [| p pre IH]; cbn; intros Hs d' Hin Hlt.
  - inversion Hs as [| ? ? _ Hall]; subst.
    destruct Hin as [-> | Hin]; [lia |].
    rewrite List.Forall_forall in Hall. specialize (Hall _ Hin). lia.
  - inversion Hs as [| ? ? Hs' Hall]; subst.
    destruct Hin as [-> | Hin]; [left; reflexivity | right].
    apply IH; assumption.
Qed.



(** [analysisDur] returns for every total as soon as the flag, when it
    is set, holds a duration. *)
Lemma analysisDur_returns (ctx : Context) :
  ctx_String ctx "analyze.dur" = "" \/
  (exists d, ParseDuration (ctx_String ctx "analyze.dur") = Some d) ->
  forall total, exists d,
    analysisDur Duration_String ParseDuration ctx total = Ok d.
Proof using parse_print.
  intros Hflag total. unfold analysisDur.
  destruct (String.eqb_spec (ctx_String ctx "analyze.dur") "") as [E | E].
  - destruct (total =? 0); [eauto |].
    destruct (pick_std_spec total stdDurations (ctx_String ctx "analyze.dur")
                ltac:(discriminate))
      as (pre & d & post & Heq & Hpick & _ & _).
    assert (Hin : In d stdDurations) by (rewrite Heq; apply in_elt).
    rewrite Hpick, (parse_printed d Hin). eauto.
  - destruct Hflag as [Hflag | [d Hd]]; [contradiction |].
    unfold parse_or_fatal. rewrite Hd. eauto.
Qed.

End AnalysisDurFacts.

Lemma Parse_hms_String_hms (d : Duration) :
  In d Analyze.stdDurations ->
  Analyze.Parse_hms (Analyze.String_hms d) = Some d.
Proof.
  intros Hd. unfold Analyze.stdDurations in Hd. cbn [In] in Hd.
  repeat (destruct Hd as [<- | Hd]; [vm_compute; reflexivity |]).
  destruct Hd.
Defined.


(** The choice on a one-hour log: 15 s segments (240 of them), since 1 s
    and 5 s would give 3600 and 720. *)
Example analysisDur_one_hour :
  Analyze.analysisDur Analyze.String_hms Analyze.Parse_hms
    (ctx_of "analyze" [] []) Hour = Ok (15 * Second).
Proof. vm_compute. reflexivity. Qed.

(** ** The clock check of the handshake *)

Section ConnectFacts.
Import Connect.

Lemma Time_Sub_range (t u : Time) :
  minDuration <= Time_Sub t u <= maxDuration.
Proof.
  unfold Time_Sub, minDuration, maxDuration.
  destruct (Z.ltb_spec (t - u) (- 2 ^ 63)); [lia |].
  destruct (Z.ltb_spec (2 ^ 63 - 1) (t - u)); lia.
Qed.

Lemma Time_Sub_exact (t u : Time) :
  minDuration <= t - u <= maxDuration -> Time_Sub t u = t - u.
Proof.
  unfold Time_Sub, minDuration, maxDuration. intros H.
  destruct (Z.ltb_spec (t - u) (- 2 ^ 63)); [lia |].
  destruct (Z.ltb_spec (2 ^ 63 - 1) (t - u)); lia.
Qed.

Lemma wrap64_small (x : Z) : - 2 ^ 63 <= x < 2 ^ 63 -> wrap64 x = x.
Proof.
  intros H. unfold wrap64. rewrite Z.mod_small by lia. lia.
Qed.

(** Negating the most negative [int64] gives it back. *)
Lemma abs_delta_min : abs_delta minDuration = minDuration.
Proof. vm_compute. reflexivity. Qed.

Lemma abs_delta_abs (delta : Duration) :
  minDuration < delta <= maxDuration -> abs_delta delta = Z.abs delta.
Proof.
  unfold abs_delta, minDuration, maxDuration. intros H.
  destruct (Z.ltb_spec delta 0).
  - rewrite wrap64_small by lia. lia.
  - lia.
Qed.

Lemma connectOnce_sync_error (host : string) (a : attempt) :
  is_sync_error (connectOnce host a) =
  handshake_ok a && (Second <? abs_delta (skew_of a)).
Proof.
  unfold connectOnce, handshake_ok.
  destruct (dial_err a); [reflexivity |].
  destruct (write_err a); [reflexivity |].
  destruct (read_err a); [reflexivity |].
  destruct (String.eqb (reply_Err (resp a)) ""); cbn; [| reflexivity].
  destruct (Second <? abs_delta (skew_of a)); reflexivity.
Qed.

(** X2: whenever the estimate is not clamped at the bottom of the
    [Duration] range, an attempt ends in the clock-synchronisation error
    exactly when the handshake went through and the estimate exceeds one
    second in absolute value. *)
Lemma connectOnce_sync_error_iff (host : string) (a : attempt) :
  skew_of a <> minDuration ->
  (is_sync_error (connectOnce host a) = true <->
   handshake_ok a = true /\ Second < Z.abs (skew_of a)).
Proof.
  intros Hmin. rewrite connectOnce_sync_error.
  pose proof (Time_Sub_range (now_delta a)
                (Time_Add (reply_Time (resp a)) (go_div (roundtrip_of a) 2)))
    as Hr.
  fold (Since (now_delta a)
          (Time_Add (reply_Time (resp a)) (go_div (roundtrip_of a) 2))) in Hr.
  fold (skew_of a) in Hr.
  rewrite abs_delta_abs by lia.
  rewrite andb_true_iff, Z.ltb_lt. reflexivity.
Qed.

(** C2, at a follower whose clock is more than 2^63 ns (about 292 years)
    ahead: the skew estimate is [now - (reply_time + R/2)], clamped to the
    most negative [Duration]; its negation wraps around to itself, so the
    comparison with one second fails and the attempt (and with it
    [connect]) succeeds although the skew exceeds one second. *)
Theorem connect_far_future_accepted :
  handshake_ok far_future = true /\
  exact_skew far_future = -11776465599999000000 /\
  skew_of far_future = minDuration /\
  Second < Z.abs (skew_of far_future) /\
  connectOnce "follower:7761" far_future = None /\
  connect "follower:7761" (fun _ => far_future) = Some (None, 0%nat).
Proof. vm_compute. repeat split; reflexivity. Qed.

(** The check at work on ordinary clocks. *)
Example connect_three_ahead_rejected :
  connectOnce "follower" three_ahead =
    Some (ErrTimeDelta "follower:7761" 2999000000 2000000) /\
  connect "follower" (fun _ => three_ahead) =
    Some (Some (ErrTimeDelta "follower:7761" 2999000000 2000000), 3%nat).
Proof. vm_compute. split; reflexivity. Qed.

Example connect_in_step_accepted :
  connectOnce "follower:7761" in_step = None.
Proof. vm_compute. reflexivity. Qed.

(** [connect] always returns within its four tries. *)
Lemma connect_returns (host : string) (atts : nat -> attempt) :
  exists r, connect host atts = Some r.
Proof.
  unfold connect. cbn [connect_from].
  repeat (match goal with
          | |- context [connectOnce ?h ?x] => destruct (connectOnce h x)
          end; cbn; eauto).
Qed.

End ConnectFacts.

(** ** Flags forwarded to the followers *)

Section ForwardFacts.
Import Forward.

Variable Duration_String : Duration -> string.
Variable Sprint_float64 : float64 -> string.





End ForwardFacts.




(** ** Merging operation logs *)

Section LogFacts.
Import Log.

Lemma max_thread_ge (o : Operations) (op : Operation) :
  In op o -> Thread op <= max_thread o.
Proof.
  unfold max_thread. induction o as [| a o IH]; cbn; [tauto |].
  intros [-> | H]; [lia | specialize (IH H); lia].
Qed.

Lemma max_thread_nonneg (o : Operations) : 0 <= max_thread o.
Proof. unfold max_thread. induction o as [| a o IH]; cbn; lia. Qed.

Lemma max_thread_shift (o : Operations) (n : Z) :
  o <> [] -> wf_log o -> 0 <= n ->
  max_thread (shift o n) = max_thread o + n.
Proof.
  unfold max_thread, shift, wf_log.
  induction o as [| a o IH]; intros Hne Hwf Hn; [congruence |].
  inversion Hwf as [| ? ? Ha Hwf']; subst.
  destruct o as [| b o'].
  - cbn. lia.
  - specialize (IH ltac:(discriminate) Hwf' Hn).
    cbn [map fold_right] in *. cbn [Thread with_Thread] in *. lia.
Qed.

Lemma threads_of_pos (o : Operations) : o <> [] -> 1 <= threads_of o.
Proof.
  destruct o as [| a o]; [congruence |]. intros _. unfold threads_of.
  pose proof (max_thread_nonneg (a :: o)). lia.
Qed.

Lemma total_threads_nonneg (logs : list Operations) : 0 <= total_threads logs.
Proof.
  unfold total_threads. induction logs as [| o logs IH]; cbn; [lia |].
  destruct o as [| a o]; cbn [threads_of]; [lia |].
  pose proof (max_thread_nonneg (a :: o)). lia.
Qed.

Lemma uint16_small (x : Z) : 0 <= x < 2 ^ 16 -> uint16 x = x.
Proof. intros H. unfold uint16. apply Z.mod_small. exact H. Qed.

(** Without overflow, [OffsetThreads] adds [n] to every thread id and
    returns the number of thread ids used so far. *)
Lemma OffsetThreads_exact (o : Operations) (n : Z) :
  o <> [] -> wf_log o -> 0 <= n -> n + threads_of o <= 2 ^ 16 ->
  OffsetThreads o n = (shift o n, uint16 (n + threads_of o)).
Proof.
  intros Hne Hwf Hn Hfit.
  assert (Hmap : map (fun op => with_Thread op (uint16 (Thread op + n))) o
                 = shift o n).
  { unfold shift. apply map_ext_in. intros op Hop.
    pose proof (max_thread_ge o op Hop) as Hle.
    unfold wf_log in Hwf. rewrite List.Forall_forall in Hwf.
    specialize (Hwf op Hop).
    rewrite uint16_small; [reflexivity |].
    destruct o as [| a o']; [congruence |]. unfold threads_of in Hfit. lia. }
  unfold OffsetThreads. rewrite Hmap.
  destruct o as [| a o']; [congruence |].
  change (shift (a :: o') n) with
    (with_Thread a (Thread a + n) :: shift o' n) at 2.
  cbv iota. f_equal.
  rewrite (max_thread_shift (a :: o') n Hne Hwf Hn).
  unfold threads_of. f_equal. lia.
Qed.

Lemma merge_loop_concat (logs : list Operations) :
  forall n acc, merge_loop logs n acc = acc ++ concat (offset_logs logs n).
Proof.
  induction logs as [| o logs IH]; intros n acc; cbn [merge_loop offset_logs].
  - cbn. rewrite app_nil_r. reflexivity.
  - destruct (OffsetThreads o n) as [o' n'].
    rewrite IH. cbn [concat]. rewrite app_assoc. reflexivity.
Qed.

(** Every log is offset by the running offset. *)
Lemma offset_logs_running (logs : list Operations) :
  forall n, 0 <= n -> n + total_threads logs <= 2 ^ 16 ->
  Forall wf_log logs ->
  offset_logs logs (uint16 n) = zip_with shift logs (running_offsets logs n).
Proof.
  induction logs as [| o logs IH]; intros n Hn Hfit Hwf; [reflexivity |].
  inversion Hwf as [| ? ? Ho Hwf']; subst.
  cbn [total_threads fold_right] in Hfit. fold (total_threads logs) in Hfit.
  pose proof (total_threads_nonneg logs) as Hnn.
  cbn [offset_logs running_offsets zip_with].
  destruct o as [| a o'].
  - cbn [OffsetThreads map]. cbn [threads_of] in Hfit.
    rewrite IH by (auto; lia). reflexivity.
  - pose proof (threads_of_pos (a :: o') ltac:(discriminate)) as Hpos.
    rewrite (uint16_small n) by lia.
    rewrite OffsetThreads_exact by (auto; try discriminate; lia).
    rewrite IH by (auto; lia). reflexivity.
Qed.

Lemma shifted_ids_ge (logs : list Operations) :
  forall n, Forall wf_log logs ->
  forall k ok a,
    nth_error (zip_with shift logs (running_offsets logs n)) k = Some ok ->
    In a ok -> n <= Thread a.
Proof.
  induction logs as [| o logs IH]; intros n Hwf k ok a Hk Ha.
  - destruct k; discriminate Hk.
  - inversion Hwf as [| ? ? Ho Hwf']; subst.
    cbn [running_offsets zip_with] in Hk.
    destruct k as [| k]; cbn [nth_error] in Hk.
    + injection Hk as <-. unfold shift in Ha. apply in_map_iff in Ha.
      destruct Ha as (op & <- & Hop). cbn.
      unfold wf_log in Ho. rewrite List.Forall_forall in Ho.
      specialize (Ho op Hop). lia.
    + specialize (IH _ Hwf' k ok a Hk Ha).
      destruct o as [| b o']; [exact IH |].
      pose proof (threads_of_pos (b :: o') ltac:(discriminate)). lia.
Qed.

Lemma shifted_head_lt (o : Operations) (n : Z) (a : Operation) :
  In a (shift o n) -> o <> [] /\ Thread a < n + threads_of o.
Proof.
  unfold shift. intros Ha. apply in_map_iff in Ha.
  destruct Ha as (op & <- & Hop). cbn.
  pose proof (max_thread_ge o op Hop).
  destruct o as [| b o']; [destruct Hop |].
  split; [discriminate | unfold threads_of; lia].
Qed.

Lemma shifted_distinct (logs : list Operations) :
  forall n, Forall wf_log logs ->
  distinct_across (zip_with shift logs (running_offsets logs n)).
Proof.
  induction logs as [| o logs IH]; intros n Hwf i j a b oi oj Hij Hi Hj Ha Hb.
  - destruct i; discriminate Hi.
  - inversion Hwf as [| ? ? Ho Hwf']; subst.
    cbn [running_offsets zip_with] in Hi, Hj.
    destruct i as [| i], j as [| j]; cbn [nth_error] in Hi, Hj.
    + congruence.
    + injection Hi as <-.
      destruct (shifted_head_lt _ _ _ Ha) as [Hne Hlt].
      destruct o as [| c o']; [congruence |].
      pose proof (shifted_ids_ge logs _ Hwf' j oj b Hj Hb). lia.
    + injection Hj as <-.
      destruct (shifted_head_lt _ _ _ Hb) as [Hne Hlt].
      destruct o as [| c o']; [congruence |].
      pose proof (shifted_ids_ge logs _ Hwf' i oi a Hi Ha). lia.
    + eapply (IH _ Hwf' i j); eauto.
Qed.

Lemma insert_by_start_perm (x : Operation) (l : Operations) :
  Permutation (insert_by_start x l) (x :: l).
Proof.
  induction l as [| y l IH]; cbn; [reflexivity |].
  destruct (Start x <=? Start y); [reflexivity |].
  rewrite IH. apply perm_swap.
Qed.

Lemma SortByStartTime_perm (o : Operations) :
  Permutation (SortByStartTime o) o.
Proof.
  unfold SortByStartTime. induction o as [| x o IH]; cbn; [reflexivity |].
  rewrite insert_by_start_perm. constructor. exact IH.
Qed.

Lemma insert_by_start_sorted (x : Operation) (l : Operations) :
  sorted_by_start l -> sorted_by_start (insert_by_start x l).
Proof.
  unfold sorted_by_start.
  induction l as [| y l IH]; cbn; intros Hs.
  - repeat constructor.
  - destruct (Z.leb_spec (Start x) (Start y)) as [Hle | Hgt].
    + constructor; [exact Hs | constructor; exact Hle].
    + inversion Hs as [| ? ? Hs' Hhd]; subst.
      constructor; [apply IH; exact Hs' |].
      destruct l as [| z l']; cbn.
      * constructor. lia.
      * destruct (Z.leb_spec (Start x) (Start z)); constructor; [lia |].
        inversion Hhd; subst. assumption.
Qed.

Lemma SortByStartTime_sorted (o : Operations) :
  sorted_by_start (SortByStartTime o).
Proof.
  unfold SortByStartTime. induction o as [| x o IH]; cbn.
  - constructor.
  - apply insert_by_start_sorted. exact IH.
Qed.

Lemma shift_zero (o : Operations) : shift o 0 = o.
Proof.
  unfold shift. rewrite <- (map_id o) at 2. apply map_ext.
  intros [? ? ? ? ? ? ? ? ? ? ?]. unfold with_Thread. cbn. f_equal. lia.
Qed.

(** C5, as amended: while the thread ids of all logs together fit in 16
    bits, each log is offset by the running offset (the number of thread
    ids used by the logs before it) before it is appended, thread ids of
    different logs never coincide, and the union is then sorted by start
    time; this holds for the coordinator's merge of the downloaded logs
    and for the merge command. *)
Theorem merge_threads_distinct (logs : list Operations) :
  Forall wf_log logs ->
  total_threads logs <= 2 ^ 16 ->
  let shifted := zip_with shift logs (running_offsets logs 0) in
  offset_logs logs 0 = shifted /\
  merge_loop logs 0 [] = concat shifted /\
  distinct_across shifted /\
  mergeDownloaded logs = SortByStartTime (concat shifted) /\
  mainMerge_ops logs =
    (if (length logs <=? 1)%nat then Fatal msg_two_files
     else if (length (concat shifted) =? 0)%nat then Ok (inr err_no_data)
     else Ok (inl (SortByStartTime (concat shifted)))) /\
  Permutation (SortByStartTime (concat shifted)) (concat shifted) /\
  sorted_by_start (SortByStartTime (concat shifted)).
Proof.
  intros Hwf Hfit shifted.
  assert (Hoff : offset_logs logs 0 = shifted).
  { change 0 with (uint16 0) at 1.
    apply offset_logs_running; [lia | lia | exact Hwf]. }
  assert (Hloop : merge_loop logs 0 [] = concat shifted).
  { rewrite merge_loop_concat, Hoff. reflexivity. }
  split; [exact Hoff |]. split; [exact Hloop |].
  split; [apply shifted_distinct; exact Hwf |].
  split.
  { unfold mergeDownloaded. destruct logs as [| o [| o2 rest]].
    - reflexivity.
    - subst shifted. cbn [running_offsets zip_with concat].
      rewrite shift_zero, app_nil_r. reflexivity.
    - rewrite Hloop. reflexivity. }
  split; [unfold mainMerge_ops; rewrite Hloop; reflexivity |].
  split; [apply SortByStartTime_perm | apply SortByStartTime_sorted].
Qed.

Lemma small_logs_wf : Forall wf_log small_logs.
Proof.
  unfold small_logs, wf_log. repeat constructor; cbn; lia.
Defined.

Lemma merge_threads_distinct_witness :
  let shifted := zip_with shift small_logs (running_offsets small_logs 0) in
  offset_logs small_logs 0 = shifted /\
  merge_loop small_logs 0 [] = concat shifted /\
  distinct_across shifted /\
  mergeDownloaded small_logs = SortByStartTime (concat shifted) /\
  mainMerge_ops small_logs =
    (if (length small_logs <=? 1)%nat then Fatal msg_two_files
     else if (length (concat shifted) =? 0)%nat then Ok (inr err_no_data)
     else Ok (inl (SortByStartTime (concat shifted)))) /\
  Permutation (SortByStartTime (concat shifted)) (concat shifted) /\
  sorted_by_start (SortByStartTime (concat shifted)).
Proof.
  apply (merge_threads_distinct small_logs small_logs_wf).
  vm_compute. discriminate.
Defined.

(** The merged thread ids of the example: 0,1 then 2 then 3..5. *)
Example merge_small_logs :
  map (fun op => (Start op, Thread op)) (mergeDownloaded small_logs)
  = [(10, 0); (11, 5); (12, 2); (13, 3); (14, 1)].
Proof. vm_compute. reflexivity. Qed.

(** C5 as stated fails once the running offset leaves the 16-bit range:
    with thread ids 0 and 65535 in the first log the offset for the second
    log wraps to 0, and its thread 0 coincides with thread 0 of the
    first. *)
Lemma merge_threads_collide :
  Forall wf_log wrap_logs /\
  offset_logs wrap_logs 0 = wrap_logs /\
  (exists a b,
     In a (nth 0 (offset_logs wrap_logs 0) []) /\
     In b (nth 1 (offset_logs wrap_logs 0) []) /\
     Thread a = Thread b) /\
  map (fun op => (Start op, Thread op)) (mergeDownloaded wrap_logs)
  = [(10, 0); (11, 65535); (12, 0)] /\
  ~ distinct_across (offset_logs wrap_logs 0).
Proof.
  split; [unfold wrap_logs, wf_log; repeat constructor; cbn; lia |].
  split; [vm_compute; reflexivity |].
  split.
  { exists (mk_op "GET" 0 10 20), (mk_op "GET" 0 12 22).
    split; [left; reflexivity |]. split; [left; reflexivity | reflexivity]. }
  split; [vm_compute; reflexivity |].
  intros Hd.
  apply (Hd 0%nat 1%nat (mk_op "GET" 0 10 20) (mk_op "GET" 0 12 22)
            [mk_op "GET" 0 10 20; mk_op "GET" 65535 11 21]
            [mk_op "GET" 0 12 22]).
  - discriminate.
  - reflexivity.
  - reflexivity.
  - left; reflexivity.
  - left; reflexivity.
  - reflexivity.
Qed.

End LogFacts.

(** ** Comparing two runs *)

Section CompareFacts.
Import Log Compare.

Variable Duration_String : Duration -> string.
Variable ParseDuration : string -> option Duration.
Variable Ops_Duration : Operations -> Duration.

Lemma OpTypes_from_present (o : Operations) :
  forall seen typ,
    In typ (OpTypes_from seen o) <->
    (exists op, In op o /\ OpType op = typ) /\ ~ In typ seen.
Proof.
  induction o as [| op o IH]; intros seen typ; cbn [OpTypes_from].
  - split; [intros [] | intros [[x [[] _]] _]].
  - destruct (existsb (String.eqb (OpType op)) seen) eqn:Hs.
    + apply existsb_exists in Hs as (t & Ht & Heq).
      apply String.eqb_eq in Heq. subst t.
      rewrite IH. split.
      * intros [[x [Hx Hty]] Hn]. split; [exists x; split; [right |]; auto | auto].
      * intros [[x [[-> | Hx] Hty]] Hn]; [subst typ; contradiction |].
        split; [exists x; auto | auto].
    + assert (Hnot : ~ In (OpType op) seen).
      { intros Hin. apply not_true_iff_false in Hs. apply Hs.
        apply existsb_exists. exists (OpType op).
        split; [exact Hin | apply String.eqb_refl]. }
      cbn [In]. rewrite IH. cbn [In]. split.
      * intros [<- | [[x [Hx Hty]] Hn]].
        -- split; [exists op; split; [left |]; reflexivity | exact Hnot].
        -- split; [exists x; split; [right |]; auto | tauto].
      * intros [[x [[-> | Hx] Hty]] Hn]; [left; exact Hty |].
        destruct (String.eqb_spec (OpType op) typ) as [E | E]; [left; exact E |].
        right. split; [exists x; auto | intros [H | H]; [exact (E H) | exact (Hn H)]].
Qed.

(** [OpTypes] lists the op-types present in the log. *)
Lemma OpTypes_present (o : Operations) (typ : string) :
  In typ (OpTypes o) <-> exists op, In op o /\ OpType op = typ.
Proof.
  unfold OpTypes. rewrite OpTypes_from_present. cbn [In]. tauto.
Qed.

Lemma compare_types_calls (ctx : Context) (before after : Operations)
    (isMultiOp : bool) (types : list string) :
  forall calls,
    compare_types Duration_String ParseDuration Ops_Duration
      ctx before after isMultiOp types = Ok calls ->
    map cc_typ calls = List.filter (selected ctx) types /\
    Forall (fun c =>
      cc_before c = FilterByOp before (cc_typ c) /\
      cc_after c = FilterByOp after (cc_typ c) /\
      Analyze.analysisDur Duration_String ParseDuration ctx
        (Ops_Duration (cc_before c)) = Ok (cc_dur c) /\
      cc_allThreads c = negb isMultiOp) calls.
Proof.
  induction types as [| typ rest IH]; intros calls Hrun;
    cbn [compare_types] in Hrun.
  - injection Hrun as <-. split; [reflexivity | constructor].
  - cbn [List.filter]. unfold selected at 1.
    destruct (String.eqb (ctx_String ctx "analyze.op") "") eqn:E1;
      destruct (String.eqb (ctx_String ctx "analyze.op") typ) eqn:E2;
      cbn [negb andb orb] in Hrun |- *;
      try (destruct (Analyze.analysisDur Duration_String ParseDuration ctx
                       (Ops_Duration (FilterByOp before typ))) as [d | msg] eqn:Hd;
           cbn [bind_result] in Hrun; [| discriminate Hrun];
           destruct (compare_types Duration_String ParseDuration Ops_Duration
                       ctx before after isMultiOp rest) as [cs | msg] eqn:Hcs;
           cbn [bind_result] in Hrun; [| discriminate Hrun];
           injection Hrun as <-;
           destruct (IH cs eq_refl) as [Hm Hf];
           split; [cbn; rewrite Hm; reflexivity |];
           constructor; [cbn; auto | exact Hf]).
    apply IH. exact Hrun.
Qed.

Lemma compare_types_returns (ctx : Context) (before after : Operations)
    (isMultiOp : bool) (types : list string) :
  (forall total, exists d,
     Analyze.analysisDur Duration_String ParseDuration ctx total = Ok d) ->
  exists calls,
    compare_types Duration_String ParseDuration Ops_Duration
      ctx before after isMultiOp types = Ok calls.
Proof.
  intros Htot. induction types as [| typ rest [cs IH]]; cbn [compare_types].
  - eauto.
  - destruct (negb (String.eqb (ctx_String ctx "analyze.op") "") &&
              negb (String.eqb (ctx_String ctx "analyze.op") typ)).
    + eauto.
    + destruct (Htot (Ops_Duration (FilterByOp before typ))) as [d Hd].
      rewrite Hd, IH. cbn. eauto.
Qed.

(** C6, as amended: the comparison ends the process when the two logs do
    not agree on being mixed; when they agree, one comparison is requested
    for each op-type present in the before log -- for the op-type named by
    [analyze.op] only, when that flag is set -- on the two logs filtered
    to that op-type, both at the one segment duration [analysisDur] gives
    for the duration of the filtered before log. *)
Theorem printCompare_calls (ctx : Context) (before after : Operations) :
  (IsMixed before <> IsMixed after ->
   printCompare Duration_String ParseDuration Ops_Duration ctx before after
     = Fatal msg_incomparable) /\
  (IsMixed before = IsMixed after ->
   forall calls,
     printCompare Duration_String ParseDuration Ops_Duration ctx before after
       = Ok calls ->
     (forall typ, In typ (map cc_typ calls) <->
        (exists op, In op before /\ OpType op = typ) /\ selected ctx typ = true) /\
     Forall (call_ok Duration_String ParseDuration Ops_Duration ctx before after)
       calls) /\
  (IsMixed before = IsMixed after ->
   (forall total, exists d,
      Analyze.analysisDur Duration_String ParseDuration ctx total = Ok d) ->
   exists calls,
     printCompare Duration_String ParseDuration Ops_Duration ctx before after
       = Ok calls).
Proof.
  unfold printCompare. split; [| split].
  - intros Hne.
    destruct (IsMixed before), (IsMixed after); cbn; congruence.
  - intros Heq calls Hrun. rewrite Heq, Bool.eqb_reflx in Hrun. cbn in Hrun.
    rewrite <- Heq in Hrun.
    destruct (compare_types_calls _ _ _ _ _ _ Hrun) as [Hm Hf].
    split.
    + intros typ. rewrite Hm, filter_In, OpTypes_present. reflexivity.
    + exact Hf.
  - intros Heq Htot. rewrite Heq, Bool.eqb_reflx. cbn.
    apply compare_types_returns. exact Htot.
Qed.

End CompareFacts.

(** C6 as stated fails on a mixed run: with [analyze.op] set to GET no
    comparison is requested for PUT although PUT is present in the before
    log; and without the flag the GET records are compared at 1 s and the
    PUT records at 15 s, each from the duration of its own records (100 s
    and 1 h), not at one duration chosen from the whole before log. *)
Lemma printCompare_skips_and_splits :
  Compare.IsMixed Compare.mixed_before = Compare.IsMixed Compare.mixed_after /\
  In "PUT" (Compare.OpTypes Compare.mixed_before) /\
  (exists calls,
     Compare.printCompare Analyze.String_hms Analyze.Parse_hms Compare.span
       Compare.ctx_cmp_get Compare.mixed_before Compare.mixed_after = Ok calls /\
     map Compare.cc_typ calls = ["GET"]) /\
  Compare.span Compare.mixed_before = Hour /\
  Analyze.analysisDur Analyze.String_hms Analyze.Parse_hms
    Compare.ctx_cmp_all (Compare.span Compare.mixed_before) = Ok (15 * Second) /\
  (exists calls,
     Compare.printCompare Analyze.String_hms Analyze.Parse_hms Compare.span
       Compare.ctx_cmp_all Compare.mixed_before Compare.mixed_after = Ok calls /\
     map (fun c => (Compare.cc_typ c, Compare.cc_dur c)) calls
       = [("GET", Second); ("PUT", 15 * Second)]).
Proof.
  split; [reflexivity |].
  split; [vm_compute; auto |].
  split; [eexists; split; [vm_compute; reflexivity | reflexivity] |].
  split; [vm_compute; reflexivity |].
  split; [vm_compute; reflexivity |].
  eexists; split; [vm_compute; reflexivity | reflexivity].
Qed.

(** ** Auto-termination and the three ways of running a benchmark *)

Section BenchFacts.
Import Bench.

Variable float64_div100 : float64 -> float64.

Lemma runClientBenchmark_common (ctx : Context) (c : Common) (w : clientWorld) :
  autoterm_as c (fst (runClientBenchmark ctx c w)).
Proof.
  intros a c' Hin Hc. unfold runClientBenchmark in Hin.
  destruct (wait_prepare_err w), (prepare_err w), (start_err w),
    (wait_cleanup_err w), (cleanup_wanted ctx); cbn in Hin;
    repeat (destruct Hin as [<- | Hin];
            [cbn in Hc; first [discriminate Hc
                              | injection Hc as <-; split; reflexivity] |]);
    destruct Hin.
Qed.

(** C7: on a follower and on the coordinator the benchmark never receives
    the [autoterm.dur] / [autoterm.pct] settings -- every configuration it
    is prepared and started with keeps the auto-termination fields the
    command built (zero: disabled), whatever the flags say -- and only the
    stand-alone path writes the two settings into the configuration. *)
Theorem autoterm_only_standalone (ctx : Context) (ab : bool) (c : Common)
    (w : clientWorld) (server_err local_prepare_err : option string) :
  (runBench_mode ctx ab = Follower <-> ab = true) /\
  (runBench_mode ctx ab = Coordinator <->
     ab = false /\ ctx_String ctx "warp-client" <> "") /\
  (runBench_mode ctx ab <> Standalone ->
   forall trace err,
     runBench float64_div100 ctx ab c w server_err local_prepare_err
       = Ok (trace, err) ->
     autoterm_as c trace) /\
  (runBench_mode ctx ab = Follower ->
   exists trace err,
     runBench float64_div100 ctx ab commandCommon w server_err local_prepare_err
       = Ok (trace, err) /\
     autoterm_as commandCommon trace /\
     AutoTermDur commandCommon = 0) /\
  (runBench_mode ctx ab = Standalone ->
   local_prepare_err = None ->
   exists trace,
     runBench float64_div100 ctx ab c w server_err local_prepare_err
       = Ok (trace, None) /\
     In (AStart (standaloneCommon float64_div100 ctx c)) trace /\
     autoterm_as (standaloneCommon float64_div100 ctx c) trace /\
     (ctx_Bool ctx "autoterm" = true ->
      AutoTermDur (standaloneCommon float64_div100 ctx c)
        = ctx_Duration ctx "autoterm.dur" /\
      AutoTermScale (standaloneCommon float64_div100 ctx c)
        = float64_div100 (ctx_Float64 ctx "autoterm.pct")) /\
     (ctx_Bool ctx "autoterm" = false ->
      AutoTermDur (standaloneCommon float64_div100 ctx c) = AutoTermDur c /\
      AutoTermScale (standaloneCommon float64_div100 ctx c) = AutoTermScale c)).
Proof.
  unfold runBench, runBench_mode.
  split; [| split; [| split; [| split]]].
  - destruct ab; [tauto |].
    destruct (String.eqb (ctx_String ctx "warp-client") ""); cbn;
      split; intros H; discriminate H.
  - destruct ab; [split; [discriminate | intros [H _]; discriminate H] |].
    destruct (String.eqb_spec (ctx_String ctx "warp-client") "") as [E | E]; cbn.
    + split; [discriminate | intros [_ H]; contradiction].
    + tauto.
  - intros Hmode trace err Hrun. destruct ab.
    + injection Hrun as Hrun.
      pose proof (runClientBenchmark_common ctx c w) as Hc.
      rewrite Hrun in Hc. exact Hc.
    + destruct (String.eqb (ctx_String ctx "warp-client") ""); cbn in *;
        [congruence |].
      destruct server_err; [discriminate Hrun |].
      injection Hrun as <- <-. intros a c' [].
  - intros Hmode.
    assert (ab = true) as -> by
      (destruct ab; [reflexivity |];
       destruct (String.eqb (ctx_String ctx "warp-client") "");
       discriminate Hmode).
    exists (fst (runClientBenchmark ctx commandCommon w)),
           (snd (runClientBenchmark ctx commandCommon w)).
    split; [rewrite <- surjective_pairing; reflexivity |].
    split; [apply runClientBenchmark_common | reflexivity].
  - intros Hmode ->. destruct ab; [discriminate Hmode |].
    destruct (String.eqb (ctx_String ctx "warp-client") ""); cbn in *;
      [| discriminate Hmode].
    eexists. split; [reflexivity |].
    split; [right; left; reflexivity |].
    split.
    + intros a c' Hin Hc.
      destruct (cleanup_wanted ctx); cbn in Hin;
        repeat (destruct Hin as [<- | Hin];
                [cbn in Hc; first [discriminate Hc
                                  | injection Hc as <-; split; reflexivity] |]);
        destruct Hin.
    + unfold standaloneCommon.
      split; intros ->; cbn; split; reflexivity.
Qed.

(** With [--autoterm] given: alone, the benchmark is started with the two
    settings; as a follower it is started with the fields at zero; as the
    coordinator it is not started at all. *)
Example autoterm_standalone_example :
  runBench float64_div100 ctx_autoterm false commandCommon quiet_world None None
  = Ok ([ APrepare {| Clear := true; AutoTermDur := 15 * Second;
                      AutoTermScale := float64_div100 4617315517961601024 |};
          AStart {| Clear := true; AutoTermDur := 15 * Second;
                    AutoTermScale := float64_div100 4617315517961601024 |};
          AWriteFile; ACleanup ], None).
Proof. vm_compute. reflexivity. Qed.

Example autoterm_follower_example :
  runBench float64_div100 ctx_autoterm true commandCommon quiet_world None None
  = Ok ([ AWaitStage stagePrepare;
          APrepare commandCommon;
          AStageDone stagePrepare None;
          AStart commandCommon;
          AStageDone stageBenchmark None;
          AWriteFile;
          AWaitStage stageCleanup;
          ACleanup;
          AStageDone stageCleanup None ], None).
Proof. vm_compute. reflexivity. Qed.

Example autoterm_coordinator_example :
  runBench float64_div100 ctx_autoterm_remote false commandCommon quiet_world
    None None
  = Ok ([], None).
Proof. vm_compute. reflexivity. Qed.

(** A follower goes through the stages in the order Prepare, Benchmark,
    Cleanup, stopping at the first that fails. *)
Lemma runClientBenchmark_stage_order (ctx : Context) (c : Common)
    (w : clientWorld) :
  exists rest,
    benchmarkStages = stages_done (fst (runClientBenchmark ctx c w)) ++ rest.
Proof.
  unfold runClientBenchmark.
  destruct (wait_prepare_err w), (prepare_err w), (start_err w),
    (wait_cleanup_err w), (cleanup_wanted ctx); cbn; eauto.
  all: exists []; reflexivity.
Qed.

End BenchFacts.


(** ** The coordinator's run *)

Section CoordinatorFacts.
Import Bench Log Coordinator.

(** *** Phases *)

Lemma all_done_Forall2 {A} (ms : list (M A)) (outs : list A) :
  all_done ms = Some outs <-> Forall2 (fun m out => m = ret out) ms outs.
Proof.
  revert outs. induction ms as [| m ms IH]; intros outs; cbn.
  - split; [intros [= <-]; constructor | intros H; inversion H; reflexivity].
  - destruct m as [[a | msg] |].
    + destruct (all_done ms) as [l |] eqn:E.
      * split.
        -- intros [= <-]. constructor; [reflexivity | apply IH; reflexivity].
        -- intros H. inversion H as [| ? ? ? ? Hm Hrest]; subst.
           injection Hm as <-. apply IH in Hrest. congruence.
      * split; [discriminate |].
        intros H. inversion H as [| ? ? ? ? Hm Hrest]; subst.
        apply IH in Hrest. discriminate Hrest.
    + split; [discriminate | intros H; inversion H; discriminate].
    + split; [discriminate | intros H; inversion H; discriminate].
Qed.

Lemma first_fatal_done {A} (ms : list (M A)) (outs : list A) :
  Forall2 (fun m out => m = ret out) ms outs -> first_fatal ms = None.
Proof.
  induction 1 as [| m out ms outs Hm _ IH]; cbn; [reflexivity |].
  subst m. exact IH.
Qed.


Lemma par_phase_done (step : hstep) (fs : list follower) (c c' : conns) :
  par_phase step fs c = ret c' <->
  exists outs,
    Forall2 (fun m out => m = ret out) (zip_with step fs (ws c)) outs /\
    c' = {| ws := map fst outs; phases := phases c ++ [map snd outs] |}.
Proof.
  unfold par_phase. split.
  - destruct (first_fatal (zip_with step fs (ws c))); [discriminate |].
    destruct (all_done (zip_with step fs (ws c))) as [outs |] eqn:E;
      [| discriminate].
    intros [= <-]. exists outs. split; [apply all_done_Forall2; exact E | reflexivity].
  - intros (outs & Hall & ->).
    rewrite (first_fatal_done _ _ Hall).
    apply all_done_Forall2 in Hall. rewrite Hall. reflexivity.
Qed.


(** What a phase does to connection [i]. *)
Lemma par_phase_host (step : hstep) (fs : list follower) (c c' : conns)
    (i : nat) (f : follower) (conn : bool) :
  par_phase step fs c = ret c' ->
  length (ws c) = length fs ->
  fs !! i = Some f -> ws c !! i = Some conn ->
  length (ws c') = length fs /\
  exists out,
    step f conn = ret out /\
    ws c' !! i = Some (fst out) /\
    host_trace i c' = host_trace i c ++ snd out.
Proof.
  intros Hp Hlen Hf Hc. apply par_phase_done in Hp as (outs & Hall & ->).
  cbn [ws phases].
  pose proof (Forall2_length _ _ _ Hall) as Hl.
  rewrite length_zip_with, Hlen, Nat.min_id in Hl.
  split; [rewrite length_map; lia |].
  assert (Hz : zip_with step fs (ws c) !! i = Some (step f conn)).
  { apply lookup_zip_with_Some. exists f, conn. auto. }
  destruct (Forall2_lookup_l _ _ _ _ _ Hall Hz) as (out & Hout & Hstep).
  exists out. split; [exact Hstep |].
  split; [rewrite list_lookup_fmap, Hout; reflexivity |].
  unfold host_trace. cbn [phases].
  rewrite map_app, concat_app. cbn [map concat]. rewrite app_nil_r.
  f_equal. rewrite nth_lookup, list_lookup_fmap, Hout. reflexivity.
Qed.

Lemma par_phase_global (step : hstep) (fs : list follower) (c c' : conns) :
  par_phase step fs c = ret c' ->
  exists outs,
    Forall2 (fun m out => m = ret out) (zip_with step fs (ws c)) outs /\
    global_trace c' = global_trace c ++ concat (map snd outs).
Proof.
  intros Hp. apply par_phase_done in Hp as (outs & Hall & ->).
  exists outs. split; [exact Hall |].
  unfold global_trace. cbn [phases].
  rewrite map_app, concat_app. cbn [map concat]. rewrite app_nil_r. reflexivity.
Qed.

Lemma run_steps_app (a b : list hstep) (fs : list follower) (c : conns) :
  run_steps (a ++ b) fs c = (c' <- run_steps a fs c ;; run_steps b fs c').
Proof.
  revert c. induction a as [| s a IH]; intros c; cbn; [reflexivity |].
  destruct (par_phase s fs c) as [[c1 | msg] |]; cbn; auto.
Qed.

Lemma host_run_acc (ss : list hstep) (f : follower) :
  forall conn evs,
    host_run ss f conn evs =
    (r <- host_run ss f conn [] ;; ret (fst r, evs ++ snd r)).
Proof.
  induction ss as [| s ss IH]; intros conn evs; cbn.
  - rewrite app_nil_r. reflexivity.
  - destruct (s f conn) as [[[conn' evs'] | msg] |]; cbn; [| reflexivity ..].
    rewrite (IH conn' (evs ++ evs')), (IH conn' evs').
    destruct (host_run ss f conn' []) as [[[c2 e2] | msg] |]; cbn;
      [rewrite app_assoc |..]; reflexivity.
Qed.

(** A run that returns did, on every connection, what the steps do on
    that connection alone. *)
Lemma run_steps_host (ss : list hstep) (fs : list follower) :
  forall c c' i f conn,
    run_steps ss fs c = ret c' ->
    length (ws c) = length fs ->
    fs !! i = Some f -> ws c !! i = Some conn ->
    length (ws c') = length fs /\
    exists conn',
      ws c' !! i = Some conn' /\
      host_run ss f conn (host_trace i c) = ret (conn', host_trace i c').
Proof.
  induction ss as [| s ss IH]; intros c c' i f conn Hrun Hlen Hf Hc; cbn in Hrun.
  - injection Hrun as <-. split; [exact Hlen |]. exists conn. auto.
  - destruct (par_phase s fs c) as [[c1 | msg] |] eqn:Hp; cbn in Hrun;
      try discriminate Hrun.
    destruct (par_phase_host _ _ _ _ i f conn Hp Hlen Hf Hc)
      as (Hlen1 & out & Hstep & Hws1 & Htr1).
    destruct (IH c1 c' i f (fst out) Hrun Hlen1 Hf Hws1)
      as (Hlen' & conn' & Hws' & Hhost).
    split; [exact Hlen' |]. exists conn'. split; [exact Hws' |].
    cbn [host_run]. rewrite Hstep. cbn. rewrite <- Htr1. exact Hhost.
Qed.

(** Conversely, the run returns as soon as the steps return on every
    connection taken alone. *)
Lemma run_steps_returns (ss : list hstep) (fs : list follower) :
  forall c,
    length (ws c) = length fs ->
    (forall i f conn, fs !! i = Some f -> ws c !! i = Some conn ->
       exists out, host_run ss f conn [] = ret out) ->
    exists c', run_steps ss fs c = ret c'.
Proof.
  induction ss as [| s ss IH]; intros c Hlen Hall; cbn; [eauto |].
  assert (Hstep : exists outs,
            Forall2 (fun m out => m = ret out) (zip_with s fs (ws c)) outs).
  { clear IH. revert Hlen Hall. generalize (ws c) as l.
    induction fs as [| f fs IHfs]; intros l Hlen Hall.
    - exists []. destruct l; constructor.
    - destruct l as [| conn l]; [discriminate Hlen |].
      destruct (Hall 0%nat f conn eq_refl eq_refl) as [out Hout].
      cbn [host_run] in Hout.
      destruct (s f conn) as [[o | msg] |] eqn:Hs; cbn in Hout;
        try discriminate Hout.
      destruct (IHfs l) as [outs Houts].
      + cbn in Hlen. lia.
      + intros i f' conn' Hf' Hc'. apply (Hall (S i) f' conn'); assumption.
      + exists (o :: outs). cbn. constructor; [exact Hs | exact Houts]. }
  destruct Hstep as [outs Houts].
  assert (Hp : par_phase s fs c =
               ret {| ws := map fst outs; phases := phases c ++ [map snd outs] |}).
  { apply par_phase_done. eauto. }
  rewrite Hp. cbn.
  apply IH.
  - cbn [ws]. rewrite length_map.
    pose proof (Forall2_length _ _ _ Houts) as Hl.
    rewrite length_zip_with, Hlen, Nat.min_id in Hl. lia.
  - intros i f conn Hf Hc. cbn [ws] in Hc.
    rewrite list_lookup_fmap in Hc.
    destruct (outs !! i) as [out |] eqn:Hout; [| discriminate Hc].
    injection Hc as <-.
    assert (Hlt : (i < length (ws c))%nat).
    { rewrite Hlen. apply lookup_lt_Some in Hf. exact Hf. }
    destruct (lookup_lt_is_Some_2 _ _ Hlt) as [conn0 Hconn0].
    destruct (Hall i f conn0 Hf Hconn0) as [res Hres].
    cbn [host_run] in Hres.
    assert (Hz : zip_with s fs (ws c) !! i = Some (s f conn0)).
    { apply lookup_zip_with_Some. exists f, conn0. auto. }
    destruct (Forall2_lookup_l _ _ _ _ _ Houts Hz) as (out' & Hout' & Hs).
    rewrite Hout in Hout'. injection Hout' as <-.
    rewrite Hs in Hres. cbn in Hres.
    rewrite host_run_acc in Hres.
    destruct (host_run ss f (fst out) []) as [[r | msg] |]; cbn in Hres;
      try discriminate Hres.
    eauto.
Qed.

(** *** The steps, one connection at a time *)

Lemma stage_eqb_refl (s : benchmarkStage) : stage_eqb s s = true.
Proof. destruct s; reflexivity. Qed.


Lemma prun_app (st : pstate) (a b : list event) :
  prun st (a ++ b) =
  match prun st a with Some st' => prun st' b | None => None end.
Proof.
  revert st. induction a as [| ev a IH]; intros st; cbn; [reflexivity |].
  destruct (pstep st ev); [apply IH | reflexivity].
Qed.

Lemma stages_requested_app (a b : list event) :
  stages_requested (a ++ b) = stages_requested a ++ stages_requested b.
Proof.
  induction a as [| ev a IH]; cbn; [reflexivity |].
  destruct ev as [req out | | |]; try exact IH.
  destruct (Operation req); cbn; rewrite IH; reflexivity.
Qed.


Lemma sendBenchmark_spec (req : serverRequest) (f : follower) (conn : bool) :
  sendBenchmark req f conn =
  if rt_ok (on_benchmark f) then
    ret (true, [EvRoundTrip req (on_benchmark f); EvInfo InfoConnected])
  else match on_benchmark f with
       | RtErr _ => fatal msg_send
       | RtReply _ => fatal msg_client
       end.
Proof.
  unfold sendBenchmark, rt_ok. destruct (on_benchmark f) as [e | r]; [reflexivity |].
  destruct (reply_ok r); reflexivity.
Qed.

(** The events of a start request that fails without ending the run. *)
Lemma startStage_spec (stage : benchmarkStage) (t : Connect.Time)
    (failOnErr : bool) (f : follower) :
  startStage stage t failOnErr f true =
  if rt_ok (on_start f stage) then
    ret (true, [EvRoundTrip (startReq stage t) (on_start f stage);
                EvInfo (InfoStageRequested stage)])
  else if failOnErr then fatal msg_stage_start
  else ret (false,
            EvRoundTrip (startReq stage t) (on_start f stage) ::
            match on_start f stage with
            | RtErr e => [EvErrLn e]
            | RtReply r => [EvErrLn (reply_Err r); EvErrLn (reply_Err r)]
            end).
Proof.
  unfold startStage, rt_ok. cbn [negb].
  destruct (on_start f stage) as [e | r].
  - destruct failOnErr; reflexivity.
  - destruct (reply_ok r); [reflexivity |]. destruct failOnErr; reflexivity.
Qed.


Lemma poll_spec (stage : benchmarkStage) (failOnErr : bool)
    (answers : list rtOutcome) :
  forall evs,
    poll stage failOnErr answers evs =
    match poll_verdict answers with
    | VStuck => None
    | VFinished => ret (true, evs ++ poll_events stage answers)
    | VFailed =>
        if failOnErr then fatal msg_stage
        else ret (false, evs ++ poll_events stage answers)
    end.
Proof.
  induction answers as [| a rest IH]; intros evs; cbn; [reflexivity |].
  destruct a as [e | r]; [reflexivity |].
  destruct (reply_ok r); cbn; [| reflexivity].
  destruct (reply_Finished r); [reflexivity |].
  rewrite IH. destruct (poll_verdict rest); [| destruct failOnErr |];
    rewrite <- ?app_assoc; reflexivity.
Qed.

Lemma waitForStage_spec (stage : benchmarkStage) (failOnErr : bool)
    (f : follower) :
  waitForStage stage failOnErr f true =
  match poll_verdict (on_status f stage) with
  | VStuck => None
  | VFinished => ret (true, poll_events stage (on_status f stage))
  | VFailed =>
      if failOnErr then fatal msg_stage
      else ret (false, poll_events stage (on_status f stage))
  end.
Proof. unfold waitForStage. cbn [negb]. rewrite poll_spec. reflexivity. Qed.

Lemma poll_events_quiet (stage : benchmarkStage) (answers : list rtOutcome) :
  stages_requested (poll_events stage answers) = [] /\
  existsb is_sendops (poll_events stage answers) = false /\
  Forall (fun x => x = rank (statusReq stage))
    (ranks (poll_events stage answers)).
Proof.
  induction answers as [| a rest (IH1 & IH2 & IH3)]; cbn.
  - repeat split. constructor.
  - destruct a as [e | r]; [repeat split; repeat constructor |].
    destruct (reply_ok r); cbn; [| repeat split; repeat constructor].
    destruct (reply_Finished r); cbn; [repeat split; repeat constructor |].
    repeat split; [exact IH1 | exact IH2 | constructor; [reflexivity | exact IH3]].
Qed.

Lemma poll_events_finished (stage : benchmarkStage) (answers : list rtOutcome) :
  poll_verdict answers = VFinished ->
  prun (PRunning stage) (poll_events stage answers) = Some (PFinished stage) /\
  existsb is_errln (poll_events stage answers) = false /\
  existsb is_cleanup_finished (poll_events stage answers)
    = stage_eqb stage stageCleanup.
Proof.
  induction answers as [| a rest IH]; cbn; [discriminate |].
  destruct a as [e | r]; [discriminate |].
  destruct (reply_ok r) eqn:Hok; cbn; [| discriminate].
  destruct (reply_Finished r) eqn:Hfin; cbn.
  - intros _. rewrite stage_eqb_refl, Hok, Hfin. cbn.
    repeat split. destruct stage; reflexivity.
  - intros Hv. rewrite stage_eqb_refl, Hok, Hfin. cbn. exact (IH Hv).
Qed.

Lemma poll_events_failed (stage : benchmarkStage) (answers : list rtOutcome) :
  poll_verdict answers = VFailed ->
  prun (PRunning stage) (poll_events stage answers) = Some PDropped /\
  existsb is_errln (poll_events stage answers) = true /\
  existsb is_cleanup_finished (poll_events stage answers) = false.
Proof.
  induction answers as [| a rest IH]; cbn; [discriminate |].
  destruct a as [e | r].
  - intros _. cbn. rewrite stage_eqb_refl. cbn. repeat split.
  - destruct (reply_ok r) eqn:Hok; cbn.
    + destruct (reply_Finished r) eqn:Hfin; cbn; [discriminate |].
      intros Hv. rewrite stage_eqb_refl, Hok, Hfin. cbn. exact (IH Hv).
    + intros _. rewrite stage_eqb_refl, Hok. cbn. repeat split.
Qed.

(** *** Every connection follows the stage protocol *)












(** *** Phases follow one another *)








Lemma run_steps_cons_inv (s : hstep) (ss : list hstep) (fs : list follower)
    (c c' : conns) :
  run_steps (s :: ss) fs c = ret c' ->
  exists c1, par_phase s fs c = ret c1 /\ run_steps ss fs c1 = ret c'.
Proof.
  cbn [run_steps]. destruct (par_phase s fs c) as [[c1 | msg] |]; cbn;
    try discriminate. eauto.
Qed.


(** *** The whole run *)

Variable Duration_String : Duration -> string.
Variable Sprint_float64 : float64 -> string.

Lemma runServer_done (ctx : Context) (w : world) (s : summary) :
  runServerBenchmark Duration_String Sprint_float64 ctx w = ret (ServerDone s) ->
  exists flags c5,
    Forward.forwardedFlags Duration_String Sprint_float64 ctx = inl flags /\
    prof_err w = None /\
    run_steps (steps_run (benchmarkReq ctx flags) w) (followers w)
      (init_conns (followers w)) = ret c5 /\
    run_steps (steps_collect w) (followers w) c5 = ret (final s) /\
    downloaded s = downloadOps (followers w) c5 /\
    allOps s = mergeDownloaded (downloaded s).
Proof.
  unfold runServerBenchmark. intros Hrun.
  destruct (String.eqb (ctx_String ctx "warp-client") ""); [discriminate |].
  destruct (length (followers w) =? 0)%nat; [discriminate |].
  destruct (Forward.forwardedFlags Duration_String Sprint_float64 ctx)
    as [flags | e]; [| discriminate].
  destruct (par_phase (sendBenchmark _) _ _) as [[c1 | ?] |] eqn:E1;
    cbn [bindM] in Hrun; try discriminate.
  destruct (par_phase (startStage stagePrepare _ _) _ c1) as [[c2 | ?] |] eqn:E2;
    cbn [bindM] in Hrun; try discriminate.
  destruct (par_phase (waitForStage stagePrepare _) _ c2) as [[c3 | ?] |] eqn:E3;
    cbn [bindM] in Hrun; try discriminate.
  destruct (prof_err w); [discriminate |].
  destruct (par_phase (startStage stageBenchmark _ _) _ c3) as [[c4 | ?] |] eqn:E4;
    cbn [bindM] in Hrun; try discriminate.
  destruct (par_phase (waitForStage stageBenchmark _) _ c4) as [[c5 | ?] |] eqn:E5;
    cbn [bindM] in Hrun; try discriminate.
  destruct (par_phase downloadStep _ c5) as [[c6 | ?] |] eqn:E6;
    cbn [bindM] in Hrun; try discriminate.
  destruct (par_phase (startStage stageCleanup _ _) _ c6) as [[c7 | ?] |] eqn:E7;
    cbn [bindM] in Hrun; try discriminate.
  destruct (par_phase (waitForStage stageCleanup _) _ c7) as [[c8 | ?] |] eqn:E8;
    cbn [bindM] in Hrun; try discriminate.
  destruct (par_phase closeStep _ c8) as [[c9 | ?] |] eqn:E9;
    cbn [bindM] in Hrun; try discriminate.
  injection Hrun as <-. exists flags, c5. cbn [final downloaded allOps].
  unfold steps_run, steps_collect. cbn [run_steps].
  rewrite E1. cbn [bindM]. rewrite E2. cbn [bindM]. rewrite E3. cbn [bindM].
  rewrite E4. cbn [bindM]. rewrite E5. cbn [bindM]. rewrite E6. cbn [bindM].
  rewrite E7. cbn [bindM]. rewrite E8. cbn [bindM]. rewrite E9. cbn [bindM].
  repeat (split; [reflexivity |]). reflexivity.
Qed.

Lemma runServer_intro (ctx : Context) (w : world)
    (flags : gmap string string) (c5 c9 : conns) :
  ctx_String ctx "warp-client" <> "" ->
  followers w <> [] ->
  Forward.forwardedFlags Duration_String Sprint_float64 ctx = inl flags ->
  prof_err w = None ->
  run_steps (steps_run (benchmarkReq ctx flags) w) (followers w)
    (init_conns (followers w)) = ret c5 ->
  run_steps (steps_collect w) (followers w) c5 = ret c9 ->
  runServerBenchmark Duration_String Sprint_float64 ctx w =
  ret (ServerDone {| final := c9;
                     downloaded := downloadOps (followers w) c5;
                     allOps := mergeDownloaded (downloadOps (followers w) c5) |}).
Proof.
  intros Hc Hfs Hflags Hprof H5 H9.
  unfold runServerBenchmark.
  destruct (String.eqb_spec (ctx_String ctx "warp-client") ""); [contradiction |].
  destruct (followers w) as [| f0 fs0] eqn:Efs; [contradiction |].
  cbn [length Nat.eqb]. rewrite Hflags, Hprof.
  unfold steps_run in H5. unfold steps_collect in H9.
  repeat (apply run_steps_cons_inv in H5 as (? & -> & H5); cbn [bindM ret]).
  injection H5 as ->.
  repeat (apply run_steps_cons_inv in H9 as (? & -> & H9); cbn [bindM ret]).
  injection H9 as ->. reflexivity.
Qed.

Lemma init_conns_lookup (fs : list follower) (i : nat) (f : follower) :
  fs !! i = Some f ->
  ws (init_conns fs) !! i = Some false /\
  length (ws (init_conns fs)) = length fs /\
  host_trace i (init_conns fs) = [].
Proof.
  intros Hf. unfold init_conns. cbn [ws].
  rewrite list_lookup_fmap, Hf, length_map. auto.
Qed.


(** *** What a follower's failure does to the run *)


Lemma stage_verdict_finished (f : follower) (s : benchmarkStage) :
  stage_verdict f s = VFinished ->
  rt_ok (on_start f s) = true /\ poll_verdict (on_status f s) = VFinished.
Proof.
  unfold stage_verdict. destruct (rt_ok (on_start f s)); [auto | discriminate].
Qed.

Ltac trace_facts :=
  repeat first
    [ rewrite stages_requested_app
    | rewrite existsb_app
    | rewrite prun_app
    | match goal with H : _ = _ |- _ => rewrite H end
    | progress cbn [stages_requested existsb prun pstep is_errln is_sendops
                    is_cleanup_finished Operation Stage rt_ok rt_finished
                    next_stage stage_eqb orb andb negb startReq statusReq
                    sendOpsReq app is_finished is_failed] ].

(** The run of a connection up to the end of the Benchmark stage. *)
Lemma host_run_steps_run (req : serverRequest) (w : world) (f : follower) :
  Operation req = serverReqBenchmark ->
  rt_ok (on_benchmark f) = true ->
  stage_verdict f stagePrepare = VFinished ->
  stage_verdict f stageBenchmark <> VStuck ->
  exists evs,
    host_run (steps_run req w) f false [] =
      ret (is_finished (stage_verdict f stageBenchmark), evs) /\
    stages_requested evs = [stagePrepare; stageBenchmark] /\
    existsb is_sendops evs = false /\
    existsb is_cleanup_finished evs = false /\
    existsb is_errln evs = is_failed (stage_verdict f stageBenchmark) /\
    prun PNew evs =
      Some (if is_finished (stage_verdict f stageBenchmark)
            then PFinished stageBenchmark else PDropped).
Proof.
  intros Hop Hb Hp Hns.
  destruct (stage_verdict_finished _ _ Hp) as [Hsp Hvp]. clear Hp.
  destruct (poll_events_quiet stagePrepare (on_status f stagePrepare))
    as (Hq1 & Hq2 & _).
  destruct (poll_events_finished stagePrepare _ Hvp) as (Hr1 & He1 & Hc1).
  destruct (poll_events_quiet stageBenchmark (on_status f stageBenchmark))
    as (Hq3 & Hq4 & _).
  unfold steps_run. cbn [host_run].
  rewrite sendBenchmark_spec, Hb. cbn [bindM ret fst snd].
  rewrite startStage_spec, Hsp. cbn [bindM ret fst snd].
  rewrite waitForStage_spec, Hvp. cbn [bindM ret fst snd].
  rewrite startStage_spec. unfold stage_verdict in *.
  destruct (rt_ok (on_start f stageBenchmark)) eqn:Hsb;
    cbn [bindM ret fst snd].
  - rewrite waitForStage_spec.
    destruct (poll_verdict (on_status f stageBenchmark)) eqn:Hvb;
      [| | congruence]; cbn [bindM ret fst snd is_finished is_failed].
    + destruct (poll_events_finished stageBenchmark _ Hvb) as (Hr2 & He2 & Hc2).
      eexists. split; [reflexivity |]. clear Hns Hvp Hvb.
      repeat split; trace_facts; reflexivity.
    + destruct (poll_events_failed stageBenchmark _ Hvb) as (Hr2 & He2 & Hc2).
      eexists. split; [reflexivity |]. clear Hns Hvp Hvb.
      repeat split; trace_facts; reflexivity.
  - cbn [is_finished is_failed waitForStage negb bindM ret fst snd].
    eexists. split; [reflexivity |]. clear Hns Hvp.
    destruct (on_start f stageBenchmark) as [e | r]; cbn [rt_ok] in Hsb;
      [clear Hsb |]; repeat split; trace_facts; reflexivity.
Qed.

Lemma host_run_collect_dropped (w : world) (f : follower) (evs : list event) :
  host_run (steps_collect w) f false evs = ret (false, evs).
Proof. cbn. rewrite !app_nil_r. reflexivity. Qed.

Lemma host_run_collect_returns (w : world) (f : follower) (evs : list event) :
  stage_verdict f stageCleanup <> VStuck ->
  exists out, host_run (steps_collect w) f true evs = ret out.
Proof.
  intros Hns. unfold steps_collect. cbn [host_run].
  unfold downloadStep, downloadOne. cbn [negb].
  destruct (on_sendops f) as [e | r].
  - cbn. eauto.
  - assert (Hgo : forall evs1,
              exists out,
                host_run [startStage stageCleanup (now_cleanup w) false;
                          waitForStage stageCleanup false; closeStep]
                  f true evs1 = ret out).
    { intros evs1. cbn [host_run]. rewrite startStage_spec.
      unfold stage_verdict in Hns.
      destruct (rt_ok (on_start f stageCleanup)); cbn [bindM ret fst snd].
      - rewrite waitForStage_spec.
        destruct (poll_verdict (on_status f stageCleanup)); [| | congruence];
          cbn; eauto.
      - cbn. eauto. }
    destruct (reply_ok r); cbn [bindM ret fst snd]; apply Hgo.
Qed.

Lemma host_run_collect_healthy (w : world) (f : follower) (evs : list event) :
  answers_sendops f = true ->
  stage_verdict f stageCleanup = VFinished ->
  exists new,
    host_run (steps_collect w) f true evs = ret (false, evs ++ new) /\
    stages_requested new = [stageCleanup] /\
    existsb is_sendops new = true /\
    existsb is_cleanup_finished new = true /\
    prun (PFinished stageBenchmark) new = Some PClosed.
Proof.
  intros Ha Hc.
  destruct (stage_verdict_finished _ _ Hc) as [Hsc Hvc].
  destruct (poll_events_quiet stageCleanup (on_status f stageCleanup))
    as (Hq1 & Hq2 & _).
  destruct (poll_events_finished stageCleanup _ Hvc) as (Hr & He & Hcf).
  cbn [stage_eqb] in Hcf.
  unfold steps_collect. cbn [host_run].
  unfold downloadStep, downloadOne, answers_sendops in *. cbn [negb].
  destruct (on_sendops f) as [e | r]; [discriminate Ha |].
  clear Ha Hc.
  destruct (reply_ok r); cbn [bindM ret fst snd];
    rewrite startStage_spec, Hsc; cbn [bindM ret fst snd];
    rewrite waitForStage_spec, Hvc;
    cbn [bindM ret fst snd closeStep];
    (eexists; split; [rewrite <- !app_assoc; reflexivity |]);
    clear Hvc;
    repeat split; trace_facts; reflexivity.
Qed.






Lemma ws_after_benchmark (req : serverRequest) (w : world)
    (fs : list follower) (c5 : conns) :
  Operation req = serverReqBenchmark ->
  Forall responsive fs ->
  run_steps (steps_run req w) fs (init_conns fs) = ret c5 ->
  ws c5 = map (fun f => is_finished (stage_verdict f stageBenchmark)) fs.
Proof.
  intros Hop Hresp Hrun.
  assert (Hlen : length (ws c5) = length fs).
  { destruct fs as [| f0 fs0] eqn:Efs.
    - unfold steps_run in Hrun.
      repeat (apply run_steps_cons_inv in Hrun as (? & Hp & Hrun);
              apply par_phase_done in Hp as (? & Hall & ->);
              cbn in Hall; inversion Hall; subst; cbn [ws map] in *).
      injection Hrun as <-. reflexivity.
    - assert (H0 : (f0 :: fs0) !! 0%nat = Some f0) by reflexivity.
      destruct (init_conns_lookup _ _ _ H0) as (Hw0 & Hl0 & _).
      exact (proj1 (run_steps_host _ _ _ _ 0%nat f0 false Hrun Hl0 H0 Hw0)). }
  apply list_eq. intros i. rewrite list_lookup_fmap.
  destruct (fs !! i) as [f |] eqn:Hf; cbn.
  - destruct (init_conns_lookup _ _ _ Hf) as (Hw0 & Hl0 & Ht0).
    destruct (run_steps_host _ _ _ _ i f false Hrun Hl0 Hf Hw0)
      as (_ & conn' & Hw & Hhost).
    rewrite Ht0 in Hhost.
    rewrite List.Forall_forall in Hresp.
    assert (Hin : In f fs).
    { apply list_elem_of_In, list_elem_of_lookup. eauto. }
    destruct (Hresp f Hin) as (Hb & Hp & Hns).
    destruct (host_run_steps_run req w f Hop Hb Hp (Hns stageBenchmark))
      as (evs & Hex & _).
    rewrite Hex in Hhost. injection Hhost as <- _. exact Hw.
  - apply lookup_ge_None. apply lookup_ge_None in Hf. lia.
Qed.

Lemma downloadOne_collected (f : follower) :
  snd (downloadOne f (is_finished (stage_verdict f stageBenchmark)))
  = collected f.
Proof.
  unfold downloadOne, collected.
  destruct (is_finished (stage_verdict f stageBenchmark)); cbn [negb];
    [| reflexivity].
  destruct (on_sendops f) as [e | r]; [reflexivity |].
  destruct (reply_ok r); reflexivity.
Qed.

Lemma omap_cons_eq {A B} (g : A -> option B) (a : A) (l : list A) :
  omap g (a :: l) =
  match g a with Some y => y :: omap g l | None => omap g l end.
Proof. reflexivity. Qed.

Lemma omap_id_map {A B} (g : A -> option B) (l : list A) :
  omap (fun x => x) (map g l) = omap g l.
Proof.
  induction l as [| a l IH]; [reflexivity |].
  cbn [map]. rewrite !omap_cons_eq, IH. reflexivity.
Qed.

Lemma downloadOps_collected (fs : list follower) (c : conns) :
  ws c = map (fun f => is_finished (stage_verdict f stageBenchmark)) fs ->
  downloadOps fs c = omap collected fs.
Proof.
  unfold downloadOps. intros ->.
  rewrite <- (omap_id_map collected fs). f_equal.
  induction fs as [| f fs IH]; [reflexivity |].
  cbn [map zip_with]. rewrite IH, downloadOne_collected. reflexivity.
Qed.

(** A follower that fails or is lost during Benchmark is dropped, and
    the run goes on with the others. *)
Lemma benchmark_failure_tolerated (ctx : Context) (w : world)
    (flags : gmap string string) :
  ctx_String ctx "warp-client" <> "" ->
  Forward.forwardedFlags Duration_String Sprint_float64 ctx = inl flags ->
  followers w <> [] ->
  prof_err w = None ->
  Forall responsive (followers w) ->
  exists s,
    runServerBenchmark Duration_String Sprint_float64 ctx w
      = ret (ServerDone s) /\
    downloaded s = omap collected (followers w) /\
    forall i f,
      followers w !! i = Some f ->
      (stage_verdict f stageBenchmark = VFailed ->
       dropped_in_benchmark f (host_trace i (final s))) /\
      (stage_verdict f stageBenchmark = VFinished ->
       answers_sendops f = true ->
       stage_verdict f stageCleanup = VFinished ->
       completed (host_trace i (final s))).
Proof.
  intros Hc Hflags Hne Hprof Hresp.
  set (fs := followers w) in *.
  set (req := benchmarkReq ctx flags).
  assert (Hop : Operation req = serverReqBenchmark) by reflexivity.
  pose proof Hresp as Hresp'. rewrite List.Forall_forall in Hresp'.
  assert (Hin : forall i f, fs !! i = Some f -> In f fs).
  { intros i f Hf. apply list_elem_of_In, list_elem_of_lookup. eauto. }
  (* the phases up to the end of Benchmark return *)
  destruct (run_steps_returns (steps_run req w) fs (init_conns fs)) as [c5 H5].
  { unfold init_conns. cbn [ws]. apply length_map. }
  { intros i f conn Hf Hw.
    destruct (init_conns_lookup _ _ _ Hf) as (Hw0 & _ & _).
    rewrite Hw0 in Hw. injection Hw as <-.
    destruct (Hresp' f (Hin i f Hf)) as (Hb & Hp & Hns).
    destruct (host_run_steps_run req w f Hop Hb Hp (Hns stageBenchmark))
      as (evs & Hex & _).
    eauto. }
  pose proof (ws_after_benchmark req w fs c5 Hop Hresp H5) as Hws5.
  assert (Hl5 : length (ws c5) = length fs) by (rewrite Hws5; apply length_map).
  (* and so do the download, Cleanup and the closing *)
  destruct (run_steps_returns (steps_collect w) fs c5 Hl5) as [c9 H9].
  { intros i f conn Hf _.
    destruct (Hresp' f (Hin i f Hf)) as (_ & _ & Hns).
    destruct conn.
    - apply host_run_collect_returns. apply Hns.
    - rewrite host_run_collect_dropped. eauto. }
  eexists. split; [exact (runServer_intro ctx w flags c5 c9 Hc Hne Hflags Hprof H5 H9) |].
  cbn [final downloaded].
  split; [apply downloadOps_collected; exact Hws5 |].
  intros i f Hf.
  destruct (Hresp' f (Hin i f Hf)) as (Hb & Hp & Hns).
  destruct (init_conns_lookup _ _ _ Hf) as (Hw0 & Hl0 & Ht0).
  destruct (run_steps_host _ _ _ _ i f false H5 Hl0 Hf Hw0)
    as (_ & conn5 & Hw5 & Hh5).
  rewrite Ht0 in Hh5.
  destruct (host_run_steps_run req w f Hop Hb Hp (Hns stageBenchmark))
    as (evs & Hex & Hst & Hso & Hcf & Hel & Hpr).
  rewrite Hex in Hh5. injection Hh5 as <- Htr5.
  destruct (run_steps_host _ _ _ _ i f _ H9 Hl5 Hf Hw5)
    as (_ & conn9 & _ & Hh9).
  rewrite <- Htr5 in Hh9.
  split.
  - intros Hv. rewrite Hv in *. cbn [is_finished is_failed] in *.
    rewrite host_run_collect_dropped in Hh9. injection Hh9 as _ <-.
    unfold dropped_in_benchmark, collected. rewrite Hv. cbn [is_finished].
    auto.
  - intros Hv Ha Hcl. rewrite Hv in *. cbn [is_finished is_failed] in *.
    destruct (host_run_collect_healthy w f evs Ha Hcl)
      as (new & Hrun & Hst' & Hso' & Hcf' & Hpr').
    rewrite Hrun in Hh9. injection Hh9 as _ <-.
    unfold completed.
    rewrite stages_requested_app, !existsb_app, prun_app.
    rewrite Hst, Hst', Hso, Hso', Hcf, Hcf', Hpr, Hpr'.
    repeat split.
Qed.



End CoordinatorFacts.

Lemma example_world_responsive :
  Forall Coordinator.responsive (Coordinator.followers Coordinator.example_world).
Proof.
  repeat constructor; try (intros []; discriminate).
Qed.


(** On the example run the second part applies: the run completes, the
    logs of the first and third followers are downloaded, the second
    follower is dropped. *)
Lemma example_run_policy :
  exists s,
    Coordinator.runServerBenchmark Analyze.String_hms (fun _ => "")
      Coordinator.ctx_remote Coordinator.example_world
      = Coordinator.ret (Coordinator.ServerDone s) /\
    Coordinator.downloaded s
      = [ [Log.mk_op "GET" 0 10 20; Log.mk_op "GET" 1 11 21];
          [Log.mk_op "GET" 0 13 23] ] /\
    Coordinator.completed (Coordinator.host_trace 0 (Coordinator.final s)) /\
    Coordinator.dropped_in_benchmark (Coordinator.failing_benchmark
                                        [Log.mk_op "GET" 0 12 22])
      (Coordinator.host_trace 1 (Coordinator.final s)) /\
    Coordinator.completed (Coordinator.host_trace 2 (Coordinator.final s)).
Proof.
  destruct (benchmark_failure_tolerated Analyze.String_hms (fun _ => "")
              Coordinator.ctx_remote Coordinator.example_world
              Coordinator.example_flags)
    as (s & Hrun & Hd & Hhosts);
    [vm_compute; discriminate | vm_compute; reflexivity | discriminate
    | reflexivity | exact example_world_responsive |].
  exists s. split; [exact Hrun |]. split; [rewrite Hd; reflexivity |].
  split; [| split].
  - apply (Hhosts 0%nat _ eq_refl); reflexivity.
  - apply (Hhosts 1%nat _ eq_refl); reflexivity.
  - apply (Hhosts 2%nat _ eq_refl); reflexivity.
Qed.


(** The example run: the second follower fails during Benchmark; it is
    asked for Prepare and Benchmark only and its log is left out, the two
    others go through the three stages and their logs are merged. *)
Example example_run_stages :
  map (fun i => Coordinator.stages_requested
                  (Coordinator.host_trace i
                     (Coordinator.final Coordinator.example_summary)))
      [0; 1; 2]%nat
  = [ [Bench.stagePrepare; Bench.stageBenchmark; Bench.stageCleanup];
      [Bench.stagePrepare; Bench.stageBenchmark];
      [Bench.stagePrepare; Bench.stageBenchmark; Bench.stageCleanup] ] /\
  map (fun op => (Log.Start op, Log.Thread op))
      (Coordinator.allOps Coordinator.example_summary)
  = [(10, 0); (11, 1); (13, 2)] /\
  Coordinator.ranks
    (Coordinator.global_trace (Coordinator.final Coordinator.example_summary))
  = [0; 0; 0; 1; 1; 1; 2; 2; 2; 2; 2; 3; 3; 3; 4; 4; 4; 4; 4; 4; 5; 5;
     6; 6; 7; 7; 7; 7]%nat.
Proof. vm_compute. repeat split; reflexivity. Qed.

(** A follower lost during Prepare ends the run. *)
Example example_prepare_fatal :
  Coordinator.runServerBenchmark Analyze.String_hms (fun _ => "")
    Coordinator.ctx_remote
    (Coordinator.world_of
       [Coordinator.healthy 1 []; Coordinator.failing_prepare])
  = Coordinator.fatal Coordinator.msg_stage.
Proof. vm_compute. reflexivity. Qed.

(** ** The connection table *)

Section ConnectionsFacts.
Import Handshake Connect Connections.

(** X1: [connect] makes at most four tries (numbered 0 to 3) and stops at
    the first try that succeeds; it returns an error only when all four
    failed, and then the error is that of the fourth try. *)
Theorem connect_tries (host : string) (atts : nat -> attempt) :
  exists err k,
    connect host atts = Some (err, k) /\
    (k <= 3)%nat /\
    connectOnce host (atts k) = err /\
    (forall j, (j < k)%nat -> connectOnce host (atts j) <> None) /\
    (err <> None -> k = 3%nat).
Proof.
  unfold connect. cbn [connect_from Nat.eqb].
  destruct (connectOnce host (atts 0%nat)) as [e0 |] eqn:E0.
  2: { exists None, 0%nat. repeat split; [lia | exact E0 | lia | congruence]. }
  destruct (connectOnce host (atts 1%nat)) as [e1 |] eqn:E1.
  2: { exists None, 1%nat. repeat split; [lia | exact E1 | | congruence].
       intros j Hj. assert (j = 0%nat) as -> by lia. congruence. }
  destruct (connectOnce host (atts 2%nat)) as [e2 |] eqn:E2.
  2: { exists None, 2%nat. repeat split; [lia | exact E2 | | congruence].
       intros j Hj.
       assert (j = 0 \/ j = 1)%nat as [-> | ->] by lia; congruence. }
  assert (Hlt : forall j, (j < 3)%nat -> connectOnce host (atts j) <> None).
  { intros j Hj.
    assert (j = 0 \/ j = 1 \/ j = 2)%nat as [-> | [-> | ->]] by lia;
      congruence. }
  destruct (connectOnce host (atts 3%nat)) as [e3 |] eqn:E3.
  - exists (Some e3), 3%nat. repeat split; [lia | exact E3 | exact Hlt].
  - exists None, 3%nat. repeat split; [lia | exact E3 | exact Hlt].
Qed.

Lemma connect_at_spec (i : nat) (atts : nat -> attempt) (c : connections) :
  (i < length (ws c))%nat -> (i < length (hosts c))%nat ->
  exists err,
    connect_at i atts c =
    Returns (set_ws c (<[i := match err with None => true | Some _ => false end]>
                         (ws c)), err).
Proof.
  intros Hw Hh. unfold connect_at.
  destruct (lookup_lt_is_Some_2 _ _ Hh) as [host ->].
  destruct (lookup_lt_is_Some_2 _ _ Hw) as [b ->].
  destruct (connect_returns host atts) as [[[e |] k] ->];
    [exists (Some e) | exists None]; reflexivity.
Qed.

Lemma roundTrip_loop_spec (i : nat) (req : Coordinator.serverRequest)
    (script : list pass) :
  forall c log,
    (i < length (ws c))%nat -> (i < length (hosts c))%nat ->
    ws c !! i = Some true ->
    roundTrip_loop i req script c log <> Panics /\
    forall c' out log',
      roundTrip_loop i req script c log = Returns (c', out, log') ->
      hosts c' = hosts c /\ si c' = si c /\
      ws c' = <[i := is_reply out]> (ws c).
Proof.
  induction script as [| p rest IH]; intros c log Hw Hh Hi;
    cbn [roundTrip_loop]; [split; discriminate |].
  assert (Hre : forall atts e,
    match connect_at i atts c with
    | Returns (c', None) =>
        roundTrip_loop i req rest c' (log ++ [WriteJSON i req; ErrLn e])
    | Returns (c', Some _) =>
        Returns (c', inl (ErrIO e), log ++ [WriteJSON i req; ErrLn e])
    | Panics => Panics
    | Pending => Pending
    end <> Panics /\
    forall c' out log',
      match connect_at i atts c with
      | Returns (c', None) =>
          roundTrip_loop i req rest c' (log ++ [WriteJSON i req; ErrLn e])
      | Returns (c', Some _) =>
          Returns (c', inl (ErrIO e), log ++ [WriteJSON i req; ErrLn e])
      | Panics => Panics
      | Pending => Pending
      end = Returns (c', out, log') ->
      hosts c' = hosts c /\ si c' = si c /\
      ws c' = <[i := is_reply out]> (ws c)).
  { intros atts e.
    destruct (connect_at_spec i atts c Hw Hh) as [[ce |] ->].
    - split; [discriminate |]. intros c' out log' [= <- <- _].
      cbn. auto.
    - set (c1 := set_ws c (<[i := true]> (ws c))).
      destruct (IH c1 (log ++ [WriteJSON i req; ErrLn e])) as [Hnp Hret].
      + cbn. rewrite length_insert. exact Hw.
      + exact Hh.
      + cbn. apply list_lookup_insert_eq. exact Hw.
      + split; [exact Hnp |]. intros c' out log' Hrun.
        destruct (Hret c' out log' Hrun) as (H1 & H2 & H3).
        cbn in H1, H2, H3. rewrite list_insert_insert_eq in H3. auto. }
  destruct p as [e atts | e atts | r]; [apply Hre | apply Hre |].
  split; [discriminate |]. intros c' out log' [= <- <- _].
  cbn. rewrite list_insert_id by exact Hi. auto.
Qed.

(** X3: on a slot within the table [roundTrip] never panics, and when it
    returns it has changed nothing but the slot it was called on: the slot
    holds a connection when a reply is returned and is empty when an
    error is returned. *)
Theorem roundTrip_slot (i : nat) (req : Coordinator.serverRequest)
    (first : nat -> attempt) (script : list pass) (c : connections) :
  (i < length (ws c))%nat -> (i < length (hosts c))%nat ->
  roundTrip i req first script c <> Panics /\
  forall c' out log,
    roundTrip i req first script c = Returns (c', out, log) ->
    hosts c' = hosts c /\ si c' = si c /\
    ws c' = <[i := is_reply out]> (ws c).
Proof.
  intros Hw Hh. unfold roundTrip.
  destruct (lookup_lt_is_Some_2 _ _ Hw) as [b Hb]. rewrite Hb.
  destruct b; [exact (roundTrip_loop_spec i req script c [] Hw Hh Hb) |].
  destruct (connect_at_spec i first c Hw Hh) as [[ce |] ->].
  - split; [discriminate |]. intros c' out log [= <- <- _]. cbn. auto.
  - set (c1 := set_ws c (<[i := true]> (ws c))).
    destruct (roundTrip_loop_spec i req script c1 []) as [Hnp Hret].
    + cbn. rewrite length_insert. exact Hw.
    + exact Hh.
    + cbn. apply list_lookup_insert_eq. exact Hw.
    + split; [exact Hnp |]. intros c' out log Hrun.
      destruct (Hret c' out log Hrun) as (H1 & H2 & H3).
      cbn in H1, H2, H3. rewrite list_insert_insert_eq in H3. auto.
Qed.

Lemma closeAll_from_spec (n : nat) :
  forall i c,
    (i + n)%nat = length (ws c) ->
    hosts (fst (closeAll_from n i c)) = hosts c /\
    si (fst (closeAll_from n i c)) = si c /\
    ws (fst (closeAll_from n i c)) = take i (ws c) ++ replicate n false /\
    snd (closeAll_from n i c) =
      concat (imap (fun j => close_frames (i + j)) (drop i (ws c))).
Proof.
  induction n as [| n IH]; intros i c Hlen; cbn [closeAll_from].
  - cbn [fst snd replicate]. rewrite app_nil_r.
    rewrite take_ge, drop_ge by lia. auto.
  - assert (Hi : (i < length (ws c))%nat) by lia.
    destruct (lookup_lt_is_Some_2 _ _ Hi) as [b Hb]. rewrite Hb.
    rewrite (drop_S _ _ _ Hb), imap_cons. cbn [concat].
    assert (Hext : imap ((fun j => close_frames (i + j)) ∘ S)
                     (drop (S i) (ws c))
                   = imap (fun j => close_frames (S i + j))
                       (drop (S i) (ws c))).
    { apply imap_ext. intros j x _. cbn. f_equal. lia. }
    rewrite Hext, Nat.add_0_r.
    destruct b.
    + set (c1 := set_ws c (<[i := false]> (ws c))).
      destruct (IH (S i) c1) as (H1 & H2 & H3 & H4).
      { cbn. rewrite length_insert. lia. }
      cbn [fst snd]. rewrite H1, H2, H3, H4. cbn [c1 set_ws hosts si ws].
      repeat split.
      * assert (Hl : <[i := false]> (ws c) !! i = Some false)
          by (apply list_lookup_insert_eq; exact Hi).
        rewrite (take_S_r _ _ _ Hl), take_insert_ge by lia.
        rewrite <- app_assoc. reflexivity.
      * rewrite drop_insert_lt by lia. reflexivity.
    + destruct (IH (S i) c) as (H1 & H2 & H3 & H4); [lia |].
      rewrite H1, H2, H3, H4. repeat split.
      rewrite (take_S_r _ _ _ Hb), <- app_assoc. reflexivity.
Qed.

Lemma close_frames_none (l : list bool) :
  forall f : nat -> nat,
    Forall (fun b => b = false) l ->
    concat (imap (fun j => close_frames (f j)) l) = [].
Proof.
  induction l as [| b l IH]; intros f Hall; [reflexivity |].
  inversion Hall as [| ? ? Hb Hrest]; subst.
  rewrite imap_cons. cbn [concat close_frames app].
  exact (IH (fun j => f (S j)) Hrest).
Qed.

Lemma closeAll_frames (c : connections) :
  ws (fst (closeAll c)) = replicate (length (ws c)) false /\
  snd (closeAll c) = concat (imap close_frames (ws c)).
Proof.
  unfold closeAll.
  destruct (closeAll_from_spec (length (ws c)) 0 c eq_refl)
    as (_ & _ & H3 & H4).
  split; [exact H3 | exact H4].
Qed.

Lemma close_frames_replicate (n : nat) :
  concat (imap close_frames (replicate n false)) = [].
Proof.
  apply (close_frames_none _ (fun j => j)).
  apply List.Forall_forall. intros b Hb.
  apply list_elem_of_In, elem_of_replicate in Hb. tauto.
Qed.

(** X4: [closeAll] leaves every slot empty and keeps their number; it
    sends one disconnect request, followed by a close, to the slots that
    held a connection, in the order of the table, and nothing to the
    others; calling it again sends nothing.  [disconnect] does to one
    slot what [closeAll] does to each. *)
Theorem closeAll_spec (c : connections) :
  hosts (fst (closeAll c)) = hosts c /\
  si (fst (closeAll c)) = si c /\
  ws (fst (closeAll c)) = replicate (length (ws c)) false /\
  snd (closeAll c) = concat (imap close_frames (ws c)) /\
  snd (closeAll (fst (closeAll c))) = [] /\
  forall (i : nat) (b : bool),
    ws c !! i = Some b ->
    disconnect i c =
    Returns (set_ws c (<[i := false]> (ws c)),
             if b then InfoDisconnect i :: close_frames i true else []).
Proof.
  destruct (closeAll_frames c) as [H3 H4].
  destruct (closeAll_from_spec (length (ws c)) 0 c eq_refl)
    as (H1 & H2 & _ & _).
  fold (closeAll c) in H1, H2.
  repeat split; [exact H1 | exact H2 | exact H3 | exact H4 | |].
  - destruct (closeAll_frames (fst (closeAll c))) as [_ H5].
    rewrite H5, H3. apply close_frames_replicate.
  - intros i b Hb. unfold disconnect. rewrite Hb.
    destruct b; [reflexivity |].
    rewrite (list_insert_id _ _ _ Hb). destruct c; reflexivity.
Qed.

(** X5: the server info a coordinator builds for its followers always
    passes their [validate]: the id is a 20-character string and the
    version is the supported one; the table starts with one empty slot
    per host, so that closing it sends nothing. *)
Theorem newConnections_valid (seed : RandASCII.seed8) (hs : list string) :
  exists c,
    newConnections seed hs = Some c /\
    validate (si c) = None /\
    String.length (ID (si c)) = 20%nat /\
    hosts c = hs /\
    ws c = replicate (length hs) false /\
    snd (closeAll c) = [].
Proof.
  unfold newConnections, RandASCII.pRandASCII.
  destruct (Z.ltb_spec 20 0) as [Hneg | _]; [lia |].
  destruct (fill_good (Z.to_nat 20)
              (RandASCII.LittleEndian_Uint32
                 (RandASCII.s0 seed) (RandASCII.s1 seed)
                 (RandASCII.s2 seed) (RandASCII.s3 seed))
              (RandASCII.LittleEndian_Uint32
                 (RandASCII.s4 seed) (RandASCII.s5 seed)
                 (RandASCII.s6 seed) (RandASCII.s7 seed))
              (LittleEndian_Uint32_nonneg _ _ _ _)) as (cs & -> & Hlen & _).
  eexists. split; [reflexivity |]. cbn [si ID hosts ws].
  assert (Hl : String.length (string_of_list_ascii cs) = 20%nat).
  { rewrite length_string_of_list_ascii, Hlen. reflexivity. }
  repeat split.
  - unfold validate. cbn [ID Version].
    destruct (string_of_list_ascii cs); [discriminate Hl | reflexivity].
  - exact Hl.
  - set (c := {| hosts := hs; ws := replicate (length hs) false; si := _ |}).
    destruct (closeAll_frames c) as [_ H4]. rewrite H4.
    apply close_frames_replicate.
Qed.

End ConnectionsFacts.

Lemma roundTrip_slot_witness :
  (1 < length (Connections.ws Connections.table_example))%nat /\
  (1 < length (Connections.hosts Connections.table_example))%nat /\
  (Connections.roundTrip 1 Coordinator.sendOpsReq (fun _ => Connect.in_step)
     [Connections.WriteFails "broken pipe" (fun _ => Connections.refused)]
     Connections.table_example <> Connections.Panics /\
   forall c' out log,
     Connections.roundTrip 1 Coordinator.sendOpsReq (fun _ => Connect.in_step)
       [Connections.WriteFails "broken pipe" (fun _ => Connections.refused)]
       Connections.table_example = Connections.Returns (c', out, log) ->
     Connections.hosts c' = Connections.hosts Connections.table_example /\
     Connections.si c' = Connections.si Connections.table_example /\
     Connections.ws c' =
       <[1%nat := Connections.is_reply out]>
         (Connections.ws Connections.table_example)).
Proof.
  assert (H1 : (1 < length (Connections.ws Connections.table_example))%nat)
    by (cbn; lia).
  assert (H2 : (1 < length (Connections.hosts Connections.table_example))%nat)
    by (cbn; lia).
  exact (conj H1 (conj H2
           (roundTrip_slot 1 Coordinator.sendOpsReq (fun _ => Connect.in_step)
              [Connections.WriteFails "broken pipe"
                 (fun _ => Connections.refused)]
              Connections.table_example H1 H2))).
Defined.

(** A write that fails on the connected second slot, with a follower that
    refuses the reconnection: the write error comes back and the slot is
    emptied.  On the empty first slot, a follower in step is connected
    first and its reply handed back. *)
Example roundTrip_lost :
  Connections.roundTrip 1 Coordinator.sendOpsReq (fun _ => Connect.in_step)
    [Connections.WriteFails "broken pipe" (fun _ => Connections.refused)]
    Connections.table_example
  = Connections.Returns
      (Connections.set_ws Connections.table_example [false; false; false],
       inl (Connections.ErrIO "broken pipe"),
       [Connections.WriteJSON 1 Coordinator.sendOpsReq;
        Connections.ErrLn "broken pipe"]).
Proof. vm_compute. reflexivity. Qed.

Example roundTrip_connects :
  Connections.roundTrip 0 Coordinator.sendOpsReq (fun _ => Connect.in_step)
    [Connections.Replies
       {| Coordinator.reply_Err := ""; Coordinator.reply_Finished := true;
          Coordinator.reply_Ops := [] |}]
    Connections.table_example
  = Connections.Returns
      (Connections.set_ws Connections.table_example [true; true; false],
       inr {| Coordinator.reply_Err := ""; Coordinator.reply_Finished := true;
              Coordinator.reply_Ops := [] |},
       [Connections.WriteJSON 0 Coordinator.sendOpsReq]).
Proof. vm_compute. reflexivity. Qed.

Lemma connectOnce_sync_error_iff_witness :
  Connect.skew_of Connect.three_ahead <> minDuration /\
  (Connect.is_sync_error (Connect.connectOnce "follower" Connect.three_ahead)
     = true <->
   Connect.handshake_ok Connect.three_ahead = true /\
   Second < Z.abs (Connect.skew_of Connect.three_ahead)).
Proof.
  assert (H : Connect.skew_of Connect.three_ahead <> minDuration)
    by (vm_compute; discriminate).
  exact (conj H (connectOnce_sync_error_iff "follower" Connect.three_ahead H)).
Defined.



(** ** Generator options *)

Section GeneratorFacts.
Import Generator.

Lemma option_fails_unchanged (s : setting) (o : Options) :
  fst (option_of s o) <> None -> snd (option_of s o) = o.
Proof.
  destruct s as [n | b | n]; cbn [option_of];
    unfold WithSize, WithRandomSize, WithPrefixSize.
  - destruct (n <=? 0); [reflexivity |].
    destruct (randSize o && (totalSize o <? 256)); [reflexivity |].
    cbn. congruence.
  - destruct ((0 <? totalSize o) && (totalSize o <? 256)); [reflexivity |].
    cbn. congruence.
  - destruct (n <? 0); [reflexivity |].
    destruct (16 <? n); [reflexivity |]. cbn. congruence.
Qed.

Lemma option_keeps_bounds (s : setting) (o : Options) :
  0 < totalSize o -> 0 <= randomPrefix o <= 16 ->
  0 < totalSize (snd (option_of s o)) /\
  0 <= randomPrefix (snd (option_of s o)) <= 16.
Proof.
  intros Ht Hp.
  destruct s as [n | b | n]; cbn [option_of];
    unfold WithSize, WithRandomSize, WithPrefixSize.
  - destruct (Z.leb_spec n 0); [auto |].
    destruct (randSize o && (totalSize o <? 256)); cbn; auto.
  - destruct ((0 <? totalSize o) && (totalSize o <? 256)); cbn; auto.
  - destruct (Z.ltb_spec n 0); [auto |].
    destruct (Z.ltb_spec 16 n); cbn; [auto | split; [exact Ht | lia]].
Qed.

(** X9: whatever option functions are called on the default options, in
    whatever order and whether or not they fail, the total size stays
    positive and the prefix size stays within 0..16; a call that returns
    an error leaves the options as they were; and on such options
    [WithRandomSize] succeeds exactly when the size set is at least 256
    bytes, whether it switches random sizes on or off. *)
Theorem options_invariant (ss : list setting) :
  let o := apply_all ss defaultOptions in
  0 < totalSize o /\
  0 <= randomPrefix o <= 16 /\
  (forall s, fst (option_of s o) <> None -> snd (option_of s o) = o) /\
  (forall b, fst (WithRandomSize b o) = None <-> 256 <= totalSize o).
Proof.
  assert (Hinv : forall o0,
            0 < totalSize o0 -> 0 <= randomPrefix o0 <= 16 ->
            0 < totalSize (apply_all ss o0) /\
            0 <= randomPrefix (apply_all ss o0) <= 16).
  { induction ss as [| s ss IH]; intros o0 Ht Hp; cbn [apply_all]; [auto |].
    destruct (option_keeps_bounds s o0 Ht Hp) as [Ht' Hp'].
    apply IH; assumption. }
  destruct (Hinv defaultOptions) as [Ht Hp]; [reflexivity | cbn; lia |].
  cbn zeta. repeat split; try tauto.
  - intros s. apply option_fails_unchanged.
  - unfold WithRandomSize.
    destruct (Z.ltb_spec 0 (totalSize (apply_all ss defaultOptions)));
      [| lia].
    destruct (Z.ltb_spec (totalSize (apply_all ss defaultOptions)) 256);
      cbn; [discriminate | lia].
  - unfold WithRandomSize. intros Hge.
    destruct (Z.ltb_spec (totalSize (apply_all ss defaultOptions)) 256);
      [lia |].
    rewrite andb_false_r. reflexivity.
Qed.

(** The 256-byte minimum of random sizes is checked against the size set
    before: once random sizes are on, a smaller size is accepted. *)
Example options_small_random :
  apply_all [SetRandomSize true; SetSize 100] defaultOptions
  = {| totalSize := 100; randSize := true; randomPrefix := 0 |}.
Proof. reflexivity. Qed.

End GeneratorFacts.

(** ** The reconstructed command line *)

Section CommandLineFacts.
Import Forward CommandLine.

Variable Duration_String : Duration -> string.
Variable Sprint_float64 : float64 -> string.




End CommandLineFacts.



Example commandLine_example :
  CommandLine.commandLine Analyze.String_hms (fun _ => "") "warp"
    (CommandLine.ctx_keys "AKIAIOSFODNN7" "wJalrXUtnFEMI")
  = "warp put --host=s3.example.org:9000 --access-key=*REDACTED* --secret-key=*REDACTED* --tls=true --concurrent=8 --duration=1m0s".
Proof. vm_compute. reflexivity. Qed.

(** ** Validation of the segment duration *)

Section CheckAnalyzeFacts.
Import Analyze.

Variable Duration_String : Duration -> string.
Variable ParseDuration : string -> option Duration.

Hypothesis parse_print :
  forall d, In d stdDurations -> ParseDuration (Duration_String d) = Some d.

Lemma stdDurations_pos (d : Duration) : In d stdDurations -> 0 < d.
Proof.
  unfold stdDurations, Hour, Minute, Second. cbn [In].
  intros H. repeat (destruct H as [<- | H]; [lia |]). destruct H.
Qed.

Lemma analysisDur_std (ctx : Context) (total : Duration) :
  ctx_String ctx "analyze.dur" = "" -> total <> 0 ->
  exists d,
    analysisDur Duration_String ParseDuration ctx total = Ok d /\ 0 < d.
Proof using parse_print.
  intros Hflag Hne. unfold analysisDur. rewrite Hflag. cbn [String.eqb].
  destruct (Z.eqb_spec total 0) as [E | _]; [contradiction |].
  destruct (pick_std_spec Duration_String total stdDurations ""
              ltac:(discriminate))
    as (pre & d & post & Heq & Hpick & _ & _).
  assert (Hin : In d stdDurations) by (rewrite Heq; apply in_elt).
  rewrite Hpick, (parse_printed Duration_String ParseDuration parse_print d Hin).
  exists d. split; [reflexivity | exact (stdDurations_pos d Hin)].
Qed.

(** X6: [checkAnalyze] always passes when [analyze.dur] is not given;
    when it is given, it passes exactly when the value parses to a
    duration other than zero; and once it has passed, [analysisDur]
    returns for every total, without ending the process, a duration that
    is not zero unless the total is. *)
Theorem checkAnalyze_guards (ctx : Context) :
  (ctx_String ctx "analyze.dur" = "" ->
   checkAnalyze Duration_String ParseDuration ctx = Ok tt) /\
  (ctx_String ctx "analyze.dur" <> "" ->
   (checkAnalyze Duration_String ParseDuration ctx = Ok tt <->
    exists d, ParseDuration (ctx_String ctx "analyze.dur") = Some d /\ d <> 0)) /\
  (checkAnalyze Duration_String ParseDuration ctx = Ok tt ->
   forall total, exists d,
     analysisDur Duration_String ParseDuration ctx total = Ok d /\
     (total <> 0 -> d <> 0)).
Proof using parse_print.
  assert (HM : Minute <> 0) by (unfold Minute, Second; lia).
  assert (Hset : ctx_String ctx "analyze.dur" <> "" ->
            forall total,
              analysisDur Duration_String ParseDuration ctx total
              = parse_or_fatal ParseDuration (ctx_String ctx "analyze.dur")).
  { intros Hne total. unfold analysisDur.
    destruct (String.eqb_spec (ctx_String ctx "analyze.dur") "");
      [contradiction | reflexivity]. }
  split; [| split].
  - intros Hflag. unfold checkAnalyze.
    destruct (analysisDur_std ctx Minute Hflag HM) as (d & -> & Hd).
    cbn [bind_result]. destruct (Z.eqb_spec d 0); [lia | reflexivity].
  - intros Hne. unfold checkAnalyze. rewrite (Hset Hne Minute).
    unfold parse_or_fatal.
    destruct (ParseDuration (ctx_String ctx "analyze.dur")) as [d |];
      cbn [bind_result].
    + destruct (Z.eqb_spec d 0) as [-> | Hd].
      * split; [discriminate | intros (d' & [= <-] & Hd'); contradiction].
      * split; [intros _; exists d; auto | reflexivity].
    + split; [discriminate | intros (d' & Hd' & _); discriminate Hd'].
  - intros Hok total.
    destruct (String.eqb_spec (ctx_String ctx "analyze.dur") "") as [E | E].
    + destruct (Z.eq_dec total 0) as [-> | Hne].
      * exists 0. split; [| intros H; contradiction].
        unfold analysisDur. rewrite E. reflexivity.
      * destruct (analysisDur_std ctx total E Hne) as (d & Hd & Hpos).
        exists d. split; [exact Hd | intros _; lia].
    + unfold checkAnalyze in Hok. rewrite (Hset E Minute) in Hok.
      rewrite (Hset E total).
      destruct (parse_or_fatal ParseDuration (ctx_String ctx "analyze.dur"))
        as [d | msg]; cbn [bind_result] in Hok; [| discriminate Hok].
      exists d. split; [reflexivity |].
      intros _. destruct (Z.eqb_spec d 0); [discriminate Hok | assumption].
Qed.

End CheckAnalyzeFacts.

Lemma checkAnalyze_guards_witness :
  (ctx_String ctx_dur_30s "analyze.dur" = "" ->
   Analyze.checkAnalyze Analyze.String_hms Analyze.Parse_hms ctx_dur_30s
   = Ok tt) /\
  (ctx_String ctx_dur_30s "analyze.dur" <> "" ->
   (Analyze.checkAnalyze Analyze.String_hms Analyze.Parse_hms ctx_dur_30s
    = Ok tt <->
    exists d,
      Analyze.Parse_hms (ctx_String ctx_dur_30s "analyze.dur") = Some d /\
      d <> 0)) /\
  (Analyze.checkAnalyze Analyze.String_hms Analyze.Parse_hms ctx_dur_30s
   = Ok tt ->
   forall total, exists d,
     Analyze.analysisDur Analyze.String_hms Analyze.Parse_hms ctx_dur_30s total
     = Ok d /\
     (total <> 0 -> d <> 0)).
Proof.
  apply (checkAnalyze_guards Analyze.String_hms Analyze.Parse_hms
           Parse_hms_String_hms ctx_dur_30s).
Defined.

(** With [--analyze.dur=30s] the check passes and every log is cut into
    segments of 30 s; [--analyze.dur=0s] is refused. *)
Example checkAnalyze_30s :
  Analyze.checkAnalyze Analyze.String_hms Analyze.Parse_hms ctx_dur_30s
  = Ok tt /\
  Analyze.analysisDur Analyze.String_hms Analyze.Parse_hms ctx_dur_30s Hour
  = Ok (30 * Second) /\
  Analyze.checkAnalyze Analyze.String_hms Analyze.Parse_hms
    (ctx_of "analyze" Forward.analyzeFlags [("analyze.dur", VString "0s")])
  = Fatal Analyze.msg_invalid_dur.
Proof. vm_compute. auto. Qed.

(** ** The values of the forwarded flags *)

Section ForwardValueFacts.
Import Forward.

Variable Duration_String : Duration -> string.
Variable Sprint_float64 : float64 -> string.



End ForwardValueFacts.



(** ** The follower's stage bookkeeping *)

Section ClientStageFacts.
Import Bench ClientStage.

(** X10: on a freshly initialised [clientBenchmark] a follower's run
    never closes a [done] channel twice (it does not panic) and returns
    what [runClientBenchmark] returns; afterwards the [done] channels
    closed are exactly those of the stages it reported, the error kept is
    the first one reported with a stage (a cancelled wait leaves none),
    and the stage recorded is never Benchmark.  Run again without [init],
    it panics at the first stage it reports. *)
Theorem client_run_state (ctx : Context) (c : Common) (w : clientWorld) :
  exists cb,
    runClientBenchmark_cb w init
      = Some (cb, snd (runClientBenchmark ctx c w)) /\
    (forall s, done_closed cb s = true <->
               In s (stages_done (fst (runClientBenchmark ctx c w)))) /\
    err cb = first_reported (fst (runClientBenchmark ctx c w)) /\
    stage cb <> stageBenchmark /\
    (forall w',
       wait_prepare_err w' = None ->
       stages_done (fst (runClientBenchmark ctx c w)) <> [] ->
       runClientBenchmark_cb w' cb = None).
Proof.
  destruct w as [[e1 |] [e2 |] [e3 |] [e4 |]];
    unfold runClientBenchmark;
    cbn [wait_prepare_err prepare_err start_err wait_cleanup_err fst snd];
    try destruct (cleanup_wanted ctx);
    (eexists; split; [vm_compute; reflexivity |]);
    (split; [intros s; destruct s; vm_compute; intuition discriminate |]);
    (split; [reflexivity |]);
    (split; [discriminate |]);
    intros w' Hw' Hne; unfold runClientBenchmark_cb; rewrite Hw';
    first [exfalso; apply Hne; reflexivity | reflexivity].
Qed.

End ClientStageFacts.

(** ** The requests of a coordinator's run *)

Section DispatchFacts.
Import Bench Log Coordinator Dispatch.

Variable Duration_String : Duration -> string.
Variable Sprint_float64 : float64 -> string.

Lemma requests_app (a b : list event) :
  requests (a ++ b) = requests a ++ requests b.
Proof.
  induction a as [| ev a IH]; cbn; [reflexivity |].
  destruct ev; cbn; rewrite IH; reflexivity.
Qed.



(** What a completed run did on one connection. *)
Lemma run_done_host (ctx : Context) (w : world) (s : summary)
    (i : nat) (f : follower) :
  runServerBenchmark Duration_String Sprint_float64 ctx w
    = ret (ServerDone s) ->
  followers w !! i = Some f ->
  exists flags evs5 conn5 conn9,
    Forward.forwardedFlags Duration_String Sprint_float64 ctx = inl flags /\
    host_run (steps_run (benchmarkReq ctx flags) w) f false []
      = ret (conn5, evs5) /\
    host_run (steps_collect w) f conn5 evs5
      = ret (conn9, host_trace i (final s)) /\
    ws (final s) !! i = Some conn9.
Proof.
  intros Hrun Hf.
  destruct (runServer_done Duration_String Sprint_float64 _ _ _ Hrun)
    as (flags & c5 & Hflags & _ & H5 & H9 & _ & _).
  destruct (init_conns_lookup _ _ _ Hf) as (Hw0 & Hl0 & Ht0).
  destruct (run_steps_host _ _ _ _ i f false H5 Hl0 Hf Hw0)
    as (Hl5 & conn5 & Hw5 & Hh5).
  rewrite Ht0 in Hh5.
  destruct (run_steps_host _ _ _ _ i f conn5 H9 Hl5 Hf Hw5)
    as (_ & conn9 & Hw9 & Hh9).
  exists flags, (host_trace i c5), conn5, conn9. auto.
Qed.


(** X13: a run completes only if every follower accepted the benchmark
    request and finished Prepare, and none left the Benchmark polls
    unanswered for ever; every follower was then asked to start
    Benchmark right after Prepare. *)
Theorem completed_run_prepared (ctx : Context) (w : world) (s : summary)
    (i : nat) (f : follower) :
  runServerBenchmark Duration_String Sprint_float64 ctx w
    = ret (ServerDone s) ->
  followers w !! i = Some f ->
  rt_ok (on_benchmark f) = true /\
  stage_verdict f stagePrepare = VFinished /\
  stage_verdict f stageBenchmark <> VStuck /\
  exists rest,
    stages_requested (host_trace i (final s))
    = stagePrepare :: stageBenchmark :: rest.
Proof.
  intros Hrun Hf.
  destruct (run_done_host ctx w s i f Hrun Hf)
    as (flags & evs5 & conn5 & conn9 & _ & H5 & H9 & _).
  assert (Hfacts : rt_ok (on_benchmark f) = true /\
                   stage_verdict f stagePrepare = VFinished /\
                   stage_verdict f stageBenchmark <> VStuck).
  { revert H5. unfold steps_run, stage_verdict. cbn [host_run].
    rewrite sendBenchmark_spec.
    destruct (rt_ok (on_benchmark f));
      [| destruct (on_benchmark f); discriminate].
    cbn [bindM ret fst snd]. rewrite startStage_spec.
    destruct (rt_ok (on_start f stagePrepare)); [| discriminate].
    cbn [bindM ret fst snd]. rewrite waitForStage_spec.
    destruct (poll_verdict (on_status f stagePrepare)); try discriminate.
    cbn [bindM ret fst snd]. rewrite startStage_spec.
    destruct (rt_ok (on_start f stageBenchmark));
      cbn [bindM ret fst snd]; [| intros _; repeat split; discriminate].
    rewrite waitForStage_spec.
    destruct (poll_verdict (on_status f stageBenchmark)); try discriminate;
      intros _; repeat split; discriminate. }
  destruct Hfacts as (Hb & Hp & Hns).
  repeat split; [exact Hb | exact Hp | exact Hns |].
  destruct (host_run_steps_run (benchmarkReq ctx flags) w f eq_refl Hb Hp Hns)
    as (evs & Hex & Hst & _).
  rewrite Hex in H5. injection H5 as _ <-.
  rewrite host_run_acc in H9.
  destruct (host_run (steps_collect w) f conn5 []) as [[[c9 new] | msg] |];
    cbn [bindM ret fst snd] in H9; try discriminate H9.
  injection H9 as _ <-.
  exists (stages_requested new).
  rewrite stages_requested_app, Hst. reflexivity.
Qed.

Lemma requests_concat (P : serverRequest -> Prop) (l : list (list event)) :
  Forall (fun evs => Forall P (requests evs)) l ->
  Forall P (requests (concat l)).
Proof.
  induction 1 as [| evs l Hevs _ IH]; cbn [concat]; [constructor |].
  rewrite requests_app. apply Forall_app. auto.
Qed.

Lemma par_phase_sends (P : serverRequest -> Prop) (step : hstep)
    (fs : list follower) (c c' : conns) :
  sends P step ->
  par_phase step fs c = ret c' ->
  Forall P (requests (global_trace c)) ->
  Forall P (requests (global_trace c')).
Proof.
  intros Hs Hp Hc.
  destruct (par_phase_global _ _ _ _ Hp) as (outs & Hall & ->).
  rewrite requests_app. apply Forall_app. split; [exact Hc |].
  apply requests_concat. apply List.Forall_forall. intros evs Hevs.
  apply in_map_iff in Hevs as (out & <- & Hout).
  apply list_elem_of_In, list_elem_of_lookup in Hout as [k Hk].
  destruct (Forall2_lookup_r _ _ _ _ _ Hall Hk) as (m & Hm & ->).
  apply lookup_zip_with_Some in Hm as (f & conn & Hstep & _ & _).
  exact (Hs f conn out (eq_sym Hstep)).
Qed.

Lemma run_steps_sends (P : serverRequest -> Prop) (ss : list hstep)
    (fs : list follower) :
  Forall (sends P) ss ->
  forall c c',
    run_steps ss fs c = ret c' ->
    Forall P (requests (global_trace c)) ->
    Forall P (requests (global_trace c')).
Proof.
  induction 1 as [| s ss Hs _ IH]; intros c c' Hrun Hc; cbn in Hrun.
  - injection Hrun as <-. exact Hc.
  - destruct (par_phase s fs c) as [[c1 | msg] |] eqn:Hp; cbn in Hrun;
      try discriminate Hrun.
    exact (IH c1 c' Hrun (par_phase_sends P s fs c c1 Hs Hp Hc)).
Qed.

Lemma sends_sendBenchmark (P : serverRequest -> Prop) (req : serverRequest) :
  P req -> sends P (sendBenchmark req).
Proof.
  intros HP f conn out. rewrite sendBenchmark_spec.
  destruct (rt_ok (on_benchmark f)).
  - intros [= <-]. repeat constructor. exact HP.
  - destruct (on_benchmark f); discriminate.
Qed.

Lemma sends_startStage (P : serverRequest -> Prop) (stage : benchmarkStage)
    (t : Connect.Time) (failOnErr : bool) :
  P (startReq stage t) -> sends P (startStage stage t failOnErr).
Proof.
  intros HP f conn out. destruct conn; [| intros [= <-]; constructor].
  rewrite startStage_spec.
  destruct (rt_ok (on_start f stage)).
  - intros [= <-]. repeat constructor. exact HP.
  - destruct failOnErr; [discriminate |]. intros [= <-].
    destruct (on_start f stage); repeat constructor; exact HP.
Qed.

Lemma sends_poll_events (P : serverRequest -> Prop) (stage : benchmarkStage)
    (answers : list rtOutcome) :
  P (statusReq stage) -> Forall P (requests (poll_events stage answers)).
Proof.
  intros HP. induction answers as [| a rest IH]; cbn; [constructor |].
  destruct a as [e | r]; [repeat constructor; exact HP |].
  destruct (reply_ok r); cbn; [| repeat constructor; exact HP].
  destruct (reply_Finished r); cbn; [repeat constructor; exact HP |].
  constructor; [exact HP | exact IH].
Qed.

Lemma sends_waitForStage (P : serverRequest -> Prop) (stage : benchmarkStage)
    (failOnErr : bool) :
  P (statusReq stage) -> sends P (waitForStage stage failOnErr).
Proof.
  intros HP f conn out. destruct conn; [| intros [= <-]; constructor].
  rewrite waitForStage_spec.
  destruct (poll_verdict (on_status f stage)); [| destruct failOnErr |];
    try discriminate; intros [= <-]; apply sends_poll_events; exact HP.
Qed.

Lemma sends_downloadStep (P : serverRequest -> Prop) :
  P sendOpsReq -> sends P downloadStep.
Proof.
  intros HP f conn out [= <-]. unfold downloadOne.
  destruct conn; cbn [negb]; [| constructor].
  destruct (on_sendops f) as [e | r]; [repeat constructor; exact HP |].
  destruct (reply_ok r); repeat constructor; exact HP.
Qed.

Lemma sends_closeStep (P : serverRequest -> Prop) : sends P closeStep.
Proof.
  intros f conn out. unfold closeStep.
  destruct conn; intros [= <-]; constructor.
Qed.

(** X14: in a run that completes, every follower is sent the same
    benchmark request -- the command, its arguments and the forwarded
    flags -- and, for each stage, a start request carrying the same
    instant for all of them: one second after the coordinator's clock
    reading for Prepare, three seconds after it for Benchmark, the
    reading itself for Cleanup; the polls and the download carry no
    instant and no payload. *)
Theorem requests_uniform (ctx : Context) (w : world) (s : summary) :
  runServerBenchmark Duration_String Sprint_float64 ctx w
    = ret (ServerDone s) ->
  exists flags,
    Forward.forwardedFlags Duration_String Sprint_float64 ctx = inl flags /\
    Forall (scheduled (benchmarkReq ctx flags) w)
      (requests (global_trace (final s))).
Proof.
  intros Hrun.
  destruct (runServer_done Duration_String Sprint_float64 _ _ _ Hrun)
    as (flags & c5 & Hflags & _ & H5 & H9 & _ & _).
  exists flags. split; [exact Hflags |].
  assert (Hall : run_steps (steps (benchmarkReq ctx flags) w) (followers w)
                   (init_conns (followers w)) = ret (final s)).
  { unfold steps. rewrite run_steps_app, H5. exact H9. }
  assert (Hss : Forall (sends (scheduled (benchmarkReq ctx flags) w))
                  (steps (benchmarkReq ctx flags) w));
    [| exact (run_steps_sends _ _ _ Hss _ _ Hall
                ltac:(constructor))].
  unfold steps, steps_run, steps_collect. cbn [app].
  repeat constructor;
    first [ apply sends_sendBenchmark | apply sends_startStage
          | apply sends_waitForStage | apply sends_downloadStep
          | apply sends_closeStep ];
    cbn; auto.
Qed.





End DispatchFacts.

Lemma example_run_done :
  Coordinator.runServerBenchmark Analyze.String_hms (fun _ => "")
    Coordinator.ctx_remote Coordinator.example_world
  = Coordinator.ret (Coordinator.ServerDone Coordinator.example_summary).
Proof. vm_compute. reflexivity. Defined.


Lemma completed_run_prepared_witness :
  Coordinator.rt_ok
    (Coordinator.on_benchmark
       (Coordinator.failing_benchmark [Log.mk_op "GET" 0 12 22])) = true /\
  Coordinator.stage_verdict
    (Coordinator.failing_benchmark [Log.mk_op "GET" 0 12 22])
    Bench.stagePrepare = Coordinator.VFinished /\
  Coordinator.stage_verdict
    (Coordinator.failing_benchmark [Log.mk_op "GET" 0 12 22])
    Bench.stageBenchmark <> Coordinator.VStuck /\
  exists rest,
    Coordinator.stages_requested
      (Coordinator.host_trace 1
         (Coordinator.final Coordinator.example_summary))
    = Bench.stagePrepare :: Bench.stageBenchmark :: rest.
Proof.
  apply (completed_run_prepared Analyze.String_hms (fun _ => "")
           Coordinator.ctx_remote Coordinator.example_world
           Coordinator.example_summary 1
           (Coordinator.failing_benchmark [Log.mk_op "GET" 0 12 22])
           example_run_done).
  reflexivity.
Defined.

Lemma requests_uniform_witness :
  exists flags,
    Forward.forwardedFlags Analyze.String_hms (fun _ => "")
      Coordinator.ctx_remote = inl flags /\
    Forall
      (Dispatch.scheduled
         (Coordinator.benchmarkReq Coordinator.ctx_remote flags)
         Coordinator.example_world)
      (Dispatch.requests
         (Coordinator.global_trace
            (Coordinator.final Coordinator.example_summary))).
Proof.
  apply (requests_uniform Analyze.String_hms (fun _ => "")
           Coordinator.ctx_remote Coordinator.example_world
           Coordinator.example_summary example_run_done).
Defined.

(** On the example run the three followers are asked to start Prepare,
    Benchmark and Cleanup at the same three instants. *)
Example example_start_times :
  map (fun req => (Coordinator.Stage req, Coordinator.StartTime req))
    (List.filter
       (fun req =>
          match Coordinator.Operation req with
          | Coordinator.serverReqStartStage => true
          | _ => false
          end)
       (Dispatch.requests
          (Coordinator.global_trace
             (Coordinator.final Coordinator.example_summary))))
  = [ (Bench.stagePrepare, 1793000001 * Second);
      (Bench.stagePrepare, 1793000001 * Second);
      (Bench.stagePrepare, 1793000001 * Second);
      (Bench.stageBenchmark, 1793000063 * Second);
      (Bench.stageBenchmark, 1793000063 * Second);
      (Bench.stageBenchmark, 1793000063 * Second);
      (Bench.stageCleanup, 1793000400 * Second);
      (Bench.stageCleanup, 1793000400 * Second) ].
Proof. vm_compute. reflexivity. Qed.



(** A follower that keeps answering "not finished" keeps the run
    waiting. *)
Example run_hangs :
  Coordinator.runServerBenchmark Analyze.String_hms (fun _ => "")
    Coordinator.ctx_remote
    (Coordinator.world_of [Coordinator.healthy 0 []; Dispatch.hanging])
  = None.
Proof. vm_compute. reflexivity. Qed.

(** ** What merging keeps *)

Section MergedFacts.
Import Log Merged.

Lemma forget_thread_app (a b : Operations) :
  forget_thread (a ++ b) = forget_thread a ++ forget_thread b.
Proof. apply map_app. Qed.

Lemma forget_thread_offset (o : Operations) (n : Z) :
  forget_thread (fst (OffsetThreads o n)) = forget_thread o.
Proof.
  unfold OffsetThreads, forget_thread. cbn [fst].
  rewrite map_map. reflexivity.
Qed.

Lemma forget_thread_merge_loop (logs : list Operations) :
  forall n acc,
    forget_thread (merge_loop logs n acc)
    = forget_thread acc ++ forget_thread (concat logs).
Proof.
  induction logs as [| o logs IH]; intros n acc; cbn [merge_loop concat].
  - cbn. rewrite app_nil_r. reflexivity.
  - pose proof (forget_thread_offset o n) as Ho.
    destruct (OffsetThreads o n) as [o' n']. cbn [fst] in Ho.
    rewrite IH, !forget_thread_app, Ho, app_assoc. reflexivity.
Qed.

Lemma forget_thread_sorted (o : Operations) :
  Permutation (forget_thread (SortByStartTime o)) (forget_thread o).
Proof. apply Permutation_map. apply SortByStartTime_perm. Qed.

(** X11: merging loses and invents nothing: the merged log holds the
    records of all the input logs, each as it was but for its thread id,
    in the order of their start times -- whether the thread ids fit in 16
    bits or not.  [warp merge] ends the process for fewer than two
    files, returns an error when the files hold no record, and otherwise
    gives what the coordinator makes of the same logs downloaded from its
    followers. *)
Theorem merge_keeps_records (logs : list Operations) :
  Permutation (forget_thread (mergeDownloaded logs))
    (forget_thread (concat logs)) /\
  sorted_by_start (mergeDownloaded logs) /\
  (mainMerge_ops logs = Fatal msg_two_files <-> (length logs <= 1)%nat) /\
  ((2 <= length logs)%nat ->
   mainMerge_ops logs =
   if (length (concat logs) =? 0)%nat then Ok (inr err_no_data)
   else Ok (inl (mergeDownloaded logs))).
Proof.
  assert (Hlen : length (merge_loop logs 0 []) = length (concat logs)).
  { pose proof (forget_thread_merge_loop logs 0 []) as H.
    apply (f_equal (@length Operation)) in H.
    unfold forget_thread in H. cbn [map app] in H.
    rewrite !length_map in H. exact H. }
  split; [| split; [| split]].
  - unfold mergeDownloaded.
    rewrite forget_thread_sorted.
    destruct logs as [| a [| b rest]].
    + reflexivity.
    + cbn [concat]. rewrite app_nil_r. reflexivity.
    + rewrite forget_thread_merge_loop. reflexivity.
  - apply SortByStartTime_sorted.
  - unfold mainMerge_ops.
    destruct (Nat.leb_spec (length logs) 1) as [Hle | Hgt].
    + tauto.
    + split; [| lia].
      destruct (length (merge_loop logs 0 []) =? 0)%nat; discriminate.
  - intros H2. unfold mainMerge_ops.
    destruct (Nat.leb_spec (length logs) 1) as [Hle | _]; [lia |].
    rewrite Hlen. unfold mergeDownloaded.
    destruct logs as [| a [| b rest]]; cbn [length] in H2; try lia.
    reflexivity.
Qed.

End MergedFacts.

(** The three example logs: five records before and after. *)
Example merge_small_logs_records :
  map (fun op => (Log.Start op, Log.End_ op))
    (Log.mergeDownloaded Log.small_logs)
  = [(10, 20); (11, 23); (12, 22); (13, 24); (14, 21)].
Proof. vm_compute. reflexivity. Qed.

(** ** Validation of the benchmark flags *)

Section CheckBenchmarkFacts.
Import Bench CheckBenchmark.

Variable ParseInLocation : string -> option Connect.Time.
Variable AddDate_of : Connect.Time -> Connect.Time -> Connect.Time.
Variable float64_le0 : float64 -> bool.
Variable float64_div100 : float64 -> float64.

Lemma check_profs_ok (profs : list string) :
  check_profs profs = Ok tt <->
  Forall (fun p => p = "" \/ In p profilerTypes) profs.
Proof.
  induction profs as [| p rest IH]; cbn [check_profs].
  - split; [constructor | reflexivity].
  - destruct p as [| ch p'].
    + cbn. rewrite IH. split.
      * intros H. constructor; [left; reflexivity | exact H].
      * intros H. inversion H; assumption.
    + cbn [String.length Nat.eqb].
      destruct (existsb (String.eqb (String ch p')) profilerTypes) eqn:E.
      * rewrite IH. split.
        -- intros H. constructor; [right | exact H].
           apply existsb_exists in E as (q & Hq & Heq).
           apply String.eqb_eq in Heq. subst q. exact Hq.
        -- intros H. inversion H; assumption.
      * split; [discriminate |].
        intros H. inversion H as [| ? ? [Hp | Hp] _]; subst;
          [discriminate Hp |].
        exfalso. assert (Hex : existsb (String.eqb (String ch p'))
                                 profilerTypes = true).
        { apply existsb_exists. exists (String ch p').
          split; [exact Hp | apply String.eqb_refl]. }
        congruence.
Qed.

(** X17: [checkBenchmark] lets the run go on exactly when every item of
    the comma-separated [serverprof] value is empty or one of [cpu],
    [mem], [block], [mutex], [trace]; the [syncstart] time, when given,
    parses and is not before the clock reading; and, with [autoterm],
    the window [autoterm.dur] is positive and [autoterm.pct] is not
    [<= 0] -- so that a stand-alone run configured from such a command
    line has a positive auto-termination window. *)
Theorem checkBenchmark_guards (ctx : Context) (now1 now2 : Connect.Time) :
  checkBenchmark ParseInLocation AddDate_of float64_le0 ctx now1 now2 = Ok tt
  <->
  Forall (fun p => p = "" \/ In p profilerTypes)
    (split_comma (ctx_String ctx "serverprof")) /\
  (ctx_String ctx "syncstart" <> "" ->
   exists t,
     parseLocalTime ParseInLocation AddDate_of now1 (ctx_String ctx "syncstart")
       = Ok t /\
     now2 <= t) /\
  (ctx_Bool ctx "autoterm" = true ->
   0 < AutoTermDur (standaloneCommon float64_div100 ctx commandCommon) /\
   float64_le0 (ctx_Float64 ctx "autoterm.pct") = false).
Proof.
  unfold checkBenchmark, standaloneCommon.
  rewrite <- check_profs_ok.
  destruct (check_profs (split_comma (ctx_String ctx "serverprof")))
    as [[] | msg]; cbn [bind_result];
    [| split; [discriminate | intros [H _]; discriminate H]].
  assert (Hsync :
    (if negb (String.eqb (ctx_String ctx "syncstart") "") then
       bind_result
         (parseLocalTime ParseInLocation AddDate_of now1
            (ctx_String ctx "syncstart"))
         (fun t => if t <? now2 then Fatal msg_syncstart else Ok tt)
     else Ok tt) = Ok tt <->
    (ctx_String ctx "syncstart" <> "" ->
     exists t,
       parseLocalTime ParseInLocation AddDate_of now1
         (ctx_String ctx "syncstart") = Ok t /\
       now2 <= t)).
  { destruct (String.eqb_spec (ctx_String ctx "syncstart") "") as [E | E];
      cbn [negb].
    - split; [intros _ H; contradiction | reflexivity].
    - destruct (parseLocalTime ParseInLocation AddDate_of now1
                  (ctx_String ctx "syncstart")) as [t | msg];
        cbn [bind_result].
      + destruct (Z.ltb_spec t now2) as [Hlt | Hge].
        * split; [discriminate |].
          intros H. destruct (H E) as (t' & [= <-] & Hle). lia.
        * split; [intros _ _; exists t; auto | reflexivity].
      + split; [discriminate |].
        intros H. destruct (H E) as (t' & Ht' & _). discriminate Ht'. }
  destruct (if negb (String.eqb (ctx_String ctx "syncstart") "") then _
            else _) as [[] | msg]; cbn [bind_result].
  2: { split; [discriminate |]. intros (_ & H & _).
       apply Hsync in H. discriminate H. }
  destruct (ctx_Bool ctx "autoterm"); cbn [AutoTermDur].
  - destruct (Z.leb_spec (ctx_Duration ctx "autoterm.dur") 0) as [Hle | Hgt].
    + split; [discriminate |]. intros (_ & _ & H).
      destruct (H eq_refl) as [Hpos _]. lia.
    + destruct (float64_le0 (ctx_Float64 ctx "autoterm.pct")).
      * split; [discriminate |]. intros (_ & _ & H).
        destruct (H eq_refl) as [_ Hf]. discriminate Hf.
      * split; [| reflexivity]. intros _.
        split; [reflexivity |]. split; [apply Hsync; reflexivity |].
        intros _. split; [lia | reflexivity].
  - split; [| reflexivity]. intros _.
    split; [reflexivity |]. split; [apply Hsync; reflexivity |].
    intros H. discriminate H.
Qed.

End CheckBenchmarkFacts.

Lemma split_comma_nonempty (s : string) : CheckBenchmark.split_comma s <> [].
Proof.
  destruct s as [| c rest]; cbn [CheckBenchmark.split_comma]; [discriminate |].
  destruct (Ascii.eqb c ","); [discriminate |].
  destruct (CheckBenchmark.split_comma rest); discriminate.
Qed.

Lemma concat_comma_cons (c : ascii) (p : string) (ps : list string) :
  String.concat "," (String c p :: ps)
  = String c (String.concat "," (p :: ps)).
Proof. destruct ps; reflexivity. Qed.

(** Splitting at the commas loses nothing: the pieces joined by commas
    give the text back. *)
Lemma split_comma_join (s : string) :
  String.concat "," (CheckBenchmark.split_comma s) = s.
Proof.
  induction s as [| c rest IH]; [reflexivity |].
  cbn [CheckBenchmark.split_comma].
  pose proof (split_comma_nonempty rest) as Hne0.
  destruct (Ascii.eqb_spec c ",") as [-> | Hne];
    destruct (CheckBenchmark.split_comma rest) as [| p ps] eqn:E;
    try contradiction.
  - change (String.concat "," ("" :: p :: ps))
      with (String "," (String.concat "," (p :: ps))).
    rewrite IH. reflexivity.
  - rewrite concat_comma_cons, IH. reflexivity.
Qed.

(** An empty item between two known profiler types is let through. *)
Example checkBenchmark_example :
  CheckBenchmark.split_comma "cpu,,trace" = ["cpu"; ""; "trace"] /\
  CheckBenchmark.checkBenchmark (fun _ => None) (fun _ t => t) (fun _ => false)
    CheckBenchmark.ctx_prof 0 0 = Ok tt /\
  CheckBenchmark.check_profs (CheckBenchmark.split_comma "cpu,heap")
  = Fatal CheckBenchmark.msg_profiler.
Proof. vm_compute. auto. Qed.

(** ** When the test data is removed *)

Section CleanupFacts.
Import Bench.

Variable float64_div100 : float64 -> float64.


End CleanupFacts.


(** ** Longer runs never get shorter segments *)

Section SegmentFacts.
Import Analyze.

Variable Duration_String : Duration -> string.
Variable ParseDuration : string -> option Duration.

Hypothesis parse_print :
  forall d, In d stdDurations -> ParseDuration (Duration_String d) = Some d.

Lemma analysisDur_pick (ctx : Context) (total d : Duration) :
  ctx_String ctx "analyze.dur" = "" -> 0 < total ->
  analysisDur Duration_String ParseDuration ctx total = Ok d ->
  exists pre post,
    stdDurations = pre ++ d :: post /\
    Forall (fun d' => wantAtMost < go_div total d') pre /\
    (go_div total d <= wantAtMost \/ post = []).
Proof using parse_print.
  intros Hflag Hpos. unfold analysisDur. rewrite Hflag. cbn [String.eqb].
  destruct (Z.eqb_spec total 0) as [E | _]; [lia |].
  destruct (pick_std_spec Duration_String total stdDurations ""
              ltac:(discriminate))
    as (pre & d0 & post & Heq & Hpick & Hpre & Hlast).
  assert (Hin : In d0 stdDurations) by (rewrite Heq; apply in_elt).
  rewrite Hpick, (parse_printed Duration_String ParseDuration parse_print d0 Hin).
  intros [= <-]. exists pre, post.
  split; [exact Heq |]. split; [exact Hpre |].
  destruct Hlast as [H | [H _]]; auto.
Qed.

Lemma sorted_last_max (pre : list Z) (d x : Z) :
  StronglySorted Z.lt (pre ++ [d]) -> In x (pre ++ [d]) -> x <= d.
Proof.
  induction pre as [| p pre IH]; cbn; intros Hs Hin.
  - destruct Hin as [<- | []]. lia.
  - inversion Hs as [| ? ? Hs' Hall]; subst.
    destruct Hin as [<- | Hin]; [| exact (IH Hs' Hin)].
    rewrite List.Forall_forall in Hall.
    assert (Hd : In d (pre ++ [d])) by (apply in_or_app; right; left; reflexivity).
    specialize (Hall d Hd). lia.
Qed.

(** X19: with [analyze.dur] unset, the segment duration grows with the
    length of the run: a longer total never gets a shorter segment. *)
Theorem analysisDur_monotone (ctx : Context) (total total' d d' : Duration) :
  ctx_String ctx "analyze.dur" = "" ->
  0 < total -> total <= total' ->
  analysisDur Duration_String ParseDuration ctx total = Ok d ->
  analysisDur Duration_String ParseDuration ctx total' = Ok d' ->
  d <= d'.
Proof using parse_print.
  intros Hflag Hpos Hle Hd Hd'.
  destruct (analysisDur_pick ctx total d Hflag Hpos Hd)
    as (pre & post & Heq & Hpre & _).
  destruct (analysisDur_pick ctx total' d' Hflag ltac:(lia) Hd')
    as (pre' & post' & Heq' & _ & Hlast').
  destruct (Z.le_gt_cases d d') as [H | Hlt]; [exact H | exfalso].
  pose proof stdDurations_sorted as Hs.
  assert (Hin' : In d' stdDurations) by (rewrite Heq'; apply in_elt).
  assert (Hin : In d stdDurations) by (rewrite Heq; apply in_elt).
  destruct Hlast' as [Hfit | ->].
  - assert (Hp : In d' pre).
    { rewrite Heq in Hs, Hin'.
      exact (sorted_split_lt pre post d Hs d' Hin' ltac:(lia)). }
    rewrite List.Forall_forall in Hpre. specialize (Hpre d' Hp).
    assert (Hpos' : 0 < d') by (apply stdDurations_pos; exact Hin').
    pose proof (Z.quot_le_mono total total' d' Hpos' Hle) as Hq.
    unfold go_div in *. lia.
  - rewrite Heq' in Hs, Hin.
    pose proof (sorted_last_max pre' d' d Hs Hin). lia.
Qed.

End SegmentFacts.

Lemma analysisDur_monotone_witness :
  Analyze.analysisDur Analyze.String_hms Analyze.Parse_hms
    (ctx_of "analyze" [] []) (10 * Hour) = Ok (5 * Minute) /\
  Analyze.analysisDur Analyze.String_hms Analyze.Parse_hms
    (ctx_of "analyze" [] []) (100 * Hour) = Ok (15 * Minute) /\
  5 * Minute <= 15 * Minute.
Proof.
  assert (H1 : Analyze.analysisDur Analyze.String_hms Analyze.Parse_hms
                 (ctx_of "analyze" [] []) (10 * Hour) = Ok (5 * Minute))
    by (vm_compute; reflexivity).
  assert (H2 : Analyze.analysisDur Analyze.String_hms Analyze.Parse_hms
                 (ctx_of "analyze" [] []) (100 * Hour) = Ok (15 * Minute))
    by (vm_compute; reflexivity).
  refine (conj H1 (conj H2
            (analysisDur_monotone Analyze.String_hms Analyze.Parse_hms
               Parse_hms_String_hms (ctx_of "analyze" [] [])
               (10 * Hour) (100 * Hour) (5 * Minute) (15 * Minute)
               eq_refl _ _ H1 H2))).
  - reflexivity.
  - vm_compute. discriminate.
Defined.
